(** * api-tool: the interactive structured-text viewer

    A shallow embedding of [display.py] and [lines_display.py]: the span and
    colour engine ([Line.add_color_span]), the structural annotator
    ([LinesDisplay.print_json]), the render step ([Line.draw]) and the
    viewport controller ([LinesDisplay]), followed by the properties the
    specification states about them; then the menu of [menu_display.py],
    the numeric input of [lines_display.py] and the helpers of [main.py]
    for file names, variables and merged projects, with properties read
    off the code.

    Python values are modelled as follows.
    - [int] is [Z]; a [str] is the list of its code points ([list N]), so
      [len] is [length] and one non-ASCII character counts for one.
    - [None]-able fields are [option]s.
    - A Python list that is only rebound or appended to is a Rocq [list];
      indexing, slicing and in-place update by index are written out with
      Python's rules for negative and out-of-range indices.
    - An exception is a value of [exn]; a method that can raise returns a
      [result], and a method that mutates [self] before raising returns the
      state it reached together with the exception.
    - [Line.draw] is modelled over an explicit object store, because the
      property stated about it is about aliasing.
    - The terminal is seen through what the code asks of it: the size of
      the window, what [scr.addstr] does with each call (it writes, or it
      raises), and the keys [getch] answers. *)

From Stdlib Require Import ZArith NArith List Lia String Ascii Bool DecimalString Sorted.
From stdpp Require Import base list gmap.
Import ListNotations.
Local Open Scope Z_scope.

(** ** Python strings, indices and slices *)

Abbreviation char := N.
Abbreviation str := (list char).

(** A string literal of the source (ASCII text). *)
Definition py (s : string) : str := map N_of_ascii (list_ascii_of_string s).

(** U+2026, the single character the source writes in its markers. *)
Definition ELLIPSIS : char := 8230%N.

Definition len {A} (l : list A) : Z := Z.of_nat (length l).

Inductive exn := IndexError | TypeError | AttributeError | ValueError | CursesError.

Inductive result (A : Type) :=
| Ok (a : A)
| Raise (e : exn).
Arguments Ok {A} a.
Arguments Raise {A} e.

Definition rbind {A B} (r : result A) (k : A -> result B) : result B :=
  match r with
  | Ok a => k a
  | Raise e => Raise e
  end.

Declare Scope result_scope.
Delimit Scope result_scope with result.
Notation "x <- c ;; k" := (rbind c (fun x => k))
  (at level 100, c at next level, right associativity) : result_scope.

(** [l[i]]: negative indices count from the end, anything outside
    [-len, len) raises IndexError. *)
Definition py_pos {A} (l : list A) (i : Z) : option nat :=
  if (0 <=? i) && (i <? len l) then Some (Z.to_nat i)
  else if (- len l <=? i) && (i <? 0) then Some (Z.to_nat (i + len l))
  else None.

Definition py_index {A} (l : list A) (i : Z) : result A :=
  match py_pos l i with
  | Some n => match l !! n with Some a => Ok a | None => Raise IndexError end
  | None => Raise IndexError
  end.

(** A slice bound: negative bounds count from the end, all are clipped. *)
Definition slice_bound (n : Z) (i : Z) : Z :=
  if i <? 0 then Z.max 0 (i + n) else Z.min i n.

(** [l[lo:hi]], a missing bound being [None]. *)
Definition py_slice {A} (lo hi : option Z) (l : list A) : list A :=
  let n := len l in
  let a := match lo with Some i => slice_bound n i | None => 0 end in
  let b := match hi with Some i => slice_bound n i | None => n end in
  take (Z.to_nat (b - a)) (drop (Z.to_nat a) l).

(** [str.isspace] on one character; [\s] of [re] on [str] patterns and
    [str.strip] use the same set. *)
Definition isspace (c : char) : bool :=
  existsb (N.eqb c)
    [9; 10; 11; 12; 13; 28; 29; 30; 31; 32; 133; 160; 5760;
     8192; 8193; 8194; 8195; 8196; 8197; 8198; 8199; 8200; 8201; 8202;
     8232; 8233; 8239; 8287; 12288]%N.

(** [s.lstrip()] and [s.rstrip()] *)
Fixpoint lstrip (s : str) : str :=
  match s with
  | c :: s' => if isspace c then lstrip s' else s
  | [] => []
  end.

Definition rstrip (s : str) : str := rev (lstrip (rev s)).

(** [len(s) - len(s.lstrip())], the indentation of a line *)
Definition indentation (s : str) : Z := len s - len (lstrip s).

(** The line boundaries of [str.splitlines]. *)
Definition is_linebreak (c : char) : bool :=
  existsb (N.eqb c) [10; 11; 12; 13; 28; 29; 30; 133; 8232; 8233]%N.

(** [s.splitlines()]: a line ends at a boundary, CR LF is one boundary, and
    a last line that is empty is not reported. [cur] is the line being read,
    reversed. *)
Fixpoint splitlines_aux (cur : str) (s : str) : list str :=
  match s with
  | [] => match cur with [] => [] | _ => [rev cur] end
  | c :: s' =>
      if is_linebreak c then
        match c, s' with
        | 13%N, 10%N :: s'' => rev cur :: splitlines_aux [] s''
        | _, _ => rev cur :: splitlines_aux [] s'
        end
      else splitlines_aux (c :: cur) s'
  end.

Definition splitlines (s : str) : list str := splitlines_aux [] s.

(** ** display.py: the data model *)

Inductive JsonType :=
| OBJ_START | OBJ_END | ARR_START | ARR_END | EMPTY | STRING | NUMBER | BOOL | NULL.

#[export] Instance JsonType_eq_dec : EqDecision JsonType.
Proof. solve_decision. Defined.

(** [Color]: the index from which the colour applies, and a colour pair.
    [Span]: starting index, ending index. *)
Abbreviation Color := (Z * Z)%type.
Abbreviation Span := (Z * Z)%type.

(** The fields [JsonEntity] adds to [JsonAnnotation]. *)
Record JsonEntity := mkEntity {
  pair_idx : option Z;
  child_count : Z;
  collapsed : bool
}.

(** [JsonAnnotation]; [entity] is present exactly when the object was built
    by the [JsonEntity] constructor. *)
Record JsonAnnotation := mkAnnotation {
  type : JsonType;
  key : option Span;
  value : Span;
  color : Z;
  hidden : Z;
  entity : option JsonEntity
}.

(** [JsonAnnotation(type, key, value)] *)
Definition new_JsonAnnotation (t : JsonType) (k : option Span) (v : Span) : JsonAnnotation :=
  {| type := t; key := k; value := v; color := 3; hidden := 0; entity := None |}.

(** [JsonEntity(type, key, value, pair_idx)] *)
Definition new_JsonEntity (t : JsonType) (k : option Span) (v : Span) (p : option Z)
  : JsonAnnotation :=
  {| type := t; key := k; value := v; color := 8; hidden := 0;
     entity := Some {| pair_idx := p; child_count := 0; collapsed := false |} |}.

Definition collapsible (a : JsonAnnotation) : bool :=
  match type a with
  | OBJ_START | ARR_START => true
  | _ => false
  end.

Record Line := mkLine {
  s : str;
  colors : list Color;
  json : option JsonAnnotation;
  row : option Z;
  offset : Z
}.

(** [Line(s)], and [Line(s, colors=cs)] where an empty [cs] counts as absent *)
Definition new_Line (text : str) : Line :=
  {| s := text; colors := []; json := None; row := None; offset := 0 |}.

Definition new_Line_colors (text : str) (cs : list Color) : Line :=
  {| s := text; colors := cs; json := None; row := None; offset := 0 |}.

(** ** The span and colour engine *)

(** [sorted(colors, key=lambda tup: tup[0])]. Python's sort is stable, and a
    stable sort has one result: the one insertion from the right builds. *)
Fixpoint insert_color (x : Color) (l : list Color) : list Color :=
  match l with
  | [] => [x]
  | y :: l' => if fst x <=? fst y then x :: y :: l' else y :: insert_color x l'
  end.

Definition py_sorted (l : list Color) : list Color := foldr insert_color [] l.

(** [[c[1] for c in colors if c[0] <= bound][-1]] *)
Definition last_color_upto (cs : list Color) (bound : Z) : result Z :=
  py_index (map snd (List.filter (fun c => fst c <=? bound) cs)) (-1).

(** [Line.add_color_span]; it does not read [self]. *)
Definition add_color_span (cs : list Color) (color_i start w : Z) : list Color :=
  let '(prev_color, cs) :=
    match last_color_upto cs (start + w) with
    | Ok p => (p, cs)
    | Raise _ => (1, (0, 1) :: cs)
    end in
  let cs := List.filter (fun x => negb (fst x =? start)) cs in
  let cs := cs ++ [(start, color_i); (start + w, prev_color)] in
  py_sorted cs.

(** The same method with its exception flow written out: the only
    expression that can raise is the [[-1]] of the comprehension, inside the
    [try]. The result says whether the call returns or raises. *)
Definition add_color_span_exc (cs : list Color) (color_i start w : Z)
  : result (list Color) :=
  let attempt := last_color_upto cs (start + w) in
  match attempt with
  | Ok prev_color =>
      Ok (py_sorted (List.filter (fun x => negb (fst x =? start)) cs
                       ++ [(start, color_i); (start + w, prev_color)]))
  | Raise IndexError =>
      Ok (py_sorted (List.filter (fun x => negb (fst x =? start)) ((0, 1) :: cs)
                       ++ [(start, color_i); (start + w, 1)]))
  | Raise e => Raise e
  end.

(** [Line.increase_offset] and [Line.decrease_offset] *)
Definition increase_offset (l : Line) (scr_w : Z) : Line :=
  match json l with
  | None => l
  | Some _ =>
      {| s := s l; colors := colors l; json := json l; row := row l;
         offset := Z.min (Z.max 0 (len (s l) - scr_w + 3)) (offset l + 10) |}
  end.

Definition decrease_offset (l : Line) : Line :=
  {| s := s l; colors := colors l; json := json l; row := row l;
     offset := Z.max 0 (offset l - 10) |}.


(** ** lines_display.py: the structural annotator *)

Definition QUOTE : char := 34%N.
Definition COLON : char := 58%N.
Definition COMMA : char := 44%N.
Definition SPACE : char := 32%N.

Definition str_eqb (a b : str) : bool := bool_decide (a = b).

(** [re.match(key_value_re, line_str)] for
    [key_value_re = r'\s*?(\".*?\")(\s?:\s?)(.*?)$'], on a line of
    [splitlines()], which holds no line break: there [.] matches every
    character and [$] only the end, so the last group always reaches the end
    of the line. The lazy [\s*?] can only stop at the first character that
    is not white space, which has to be the opening quote; the lazy [.*?]
    stops at the first later quote that the separator can follow; the
    greedy [\s?] take a white space when one is there. *)
Definition opt_space (t : str) : Z :=
  match t with
  | c :: _ => if isspace c then 1 else 0
  | [] => 0
  end.

(** Length of what [(\s?:\s?)] matches at the head of [t], if it matches. *)
Definition sep_len (t : str) : option Z :=
  match t with
  | c1 :: t1 =>
      if isspace c1 then
        match t1 with
        | c2 :: t2 => if N.eqb c2 COLON then Some (2 + opt_space t2) else None
        | [] => None
        end
      else if N.eqb c1 COLON then Some (1 + opt_space t1)
      else None
  | [] => None
  end.

(** [t] is the text from index [j] on; the result is the index of the quote
    closing group 1 and the length of group 2. *)
Fixpoint key_end (t : str) (j : Z) : option (Z * Z) :=
  match t with
  | [] => None
  | c :: t' =>
      if N.eqb c QUOTE then
        match sep_len t' with
        | Some n => Some (j, n)
        | None => key_end t' (j + 1)
        end
      else key_end t' (j + 1)
  end.

(** [(kv_match.span(1), kv_match.span(3))] *)
Definition kv_match (line : str) : option (Span * Span) :=
  let k := indentation line in
  match lstrip line with
  | c :: t =>
      if N.eqb c QUOTE then
        match key_end t (k + 1) with
        | Some (j, n) => Some ((k, j + 1), (j + 1 + n, len line))
        | None => None
        end
      else None
  | [] => None
  end.

Definition shift_span (d : Z) (sp : Span) : Span := (fst sp + d, snd sp + d).

Definition set_json (l : Line) (a : option JsonAnnotation) : Line :=
  {| s := s l; colors := colors l; json := a; row := row l; offset := offset l |}.

Definition set_row (l : Line) (r : option Z) : Line :=
  {| s := s l; colors := colors l; json := json l; row := r; offset := offset l |}.

Definition set_colors (l : Line) (cs : list Color) : Line :=
  {| s := s l; colors := cs; json := json l; row := row l; offset := offset l |}.

Definition set_entity (a : JsonAnnotation) (e : JsonEntity) : JsonAnnotation :=
  {| type := type a; key := key a; value := value a; color := color a;
     hidden := hidden a; entity := Some e |}.

Definition set_hidden (a : JsonAnnotation) (h : Z) : JsonAnnotation :=
  {| type := type a; key := key a; value := value a; color := color a;
     hidden := h; entity := entity a |}.

(** The loop over [lines[entity_start:i]] that counts the children of an
    array: [lstripped[0]] raises on a line of white space only. *)
Fixpoint count_children (start_indentation : Z) (ls : list Line) (count : Z) : result Z :=
  match ls with
  | [] => Ok count
  | l :: ls' =>
      (c <- py_index (lstrip (s l)) 0;;
       if N.eqb c 93 || N.eqb c 125 then count_children start_indentation ls' count
       else if indentation (s l) =? start_indentation + 4
            then count_children start_indentation ls' (count + 1)
            else count_children start_indentation ls' count)%result
  end.

(** The entity of the line a stack entry names. The stack only ever holds
    rows of lines annotated through [JsonEntity], so the two failures below
    are not reached by the loop. *)
Definition entity_of (l : Line) : result (JsonAnnotation * JsonEntity) :=
  match json l with
  | Some a => match entity a with
              | Some e => Ok (a, e)
              | None => Raise AttributeError
              end
  | None => Raise AttributeError
  end.

(** What the loop of [print_json] carries: [self.content], the local
    [lines] and the local [stack] (its top is the head of the list). *)
Record pj_state := mkPj {
  pj_content : list Line;
  pj_lines : list Line;
  pj_stack : list Z
}.

(** The chain of [if value == ...] of one iteration: the annotation of the
    line, and [lines] and [stack] after it. *)
Definition classify (num_existing_lines i : Z) (lines : list Line) (stack : list Z)
    (key_span : option Span) (value_span : Span) (val : str)
  : result (JsonAnnotation * list Line * list Z) :=
  (if str_eqb val (py "[") then
     Ok (new_JsonEntity ARR_START key_span value_span None, lines, i :: stack)
   else if str_eqb val (py "{") then
     Ok (new_JsonEntity OBJ_START key_span value_span None, lines, i :: stack)
   else if str_eqb val (py "]") then
     match stack with
     | [] => Raise IndexError
     | entity_start :: stack' =>
         start_line <- py_index lines entity_start;;
         ae <- entity_of start_line;;
         let start_indentation := indentation (s start_line) in
         n <- count_children start_indentation
                (py_slice (Some entity_start) (Some i) lines) 0;;
         let e := {| pair_idx := Some (i + num_existing_lines);
                     child_count := n; collapsed := collapsed (snd ae) |} in
         let lines' :=
           match py_pos lines entity_start with
           | Some k => alter (fun l => set_json l (Some (set_entity (fst ae) e))) k lines
           | None => lines
           end in
         Ok (new_JsonEntity ARR_END key_span value_span (Some entity_start), lines', stack')
     end
   else if str_eqb val (py "}") then
     match stack with
     | [] => Raise IndexError
     | entity_start :: stack' =>
         start_line <- py_index lines entity_start;;
         ae <- entity_of start_line;;
         let e := {| pair_idx := Some (i + num_existing_lines);
                     child_count := child_count (snd ae);
                     collapsed := collapsed (snd ae) |} in
         let lines' :=
           match py_pos lines entity_start with
           | Some k => alter (fun l => set_json l (Some (set_entity (fst ae) e))) k lines
           | None => lines
           end in
         Ok (new_JsonEntity OBJ_END key_span value_span (Some entity_start), lines', stack')
     end
   else if str_eqb val (py "[]") || str_eqb val (py "{}") then
     Ok (new_JsonEntity EMPTY key_span value_span None, lines, stack)
   else if str_eqb val (py "null") then
     Ok (new_JsonAnnotation NULL key_span value_span, lines, stack)
   else if str_eqb val (py "true") || str_eqb val (py "false") then
     Ok (new_JsonAnnotation BOOL key_span value_span, lines, stack)
   else
     c0 <- py_index val 0;;
     if N.eqb c0 QUOTE then
       cl <- py_index val (-1);;
       if N.eqb cl QUOTE
       then Ok (new_JsonAnnotation STRING key_span value_span, lines, stack)
       else Ok (new_JsonAnnotation NUMBER key_span value_span, lines, stack)
     else Ok (new_JsonAnnotation NUMBER key_span value_span, lines, stack))%result.

(** The key span, the value span and the value of a line that is not
    blank: the match of the regular expression or, without one, the whole
    stripped line; then one trailing comma is taken off. [value[-1]] raises
    on an empty value. *)
Definition read_value (line_str : str) : result (option Span * Span * str) :=
  let unindented := lstrip line_str in
  let '(key_span, value_span) :=
    match kv_match line_str with
    | Some (k, v) => (Some k, v)
    | None =>
        let end_i := Z.max 0 (len (rstrip line_str)) in
        (None, (len line_str - len unindented, end_i))
    end in
  let val := py_slice (Some (fst value_span)) (Some (snd value_span)) line_str in
  (last <- py_index val (-1);;
   if N.eqb last COMMA
   then Ok (key_span, (fst value_span, snd value_span - 1), py_slice None (Some (-1)) val)
   else Ok (key_span, value_span, val))%result.

(** The line object an iteration appends. When the previous display line is
    not flushed ([merge]), its text [old_s] is put in front and the spans
    move accordingly; then the colours of the value and of the key are
    added. *)
Definition finish_line (merge : bool) (old_s line_str : str) (annotation : JsonAnnotation)
  : Line :=
  let annotation :=
    if merge then
      {| type := type annotation;
         key := option_map (shift_span (len old_s)) (key annotation);
         value := shift_span (len old_s) (value annotation);
         color := color annotation; hidden := hidden annotation;
         entity := entity annotation |}
    else annotation in
  let text := if merge then old_s ++ line_str else line_str in
  let color_key := 7 in
  let cs := add_color_span [] (color annotation) (fst (value annotation))
              (snd (value annotation) - fst (value annotation)) in
  let cs := match key annotation with
            | Some k => add_color_span cs color_key (fst k) (snd k - fst k)
            | None => cs
            end in
  {| s := text; colors := cs; json := Some annotation; row := None; offset := 0 |}.

(** One iteration of [for i, line_str in enumerate(as_str.splitlines())]. *)
Definition pj_step (num_existing_lines : Z) (flush : bool)
    (st : pj_state) (i : Z) (line_str : str) : result pj_state :=
  let unindented := lstrip line_str in
  if len unindented =? 0 then
    Ok {| pj_content := pj_content st;
          pj_lines := pj_lines st ++ [new_Line line_str];
          pj_stack := pj_stack st |}
  else
    (kv <- read_value line_str;;
     let '(key_span, value_span, val) := kv in
     r <- classify num_existing_lines i (pj_lines st) (pj_stack st)
            key_span value_span val;;
     let '(annotation, lines, stack) := r in
     (* not flushing: the previous display line is put in front *)
     let merge := (i =? 0) && negb flush && negb (len (pj_content st) =? 0) in
     old_s <- (if merge then (old_line <- py_index (pj_content st) (-1);; Ok (s old_line))
               else Ok []);;
     let content :=
       if merge then py_slice None (Some (-1)) (pj_content st) else pj_content st in
     Ok {| pj_content := content;
           pj_lines := lines ++ [finish_line merge old_s line_str annotation];
           pj_stack := stack |})%result.

(** The whole loop. An exception leaves [self.content] as the iterations
    before it left it; the locals are lost. *)
Fixpoint pj_loop (num_existing_lines : Z) (flush : bool) (st : pj_state) (i : Z)
    (ls : list str) : pj_state * option exn :=
  match ls with
  | [] => (st, None)
  | l :: ls' =>
      match pj_step num_existing_lines flush st i l with
      | Ok st' => pj_loop num_existing_lines flush st' (i + 1) ls'
      | Raise e => (st, Some e)
      end
  end.

(** ** json.dumps(obj, indent=4), the library call [print_json] starts with *)

(** The values [json.dumps] accepts. A float is given by the text
    [float.__repr__] prints (or [NaN], [Infinity], [-Infinity]); the keys of
    a dict are the strings [json.dumps] has turned them into. *)
#[local] Set Warnings "-register-all".
Inductive pyjson :=
| JNone
| JBool (b : bool)
| JInt (n : Z)
| JFloat (repr : str)
| JStr (t : str)
| JList (items : list pyjson)
| JDict (items : list (str * pyjson)).

Definition hex_digit (n : N) : char := (if n <? 10 then 48 + n else 87 + n)%N.

Definition hex4 (n : N) : str :=
  [hex_digit (n / 4096 mod 16); hex_digit (n / 256 mod 16);
   hex_digit (n / 16 mod 16); hex_digit (n mod 16)]%N.

Definition BACKSLASH : char := 92%N.

(** One character under [ESCAPE_ASCII] of [json.encoder]: the quote, the
    backslash and everything outside [' '..'~'] are escaped. *)
Definition escape_char (c : char) : str :=
  (if c =? 34 then [BACKSLASH; 34]
   else if c =? 92 then [BACKSLASH; BACKSLASH]
   else if c =? 10 then [BACKSLASH; 110]
   else if c =? 13 then [BACKSLASH; 114]
   else if c =? 9 then [BACKSLASH; 116]
   else if c =? 12 then [BACKSLASH; 102]
   else if c =? 8 then [BACKSLASH; 98]
   else if (32 <=? c) && (c <=? 126) then [c]
   else if c <? 65536 then BACKSLASH :: 117 :: hex4 c
   else
     let n := c - 65536 in
     let s1 := N.lor 55296 (N.land (N.shiftr n 10) 1023) in
     let s2 := N.lor 56320 (N.land n 1023) in
     (BACKSLASH :: 117 :: hex4 s1) ++ (BACKSLASH :: 117 :: hex4 s2))%N.

(** [py_encode_basestring_ascii] *)
Definition encode_basestring_ascii (t : str) : str :=
  QUOTE :: concat (map escape_char t) ++ [QUOTE].

(** [int.__repr__] *)
Definition int_repr (n : Z) : str := py (NilZero.string_of_int (Z.to_int n)).

Definition indent_str (level : nat) : str := repeat SPACE (4 * level).

Definition newline_indent (level : nat) : str := 10%N :: indent_str level.

Fixpoint join (sep : str) (parts : list str) : str :=
  match parts with
  | [] => []
  | [p] => p
  | p :: ps => p ++ sep ++ join sep ps
  end.

(** [_iterencode] with [indent=4] at nesting level [level]: the item
    separator is a comma, the key separator a colon and a space. *)
Fixpoint dumps_at (level : nat) (v : pyjson) : str :=
  match v with
  | JNone => py "null"
  | JBool true => py "true"
  | JBool false => py "false"
  | JInt n => int_repr n
  | JFloat r => r
  | JStr t => encode_basestring_ascii t
  | JList [] => py "[]"
  | JList items =>
      py "[" ++ newline_indent (S level)
        ++ join (COMMA :: newline_indent (S level)) (map (dumps_at (S level)) items)
        ++ newline_indent level ++ py "]"
  | JDict [] => py "{}"
  | JDict items =>
      py "{" ++ newline_indent (S level)
        ++ join (COMMA :: newline_indent (S level))
             (map (fun '(k, x) =>
                     encode_basestring_ascii k ++ py ": " ++ dumps_at (S level) x) items)
        ++ newline_indent level ++ py "}"
  end.

Definition dumps (v : pyjson) : str := dumps_at 0 v.

(** ** display.py: [Line.draw] over an object store

    Whether [draw] leaves the line alone is a question of aliasing:
    [colors = self.colors] binds the stored list itself, and the method goes
    on to extend a list in place ([colors += ...]) and to assign to its
    items ([colors[i] = ...]). So the lists, the line and its annotation
    live in a store, a name is a location, and every expression that builds
    a list allocates. Strings, tuples and numbers are immutable values. *)

Definition loc := nat.

(** A [Line] object: [colors] and [json] are references. *)
Record LineObj := mkLineObj {
  o_s : str;
  o_colors : loc;
  o_json : option loc;
  o_row : option Z;
  o_offset : Z
}.

Inductive obj :=
| OList (cs : list Color)
| OLine (l : LineObj)
| OJson (a : JsonAnnotation).

Abbreviation store := (list obj).

(** A step of a method body over the store. *)
Definition H (A : Type) := store -> store * result A.

Definition hret {A} (a : A) : H A := fun h => (h, Ok a).
Definition hraise {A} (e : exn) : H A := fun h => (h, Raise e).
Definition hbind {A B} (m : H A) (k : A -> H B) : H B :=
  fun h => match m h with
           | (h', Ok a) => k a h'
           | (h', Raise e) => (h', Raise e)
           end.

Declare Scope store_scope.
Delimit Scope store_scope with store.
Notation "x <~ c ;; k" := (hbind c (fun x => k))
  (at level 100, c at next level, right associativity) : store_scope.
Notation "c ;;; k" := (hbind c (fun _ => k))
  (at level 100, right associativity) : store_scope.

(** A list display, comprehension, [+] or [sorted]: a new object *)
Definition alloc_list (cs : list Color) : H loc :=
  fun h => (h ++ [OList cs], Ok (length h)).

Definition read_list (l : loc) : H (list Color) :=
  fun h => match h !! l with
           | Some (OList cs) => (h, Ok cs)
           | _ => (h, Raise TypeError)
           end.

(** What [+=] and [colors[i] = ...] do: the object at [l] changes. *)
Definition write_list (l : loc) (cs : list Color) : H unit :=
  fun h => match h !! l with
           | Some (OList _) => (<[l := OList cs]> h, Ok tt)
           | _ => (h, Raise TypeError)
           end.

Definition read_line (l : loc) : H LineObj :=
  fun h => match h !! l with
           | Some (OLine o) => (h, Ok o)
           | _ => (h, Raise TypeError)
           end.

Definition read_json (l : loc) : H JsonAnnotation :=
  fun h => match h !! l with
           | Some (OJson a) => (h, Ok a)
           | _ => (h, Raise TypeError)
           end.

Definition hlift {A} (r : result A) : H A := fun h => (h, r).

(** [Line.add_color_span] on references: the comprehension under [try]
    reads [colors]; [[(0, prev_color)] + colors], the second comprehension
    and [sorted] each build a list; [colors += [...]] extends in place the
    list the name is bound to at that point. *)
Definition add_color_span_ref (colors : loc) (color_i start w : Z) : H loc :=
  (cs <~ read_list colors;;
   pc <~ match last_color_upto cs (start + w) with
         | Ok p => hret (p, colors)
         | Raise IndexError =>
             colors' <~ alloc_list ((0, 1) :: cs);;
             hret (1, colors')
         | Raise e => hraise e
         end;;
   let '(prev_color, colors) := pc in
   cs <~ read_list colors;;
   colors <~ alloc_list (List.filter (fun x => negb (fst x =? start)) cs);;
   cs <~ read_list colors;;
   write_list colors (cs ++ [(start, color_i); (start + w, prev_color)]);;;
   cs <~ read_list colors;;
   alloc_list (py_sorted cs))%store.

(** The [for i, color in enumerate(colors)] loop of the elision: item [i]
    is assigned in place. [i] counts the items done. *)
Fixpoint shift_colors (colors : loc) (prefix_len off : Z) (i : nat) (todo : nat) : H unit :=
  match todo with
  | O => hret tt
  | S n =>
      (cs <~ read_list colors;;
       match cs !! i with
       | Some c =>
           (if prefix_len <? fst c
            then write_list colors
                   (<[i := (Z.max prefix_len (fst c - off) + 3, snd c)]> cs)
            else hret tt);;;
           shift_colors colors prefix_len off (S i) n
       | None => hret tt
       end)%store
  end.

(** One call [scr.addstr(row, col, text, curses.color_pair(color_i))] *)
Definition addstr := (Z * Z * str * Z)%type.

(** The painting loop at the end of [draw]. *)
Fixpoint paint (row w : Z) (text : str) (col color_i : Z) (rest : list Color)
  : list addstr :=
  match rest with
  | [] =>
      if col <? w then [(row, col, py_slice (Some col) None text, color_i)] else []
  | (next_col, next_color_i) :: rest' =>
      let next_col := Z.min next_col w in
      (if col <? next_col
       then [(row, col, py_slice (Some col) (Some next_col) text, color_i)]
       else [])
      ++ paint row w text next_col next_color_i rest'
  end.

Definition MARK : str := py "[" ++ [ELLIPSIS] ++ py "]".

(** [Line.draw(scr, row, w, cursor_span)] on the line object at [self];
    the result is what is written to the screen. *)
Definition draw_line (self : loc) (row w : Z) (cursor_span : option Span)
  : H (list addstr) :=
  (me <~ read_line self;;
   let colors := o_colors me in
   cs <~ read_list colors;;
   colors <~ (if len cs =? 0 then alloc_list [(0, 1)] else hret colors);;
   let text := o_s me in
   ann <~ match o_json me with
          | Some j => a <~ read_json j;; hret (Some a)
          | None => hret None
          end;;
   (* the formatting of a container start *)
   tc <~ match ann with
         | Some a =>
             match type a with
             | ARR_START | OBJ_START =>
                 let prefix := py_slice None (Some (fst (value a))) text in
                 match entity a with
                 | None => hraise AttributeError
                 | Some e =>
                     if collapsed e then
                       let suffix :=
                         match type a with
                         | ARR_START =>
                             py "[ " ++ [ELLIPSIS] ++ py " count: "
                               ++ int_repr (child_count e) ++ py " ]"
                         | _ => py "{ " ++ [ELLIPSIS] ++ py " }"
                         end in
                       colors <~ add_color_span_ref colors 9 (len prefix + 2) (len suffix - 4);;
                       colors <~ add_color_span_ref colors (color a)
                                   (len prefix + len suffix - 1) 1;;
                       hret (prefix ++ suffix, colors)
                     else
                       match type a with
                       | ARR_START =>
                           let suffix := py "[ count: " ++ int_repr (child_count e) in
                           colors <~ add_color_span_ref colors 9 (len prefix + 1)
                                       (len suffix - 1);;
                           hret (prefix ++ suffix, colors)
                       | _ => hret (text, colors)
                       end
                 end
             | _ => hret (text, colors)
             end
         | None => hret (text, colors)
         end;;
   let '(text, colors) := tc in
   (* a string line with an offset *)
   tc <~ match ann with
         | Some a =>
             match type a with
             | STRING =>
                 if negb (o_offset me =? 0) then
                   let prefix := py_slice None (Some (fst (value a) + 1)) text in
                   let text := prefix ++ MARK
                                 ++ py_slice (Some (fst (value a) + 1 + o_offset me)) None text in
                   colors <~ add_color_span_ref colors 5 (len prefix) 3;;
                   cs <~ read_list colors;;
                   shift_colors colors (len prefix) (o_offset me) 0 (length cs);;;
                   hret (text, colors)
                 else hret (text, colors)
             | _ => hret (text, colors)
             end
         | None => hret (text, colors)
         end;;
   let '(text, colors) := tc in
   (* lines that are too long *)
   tc <~ (if w <? len text then
            let text := py_slice None (Some (w - 3)) text ++ MARK in
            colors <~ add_color_span_ref colors 5 (len text - 3) 3;;
            hret (text, colors)
          else hret (text, colors));;
   let '(text, colors) := tc in
   let text := text ++ repeat SPACE (Z.to_nat (w - len text)) in
   colors <~ match cursor_span with
             | Some sp => add_color_span_ref colors 2 (fst sp) (snd sp - fst sp)
             | None => hret colors
             end;;
   cs <~ read_list colors;;
   first <~ hlift (py_index cs 0);;
   hret (paint row w text (fst first) (snd first) (py_slice (Some 1) None cs)))%store.

(** ** lines_display.py: the viewport controller *)

Inductive Mode := SCROLL | JSON.

(** [LinesDisplay]. [scr_height] and [scr_width] are what
    [self.scr.getmaxyx()] answers; [scr_addstr] is what [self.scr.addstr]
    does with a call: [None] where it writes, the exception where it raises
    ([ValueError] for a text that holds a null character, [_curses.error],
    here [CursesError], for what the window refuses). [header] and [footer]
    are kept as lines. *)
Record LinesDisplay := mkDisplay {
  started : bool;
  mode : Mode;
  top_row : Z;
  bottom_row : Z;
  content : list Line;
  header : Line;
  cursor_row : option Z;
  footer : Line;
  scr_height : Z;
  scr_width : Z;
  scr_addstr : addstr -> option exn
}.

(** [LinesDisplay()] on a terminal of the given size whose window answers
    [scr.addstr] as [scr] tells *)
Definition new_LinesDisplay_on (h w : Z) (scr : addstr -> option exn) : LinesDisplay :=
  {| started := false; mode := SCROLL; top_row := 0; bottom_row := 0; content := [];
     header := new_Line []; cursor_row := None; footer := new_Line [];
     scr_height := h; scr_width := w; scr_addstr := scr |}.

(** [LinesDisplay()] on a terminal of the given size that takes every write *)
Definition new_LinesDisplay (h w : Z) : LinesDisplay :=
  new_LinesDisplay_on h w (fun _ => None).

(** A method of [LinesDisplay]: it reads and writes [self], and returns or
    raises. The state after a raise is the one reached before it. *)
Definition M (A : Type) := LinesDisplay -> LinesDisplay * result A.

Definition ret {A} (a : A) : M A := fun d => (d, Ok a).
Definition raise {A} (e : exn) : M A := fun d => (d, Raise e).
Definition bind {A B} (m : M A) (k : A -> M B) : M B :=
  fun d => match m d with
           | (d', Ok a) => k a d'
           | (d', Raise e) => (d', Raise e)
           end.
Definition get : M LinesDisplay := fun d => (d, Ok d).
Definition put (d : LinesDisplay) : M unit := fun _ => (d, Ok tt).
Definition lift {A} (r : result A) : M A := fun d => (d, r).

Declare Scope method_scope.
Delimit Scope method_scope with method.
Notation "x <~ c ;; k" := (bind c (fun x => k))
  (at level 100, c at next level, right associativity) : method_scope.
Notation "c ;;; k" := (bind c (fun _ => k))
  (at level 100, right associativity) : method_scope.

Definition set_content (c : list Line) : M unit :=
  fun d => ({| started := started d; mode := mode d; top_row := top_row d;
               bottom_row := bottom_row d; content := c; header := header d;
               cursor_row := cursor_row d; footer := footer d;
               scr_height := scr_height d; scr_width := scr_width d;
               scr_addstr := scr_addstr d |}, Ok tt).

Definition set_top_row (t : Z) : M unit :=
  fun d => ({| started := started d; mode := mode d; top_row := t;
               bottom_row := bottom_row d; content := content d; header := header d;
               cursor_row := cursor_row d; footer := footer d;
               scr_height := scr_height d; scr_width := scr_width d;
               scr_addstr := scr_addstr d |}, Ok tt).

Definition set_bottom_row (b : Z) : M unit :=
  fun d => ({| started := started d; mode := mode d; top_row := top_row d;
               bottom_row := b; content := content d; header := header d;
               cursor_row := cursor_row d; footer := footer d;
               scr_height := scr_height d; scr_width := scr_width d;
               scr_addstr := scr_addstr d |}, Ok tt).

Definition set_cursor_row (c : option Z) : M unit :=
  fun d => ({| started := started d; mode := mode d; top_row := top_row d;
               bottom_row := bottom_row d; content := content d; header := header d;
               cursor_row := c; footer := footer d;
               scr_height := scr_height d; scr_width := scr_width d;
               scr_addstr := scr_addstr d |}, Ok tt).

Definition set_mode (m : Mode) : M unit :=
  fun d => ({| started := started d; mode := m; top_row := top_row d;
               bottom_row := bottom_row d; content := content d; header := header d;
               cursor_row := cursor_row d; footer := footer d;
               scr_height := scr_height d; scr_width := scr_width d;
               scr_addstr := scr_addstr d |}, Ok tt).

Definition put_footer (f : Line) : M unit :=
  fun d => ({| started := started d; mode := mode d; top_row := top_row d;
               bottom_row := bottom_row d; content := content d; header := header d;
               cursor_row := cursor_row d; footer := f;
               scr_height := scr_height d; scr_width := scr_width d;
               scr_addstr := scr_addstr d |}, Ok tt).

(** [LinesDisplay.start]: the curses set-up of [Display.start], then the
    buffer is emptied. *)
Definition start : M unit :=
  fun d => ({| started := true; mode := mode d; top_row := 0;
               bottom_row := 0; content := []; header := header d;
               cursor_row := cursor_row d; footer := footer d;
               scr_height := scr_height d; scr_width := scr_width d;
               scr_addstr := scr_addstr d |}, Ok tt).

Definition ensure_started : M unit :=
  (d <~ get;; if started d then ret tt else start)%method.

(** [Display.stop]: the buffer stays as it is. *)
Definition stop : M unit :=
  fun d => ({| started := false; mode := mode d; top_row := top_row d;
               bottom_row := bottom_row d; content := content d; header := header d;
               cursor_row := cursor_row d; footer := footer d;
               scr_height := scr_height d; scr_width := scr_width d;
               scr_addstr := scr_addstr d |}, Ok tt).

(** [range(a, b)] and [range(a, -1, -1)] *)
Definition py_range (a b : Z) : list Z :=
  map (fun k => a + Z.of_nat k) (seq 0 (Z.to_nat (b - a))).

Definition py_range_down (a : Z) : list Z :=
  map (fun k => a - Z.of_nat k) (seq 0 (Z.to_nat (a + 1))).

(** [next((i for i in xs if p(i)), None)] where evaluating [p] may raise *)
Fixpoint py_next (p : Z -> result bool) (xs : list Z) : result (option Z) :=
  match xs with
  | [] => Ok None
  | x :: xs' =>
      (b <- p x;; if b then Ok (Some x) else py_next p xs')%result
  end.

(** The jump of [idx] over a collapsed entity in the loop of [draw]. *)
Definition draw_skip (line : Line) (idx : Z) : result Z :=
  match json line with
  | Some a =>
      if collapsible a then
        match entity a with
        | Some e =>
            if collapsed e then
              match pair_idx e, row line with
              | Some p, Some r => Ok (idx + (p - r))
              | _, _ => Raise TypeError
              end
            else Ok idx
        | None => Raise AttributeError
        end
      else Ok idx
  | None => Ok idx
  end.

(** The [while idx < len(self.content) and content_space > 0] loop of
    [draw]; [content_space] goes down by one at each turn, so it is the
    fuel. [cursor] is [self.cursor_row]; [lines] and [cursor_row] are the
    locals of these names. The result is the final [idx], [lines],
    [cursor_row] and [content_space]. *)
Fixpoint draw_scan (content_space : nat) (cursor : option Z) (c : list Line) (idx : Z)
    (lines : list Line) (cursor_row : option Z)
  : result (Z * list Line * option Z * nat) :=
  match content_space with
  | O => Ok (idx, lines, cursor_row, O)
  | S n =>
      if idx <? len c then
        (line <- py_index c idx;;
         let lines := lines ++ [line] in
         let at_cursor :=
           match cursor with Some r => r =? idx | None => false end in
         let marked :=
           match json line with
           | Some a => match key a with Some _ => true | None => collapsible a end
           | None => false
           end in
         let cursor_row := if at_cursor && marked then Some (len lines - 1) else cursor_row in
         idx' <- draw_skip line idx;;
         draw_scan n cursor c (idx' + 1) lines cursor_row)%result
      else Ok (idx, lines, cursor_row, S n)
  end.

(** The objects of one line of the buffer, for [Line.draw]: the list of its
    colours at 0, then its annotation, where it has one, then the line. *)
Definition line_store (l : Line) : store * loc :=
  match json l with
  | Some a =>
      ([OList (colors l); OJson a;
        OLine {| o_s := s l; o_colors := 0%nat; o_json := Some 1%nat;
                 o_row := row l; o_offset := offset l |}], 2%nat)
  | None =>
      ([OList (colors l);
        OLine {| o_s := s l; o_colors := 0%nat; o_json := None;
                 o_row := row l; o_offset := offset l |}], 1%nat)
  end.

(** [line.draw(scr, row, w, cursor_span)] up to the calls of [scr.addstr]
    it comes to, in order *)
Definition line_draw (l : Line) (row w : Z) (cursor_span : option Span)
  : result (list addstr) :=
  let '(h, self) := line_store l in snd (draw_line self row w cursor_span h).

(** The calls of [scr.addstr], one after the other: the first that raises
    ends the painting. *)
Fixpoint screen_write (scr : addstr -> option exn) (calls : list addstr) : result unit :=
  match calls with
  | [] => Ok tt
  | call :: calls' =>
      match scr call with
      | Some e => Raise e
      | None => screen_write scr calls'
      end
  end.

(** The cursor span [draw_lines] picks for the line under the cursor:
    [line.json.key], else [line.json.value] on a container start;
    [line.json] is read whatever it is. *)
Definition cursor_span_of (line : Line) : result (option Span) :=
  match json line with
  | None => Raise AttributeError
  | Some a =>
      match key a with
      | Some k => Ok (Some k)
      | None => if collapsible a then Ok (Some (value a)) else Ok None
      end
  end.

(** The [for idx, line in enumerate(lines)] loop of [Display.draw_lines];
    [width] stays one less once the last row of the window is reached. *)
Fixpoint draw_lines_from (scr : addstr -> option exn) (height : Z) (lines : list Line)
    (idx row width : Z) (cursor_row : option Z) : result unit :=
  match lines with
  | [] => Ok tt
  | line :: lines' =>
      if row <? height then
        let width := if row =? height - 1 then width - 1 else width in
        (cursor_span <- (match cursor_row with
                         | Some r => if idx =? r then cursor_span_of line else Ok None
                         | None => Ok None
                         end);;
         calls <- line_draw line row width cursor_span;;
         _ <- screen_write scr calls;;
         draw_lines_from scr height lines' (idx + 1) (row + 1) width cursor_row)%result
      else draw_lines_from scr height lines' (idx + 1) (row + 1) width cursor_row
  end.

(** [Display.draw_lines] *)
Definition draw_lines (lines : list Line) (starting_row : Z) (cursor_row : option Z)
  : M unit :=
  (ensure_started;;;
   d <~ get;;
   lift (draw_lines_from (scr_addstr d) (scr_height d) lines 0 starting_row
           (scr_width d) cursor_row))%method.

(** [LinesDisplay.draw]: the lines to show are chosen, [bottom_row] is set,
    and the lines are painted; what painting raises ends the method.
    [erase], [getmaxyx] and [refresh] are taken to return, and
    [if self.footer] holds of every [Line]. *)
Definition draw : M unit :=
  (ensure_started;;;
   d <~ get;;
   let lines := [header d] in
   let content_space := scr_height d - len lines - 1 in
   r <~ lift (draw_scan (Z.to_nat content_space) (cursor_row d) (content d) (top_row d)
                lines None);;
   let '(idx, lines, cursor_row, content_space) := r in
   let lines := lines ++ repeat (new_Line (py "~")) content_space in
   let lines := lines ++ [footer d] in
   set_bottom_row (Z.max 0 (idx - 1));;;
   draw_lines lines 0 (match mode d with JSON => cursor_row | SCROLL => None end))%method.

(** [LinesDisplay.print] *)
Definition print (text : str) (flush : bool) : M unit :=
  (ensure_started;;;
   d <~ get;;
   let new_lines := map new_Line (splitlines text) in
   match new_lines with
   | first_new_line :: rest =>
       if negb (len (content d) =? 0) && negb flush then
         prev_line <~ lift (py_index (content d) (-1));;
         set_content (py_slice None (Some (-1)) (content d)
                        ++ [new_Line (s prev_line ++ s first_new_line)]);;;
         d <~ get;;
         set_content (content d ++ rest);;;
         draw
       else
         set_content (content d ++ new_lines);;;
         draw
   | [] =>
       set_content (content d ++ new_lines);;;
       draw
   end)%method.

(** [LinesDisplay.print_json] from the lines of
    [json.dumps(obj, indent=4).splitlines()] on. *)
Definition print_json_lines (ls : list str) (flush : bool) : M unit :=
  (d <~ get;;
   let num_existing_lines := len (content d) in
   let '(st, e) := pj_loop num_existing_lines flush
                     {| pj_content := content d; pj_lines := []; pj_stack := [] |} 0 ls in
   set_content (pj_content st);;;
   match e with
   | Some e => raise e
   | None =>
       set_content (imap (fun idx line => set_row line (Some (Z.of_nat idx)))
                      (pj_content st ++ pj_lines st));;;
       draw
   end)%method.

(** [LinesDisplay.set_footer(s)] with [flush=True] *)
Definition set_footer (text : str) : M unit :=
  put_footer (new_Line_colors text (match text with [] => [] | _ => [(0, 4)] end)).

Definition mode_name (m : Mode) : str :=
  match m with SCROLL => py "SCROLL" | JSON => py "JSON" end.

(** [LinesDisplay.set_footer_for_mode] *)
Definition set_footer_for_mode : M unit :=
  (d <~ get;;
   let footer_str := py "Navigation mode: " ++ mode_name (mode d) in
   let footer_str :=
     match mode d with
     | JSON => footer_str ++ py ", use left/right arrows to collapse/expand elements"
     | SCROLL => footer_str ++ py ", use left/right arrows to page up and down"
     end in
   set_footer footer_str)%method.

(** [self.content[i].json is None or not self.content[i].json.hidden] *)
Definition shown (c : list Line) (i : Z) : result bool :=
  (line <- py_index c i;;
   match json line with
   | None => Ok true
   | Some a => Ok (hidden a =? 0)
   end)%result.

(** [self.content[i].json and (self.content[i].json.key or
    self.content[i].json.collapsible())] *)
Definition eligible (c : list Line) (i : Z) : result bool :=
  (line <- py_index c i;;
   match json line with
   | None => Ok false
   | Some a => Ok (match key a with Some _ => true | None => collapsible a end)
   end)%result.

(** the same, [and not self.content[i].json.hidden] *)
Definition eligible_shown (c : list Line) (i : Z) : result bool :=
  (line <- py_index c i;;
   match json line with
   | None => Ok false
   | Some a => Ok ((match key a with Some _ => true | None => collapsible a end)
                   && (hidden a =? 0))
   end)%result.

Fixpoint repeatM (n : nat) (m : M unit) : M unit :=
  match n with
  | O => ret tt
  | S n' => (m;;; repeatM n' m)%method
  end.

(** [LinesDisplay.scroll_screen_up] and [scroll_screen_down] *)
Definition scroll_screen_up (n : nat) : M unit :=
  repeatM n
    (d <~ get;;
     r <~ lift (py_next (shown (content d)) (py_range_down (top_row d - 1)));;
     set_top_row (match r with Some i => i | None => top_row d end))%method.

Definition scroll_screen_down (n : nat) : M unit :=
  repeatM n
    (d <~ get;;
     r <~ lift (py_next (shown (content d)) (py_range (top_row d + 1) (len (content d))));;
     set_top_row (match r with Some i => i | None => top_row d end))%method.

(** [self.cursor_row] where an [int] is needed *)
Definition cursor_int : M Z :=
  (d <~ get;;
   match cursor_row d with
   | Some c => ret c
   | None => raise TypeError
   end)%method.

(** [LinesDisplay.scroll_json_up] *)
Definition scroll_json_up : M unit :=
  (d <~ get;;
   c <~ cursor_int;;
   prev_row <~ lift (py_next (eligible_shown (content d)) (py_range_down (c - 1)));;
   match prev_row with
   | Some r => set_cursor_row (Some r)
   | None => scroll_screen_up 1
   end;;;
   d <~ get;;
   c <~ cursor_int;;
   if c <? top_row d then set_top_row c else ret tt)%method.

(** The [while self.cursor_row > self.bottom_row] loop of
    [scroll_json_down]. Nothing bounds it in the source; [fuel] bounds the
    model, and running out of it is reported as [None]. *)
Fixpoint catch_up (fuel : nat) : M (option unit) :=
  match fuel with
  | O => ret None
  | S n =>
      (d <~ get;;
       c <~ cursor_int;;
       if bottom_row d <? c then
         scroll_screen_down 1;;; draw;;; catch_up n
       else ret (Some tt))%method
  end.

(** [LinesDisplay.scroll_json_down] *)
Definition scroll_json_down (fuel : nat) : M (option unit) :=
  (d <~ get;;
   c <~ cursor_int;;
   next_row <~ lift (py_next (eligible_shown (content d))
                       (py_range (c + 1) (len (content d))));;
   match next_row with
   | Some r => set_cursor_row (Some r)
   | None => scroll_screen_down 1
   end;;;
   catch_up fuel)%method.

(** [LinesDisplay.cycle_mode] *)
Definition cycle_mode : M unit :=
  (d <~ get;;
   match mode d with
   | SCROLL =>
       let reanchor :=
         match cursor_row d with
         | None => true
         | Some c => (c <? top_row d) || (bottom_row d <? c)
         end in
       if reanchor then
         r <~ lift (py_next (eligible (content d))
                      (py_range (top_row d) (len (content d))));;
         set_cursor_row r;;;
         match r with
         | None => ret tt
         | Some _ => set_mode JSON;;; set_footer_for_mode;;; draw
         end
       else set_mode JSON;;; set_footer_for_mode;;; draw
   | JSON => set_mode SCROLL;;; set_footer_for_mode;;; draw
   end)%method.

(** [self.content[x].json.hidden += delta] when the line has an annotation *)
Definition bump_hidden (delta : Z) (l : Line) : Line :=
  match json l with
  | Some a => set_json l (Some (set_hidden a (hidden a + delta)))
  | None => l
  end.

(** The [for x in range(...)] loop of [set_collapsed] *)
Fixpoint bump_range (delta : Z) (xs : list Z) : M unit :=
  match xs with
  | [] => ret tt
  | x :: xs' =>
      (d <~ get;;
       match py_pos (content d) x with
       | Some k => set_content (alter (bump_hidden delta) k (content d));;;
                   bump_range delta xs'
       | None => raise IndexError
       end)%method
  end.

Definition set_line_collapsed (b : bool) (l : Line) : Line :=
  match json l with
  | Some a =>
      match entity a with
      | Some e => set_json l (Some (set_entity a
                    {| pair_idx := pair_idx e; child_count := child_count e;
                       collapsed := b |}))
      | None => l
      end
  | None => l
  end.

(** [LinesDisplay.set_collapsed] *)
Definition set_collapsed (line_num : Z) (b : bool) : M unit :=
  (d <~ get;;
   line <~ lift (py_index (content d) line_num);;
   match json line with
   | None => ret tt
   | Some a =>
       if negb (collapsible a) then ret tt
       else
         match entity a with
         | None => raise AttributeError
         | Some e =>
             if Bool.eqb (collapsed e) b then ret tt
             else
               match py_pos (content d) line_num with
               | Some k => set_content (alter (set_line_collapsed b) k (content d))
               | None => ret tt
               end;;;
               match row line, pair_idx e with
               | Some r, Some p =>
                   bump_range (if b then -1 else 1) (py_range (r + 1) (p + 1));;;
                   draw
               | _, _ => raise TypeError
               end
         end
   end)%method.

(** The state a method leaves, and how it ended. *)
Definition exec {A} (m : M A) (d : LinesDisplay) : LinesDisplay := fst (m d).
Definition outcome {A} (m : M A) (d : LinesDisplay) : result A := snd (m d).

(** [LinesDisplay.print_json] *)
Definition print_json (obj : pyjson) (flush : bool) : M unit :=
  print_json_lines (splitlines (dumps obj)) flush.

(** ** Definitions used to state the properties *)

(** The scenario of the specification: [{"a": 1, "b": [1, 2, 3]}]. *)
Definition scenario_obj : pyjson :=
  JDict [(py "a", JInt 1); (py "b", JList [JInt 1; JInt 2; JInt 3])].

Definition line_type (d : LinesDisplay) (n : nat) : option JsonType :=
  l ← content d !! n; a ← json l; Some (type a).

Definition line_entity (d : LinesDisplay) (n : nat) : option JsonEntity :=
  l ← content d !! n; a ← json l; entity a.

Definition line_hidden (d : LinesDisplay) (n : nat) : option Z :=
  l ← content d !! n; a ← json l; Some (hidden a).

Definition line_row (d : LinesDisplay) (n : nat) : option Z :=
  l ← content d !! n; row l.

Definition started_display : LinesDisplay := exec start (new_LinesDisplay 24 80).

(** The buffer of the first failing run of [print_json]: one plain line,
    then the array [[1]] appended with [flush=True]. *)
Definition after_plain_then_array : LinesDisplay :=
  exec (print_json (JList [JInt 1]) true) (exec (print (py "x") true) started_display).

(** The same with [flush=False], as [ApiRequest.fire] prints headers. *)
Definition after_plain_then_array_noflush : LinesDisplay :=
  exec (print_json (JList [JInt 1]) false) (exec (print (py "x") true) started_display).

(** [[1]] alone in the buffer, and the start of the array collapsed. *)
Definition array_alone : LinesDisplay :=
  exec (print_json (JList [JInt 1]) true) started_display.

Definition array_collapsed : LinesDisplay := exec (set_collapsed 0 true) array_alone.

(** [{"a": {"b": 1}}] printed, the view scrolled down by two rows, the inner
    object collapsed, and the mode toggled. *)
Definition nested_obj : pyjson := JDict [(py "a", JDict [(py "b", JInt 1)])].

Definition before_toggle : LinesDisplay :=
  exec (set_collapsed 1 true)
    (exec (scroll_screen_down 2) (exec (print_json nested_obj true) started_display)).

Definition after_toggle : LinesDisplay := exec cycle_mode before_toggle.

(** The positions the loop of [set_collapsed] reaches before an index falls
    outside the buffer, and the buffer after [bump_hidden] at each. *)
Fixpoint bump_positions (c : list Line) (xs : list Z) : list nat :=
  match xs with
  | [] => []
  | x :: xs' =>
      match py_pos c x with
      | Some k => k :: bump_positions c xs'
      | None => []
      end
  end.

Definition bump_at (delta : Z) (ks : list nat) (c : list Line) : list Line :=
  foldl (fun c k => alter (bump_hidden delta) k c) c ks.

(** The object [{"text": "aa...a"}] with a string of 200 characters, and
    the line of that string after [print_json] on a started viewer. *)
Definition long_string_obj : pyjson := JDict [(py "text", JStr (repeat 97%N 200))].

Definition long_string_line : Line :=
  default (new_Line [])
    (content (exec (print_json long_string_obj true) started_display) !! 1%nat).

Definition long_string_ann : JsonAnnotation :=
  default (new_JsonAnnotation STRING None (0, 0)) (json long_string_line).

(** The length of the string a line is annotated with: the width of its
    value span without the two quotes. *)
Definition string_length (l : Line) : option Z :=
  match json l with
  | Some a =>
      match type a with
      | STRING => Some (snd (value a) - fst (value a) - 2)
      | _ => None
      end
  | None => None
  end.

(** The cap of the offset as the specification has it, [S] being the
    length of the string: however often [increase_offset] is applied at
    width [W], the offset stays at or under [S - W + 3]. *)
Definition capped_by_string_length (l : Line) (W : Z) : Prop :=
  forall S n, string_length l = Some S ->
    offset (Nat.iter n (fun x => increase_offset x W) l) <= Z.max 0 (S - W + 3).

(** A viewer that was stopped with a line in its buffer, as
    [display_and_browse] leaves it. *)
Definition stopped_viewer : LinesDisplay :=
  exec (print (py "old") true;;; stop)%method (new_LinesDisplay 24 80).

(** What is said of [print(s, flush=False)] on a buffer that is not empty:
    the last line gives way to a new line with its text and the first line
    of [s], without colours or annotation. *)
Definition print_merges_tail (d : LinesDisplay) (text : str) : Prop :=
  forall before prev first rest,
    content d = before ++ [prev] ->
    splitlines text = first :: rest ->
    exists merged,
      content (exec (print text false) d) = before ++ merged :: map new_Line rest
      /\ s merged = s prev ++ first
      /\ colors merged = []
      /\ json merged = None.


(** "A no-op or a silent clamp": the result is the list given, or holds the
    same breakpoints, or is what the insertion of some span of length zero
    or more gives. *)
Definition noop_or_clamp (cs : list Color) (color_i start w : Z) : Prop :=
  let r := add_color_span cs color_i start w in
  r = cs
  \/ (forall p, In p r <-> In p cs)
  \/ exists start' w', 0 <= w' /\ r = add_color_span cs color_i start' w'.

(** A step over the store is [safe] above [n0] when, run on a store with at
    least [n0] objects, it leaves the first [n0] objects as they are and
    takes none away, and any value it returns satisfies [Q]. *)
Definition safe {A} (n0 : nat) (m : H A) (Q : A -> Prop) : Prop :=
  forall h, (n0 <= length h)%nat ->
    ((n0 <= length (m h).1)%nat /\ (forall l, (l < n0)%nat -> (m h).1 !! l = h !! l))
    /\ (forall a, (m h).2 = Ok a -> Q a).

Definition fresh (n0 : nat) (l : loc) : Prop := (n0 <= l)%nat.
Definition any {A} (_ : A) : Prop := True.

(** ** The lines of [json.dumps(obj, indent=4)]

    What [dumps] prints, line by line: a scalar or an empty container is
    one line; a container with items is the line of its opening bracket,
    the lines of its items one level deeper, each but the last followed by
    a comma, and the line of its closing bracket. [pre] is what the first
    line starts with (the indentation, and the key inside a dict),
    [suf] what the last line ends with (a comma or nothing). *)
Definition comma_after {A} (rest : list A) : str :=
  match rest with [] => [] | _ => [COMMA] end.

Fixpoint vlines (level : nat) (pre : str) (v : pyjson) (suf : str) : list str :=
  match v with
  | JList ((_ :: _) as items) =>
      (pre ++ py "[")
        :: (fix go (l : list pyjson) : list str :=
              match l with
              | [] => []
              | x :: l' =>
                  vlines (S level) (indent_str (S level)) x (comma_after l') ++ go l'
              end) items
        ++ [indent_str level ++ py "]" ++ suf]
  | JDict ((_ :: _) as items) =>
      (pre ++ py "{")
        :: (fix go (l : list (str * pyjson)) : list str :=
              match l with
              | [] => []
              | (k, x) :: l' =>
                  vlines (S level)
                    (indent_str (S level) ++ encode_basestring_ascii k ++ py ": ")
                    x (comma_after l') ++ go l'
              end) items
        ++ [indent_str level ++ py "}" ++ suf]
  | _ => [pre ++ dumps_at level v ++ suf]
  end.

(** The lines of the items of a list and of a dict, as in [vlines]. *)
Definition list_lines (level : nat) : list pyjson -> list str :=
  fix go (l : list pyjson) : list str :=
    match l with
    | [] => []
    | x :: l' => vlines level (indent_str level) x (comma_after l') ++ go l'
    end.

Definition dict_lines (level : nat) : list (str * pyjson) -> list str :=
  fix go (l : list (str * pyjson)) : list str :=
    match l with
    | [] => []
    | (k, x) :: l' =>
        vlines level (indent_str level ++ encode_basestring_ascii k ++ py ": ") x
          (comma_after l') ++ go l'
    end.

(** Where the arrays of a value start, as line numbers counted from the
    first line of the value, each with the length of the source list. *)
Definition shift_lines (n : nat) (l : list (nat * Z)) : list (nat * Z) :=
  map (fun p => ((n + fst p)%nat, snd p)) l.

Fixpoint arrays_of (v : pyjson) : list (nat * Z) :=
  match v with
  | JList items =>
      (0%nat, len items)
        :: (fix go (off : nat) (l : list pyjson) : list (nat * Z) :=
              match l with
              | [] => []
              | x :: l' =>
                  shift_lines off (arrays_of x)
                    ++ go (off + length (vlines 0 [] x []))%nat l'
              end) 1%nat items
  | JDict items =>
      (fix go (off : nat) (l : list (str * pyjson)) : list (nat * Z) :=
         match l with
         | [] => []
         | (_, x) :: l' =>
             shift_lines off (arrays_of x)
               ++ go (off + length (vlines 0 [] x []))%nat l'
         end) 1%nat items
  | _ => []
  end.

(** The arrays inside the items of a list and of a dict, as in
    [arrays_of]; [off] is the line number of the first item. *)
Fixpoint list_arrays (off : nat) (l : list pyjson) : list (nat * Z) :=
  match l with
  | [] => []
  | x :: l' =>
      shift_lines off (arrays_of x)
        ++ list_arrays (off + length (vlines 0 [] x []))%nat l'
  end.

Fixpoint dict_arrays (off : nat) (l : list (str * pyjson)) : list (nat * Z) :=
  match l with
  | [] => []
  | (_, x) :: l' =>
      shift_lines off (arrays_of x)
        ++ dict_arrays (off + length (vlines 0 [] x []))%nat l'
  end.

(** A key the regular expression reads to its end: no quote in it is
    followed by a colon, or by a space and a colon. *)
Fixpoint key_ok (k : str) : bool :=
  match k with
  | [] => true
  | c :: k' =>
      (if N.eqb c QUOTE then
         match k' with
         | c1 :: k'' =>
             negb (N.eqb c1 COLON)
             && negb (N.eqb c1 SPACE && match k'' with c2 :: _ => N.eqb c2 COLON | [] => false end)
         | [] => true
         end
       else true) && key_ok k'
  end.

(** The characters in the text of a float: digits, sign, point, exponent
    and the letters of [NaN] and [Infinity]. *)
Definition float_char (c : char) : bool :=
  existsb (N.eqb c) (py "0123456789+-.eNaInfity").

Definition float_ok (r : str) : bool :=
  match r with [] => false | _ => forallb float_char r end.

(** The values the properties are stated for. *)
Fixpoint wf_json (v : pyjson) : bool :=
  match v with
  | JFloat r => float_ok r
  | JList items => forallb wf_json items
  | JDict items => forallb (fun '(k, x) => key_ok k && wf_json x) items
  | _ => true
  end.

(** The first line of the output does not get a new indentation from the
    display line it is put behind: the buffer is flushed or empty, or its
    last line does not begin with white space. *)
Definition merge_ok (d : LinesDisplay) (flush : bool) : Prop :=
  flush = true \/ forall tail, last (content d) = Some tail -> indentation (s tail) = 0.



(** ** Definitions used in the proof about the annotator *)

Definition is_closer (c : char) : bool := N.eqb c 93 || N.eqb c 125.

(** The characters of the scalars that are not strings. *)
Definition atom_char (c : char) : bool :=
  existsb (N.eqb c) (py "0123456789+-.eNaInfitylsru").

(** [count_children] on the texts of the lines. *)
Fixpoint count_texts (start_indentation : Z) (ts : list str) (count : Z) : result Z :=
  match ts with
  | [] => Ok count
  | t :: ts' =>
      (c <- py_index (lstrip t) 0;;
       if is_closer c then count_texts start_indentation ts' count
       else if indentation t =? start_indentation + 4
            then count_texts start_indentation ts' (count + 1)
            else count_texts start_indentation ts' count)%result
  end.

(** A line that is not the first line of an item at level [level]: it
    begins with a closing bracket or lies deeper. *)
Definition inner_ok (level : nat) (t : str) : Prop :=
  exists c rest, lstrip t = c :: rest
                 /\ (is_closer c = true \/ 4 * Z.of_nat level < indentation t).

(** What the first line of a value starts with: the indentation, and inside
    a dict a key that the regular expression reads to its end. *)
Inductive prefix_ok (level : nat) : str -> Prop :=
| prefix_bare : prefix_ok level (indent_str level)
| prefix_key (k : str) :
    key_ok k = true ->
    prefix_ok level (indent_str level ++ encode_basestring_ascii k ++ py ": ").

Definition suffix_ok (suf : str) : Prop := suf = [] \/ suf = [COMMA].

Definition line_child_count (ln : Line) : option Z :=
  a ← json ln; e ← entity a; Some (child_count e).

(** The lines [new] annotate the texts [texts], and the arrays listed have
    their count. *)
Definition ann_ok (texts : list str) (arrs : list (nat * Z)) (new : list Line) : Prop :=
  map s new = texts
  /\ forall j K, In (j, K) arrs ->
       exists ln, new !! j = Some ln /\ line_child_count ln = Some K.

(** The loop of [print_json] over the lines of one value, from row [i] on,
    not the first row: the lines are appended and annotated, the stack and
    the buffer come out as they went in. *)
Definition annotates (num : Z) (flush : bool) (v : pyjson) : Prop :=
  forall level pre suf st i,
    prefix_ok level pre -> suffix_ok suf ->
    1 <= i -> i = len (pj_lines st) ->
    exists new,
      pj_loop num flush st i (vlines level pre v suf)
        = ({| pj_content := pj_content st; pj_lines := pj_lines st ++ new;
              pj_stack := pj_stack st |}, None)
      /\ ann_ok (vlines level pre v suf) (arrays_of v) new.


(** A token ends with a character that is neither a comma nor white space. *)
Definition last_ok (tok : str) : Prop :=
  exists tok' cl, tok = tok' ++ [cl] /\ cl <> COMMA /\ isspace cl = false.

(** The text of a key between its quotes. *)
Definition escaped (k : str) : str := concat (map escape_char k).

(** A value that is no bracket of a container with items. *)
Definition leaf_val (val : str) : Prop :=
  val <> [] /\ val <> py "[" /\ val <> py "{" /\ val <> py "]" /\ val <> py "}".

Definition empty_entity : JsonEntity :=
  {| pair_idx := None; child_count := 0; collapsed := false |}.

(** A value printed on one line. *)
Definition is_leaf (v : pyjson) : Prop :=
  match v with
  | JList (_ :: _) | JDict (_ :: _) => False
  | _ => True
  end.

Definition breakfree (t : str) : Prop := Forall (fun c => is_linebreak c = false) t.

(** The text of a scalar that is not a string, or of an empty container. *)
Definition atom_tok (tok : str) : Prop :=
  (exists c t, tok = c :: t /\ isspace c = false /\ c <> QUOTE /\ is_closer c = false)
  /\ last_ok tok /\ leaf_val tok /\ breakfree tok.

(** The first line of a value begins, behind the indentation of its level,
    with a character that is neither white space nor a closing bracket;
    every other line begins with a closing bracket or lies deeper. *)
Definition shaped (v : pyjson) : Prop :=
  forall level pre suf, prefix_ok level pre -> suffix_ok suf ->
    exists c t others,
      vlines level pre v suf = (indent_str level ++ c :: t) :: others
      /\ isspace c = false /\ is_closer c = false
      /\ Forall (inner_ok level) others.

(** Whether the first line of the output is put behind the last display
    line. *)
Definition merges (content : list Line) (flush : bool) : bool :=
  negb flush && negb (len content =? 0).

(** A line of the output: not empty, and without a line boundary. *)
Definition line_ok (l : str) : Prop := l <> [] /\ breakfree l.

(** What a second call of [set_collapsed] finds at the row of the start. *)
Definition same_entity (line : Line) (e : JsonEntity) (b : bool) (x : Line) : Prop :=
  row x = row line
  /\ exists a', json x = Some a'
     /\ (forall a, json line = Some a -> collapsible a' = collapsible a)
     /\ entity a' = Some {| pair_idx := pair_idx e; child_count := child_count e;
                            collapsed := b |}.

(** * Further definitions *)

(** ** The span engine: order and styles *)

(** The breakpoints are in the order of their offsets; what [sorted] with
    the key [tup[0]] returns is. *)
Definition by_offset (a b : Color) : Prop := fst a <= fst b.

Definition sorted_colors (cs : list Color) : Prop := StronglySorted by_offset cs.

(** The breakpoint that decides the style at [p] once the list is sorted:
    of the breakpoints at or before [p], the one with the greatest offset,
    and of several with that offset the last in the list. [prefer] compares
    a breakpoint with the best of those after it. *)
Definition prefer (p : Z) (x : Color) (acc : option Color) : option Color :=
  match acc with
  | Some y => if (fst x <=? p) && (fst y <? fst x) then Some x else Some y
  | None => if fst x <=? p then Some x else None
  end.

Definition best (p : Z) (cs : list Color) : option Color := foldr (prefer p) None cs.

(** The style of a breakpoint found, as the comprehension
    [[c[1] for c in colors if c[0] <= p][-1]] answers. *)
Definition style_of (o : option Color) : result Z :=
  match o with
  | Some y => Ok (snd y)
  | None => Raise IndexError
  end.

(** ** What the screen shows *)

(** The cell at column [p] of the row after the calls
    [scr.addstr(row, col, text, attr)]: a call writes its text from [col]
    on, and a later call overwrites an earlier one. *)
Fixpoint screen_at (calls : list addstr) (p : Z) : option (char * Z) :=
  match calls with
  | [] => None
  | (_, col, text, color_i) :: calls' =>
      match screen_at calls' p with
      | Some cell => Some cell
      | None =>
          if (col <=? p) && (p <? col + len text)
          then (fun ch => (ch, color_i)) <$> text !! Z.to_nat (p - col)
          else None
      end
  end.

(** ** The viewport *)

(** [d'] is [d] but for [top_row]. *)
Definition scrolled (d d' : LinesDisplay) : Prop :=
  d' = exec (set_top_row (top_row d')) d.

(** The top row lies in the buffer, or just below its last line. *)
Definition top_in_buffer (d : LinesDisplay) : Prop :=
  0 <= top_row d <= len (content d).

(** The array [[1]] alone, scrolled down by two lines. *)
Definition array_scrolled : LinesDisplay := exec (scroll_screen_down 2) array_alone.

(** An annotation the loop of [draw] steps over without a jump: it is no
    start of a container, or is a start that is not collapsed. A line
    without annotation is stepped over as well. *)
Definition ann_uncollapsed (a : JsonAnnotation) : bool :=
  if collapsible a then
    match entity a with
    | Some e => negb (collapsed e)
    | None => false
    end
  else true.

Definition uncollapsed (l : Line) : bool :=
  match json l with
  | None => true
  | Some a => ann_uncollapsed a
  end.

(** What a line shows apart from its annotation. *)
Definition layout (l : Line) : str * list Color * option Z * Z :=
  (s l, colors l, row l, offset l).

(** ** menu_display.py: the menu *)

Module Menu.

(** [MenuDisplay]: the fields the methods below read or write. An item is
    a pair of a description and a shortcut; [shortcuts] is the dict from
    shortcut to item index. *)
Record MenuDisplay := mkMenu {
  started : bool;
  title : str;
  items : list (str * str);
  instructions : option str;
  selection : Z;
  shortcuts : gmap str Z
}.

(** [{x[1]: idx for idx, x in enumerate(items)}], from index [idx] on: a
    later item with the same shortcut replaces an earlier one. *)
Fixpoint shortcuts_from (idx : Z) (its : list (str * str)) (m : gmap str Z) : gmap str Z :=
  match its with
  | [] => m
  | x :: its' => shortcuts_from (idx + 1) its' (<[snd x := idx]> m)
  end.

(** [MenuDisplay(title, items, instructions)] *)
Definition new_MenuDisplay (t : str) (its : list (str * str)) (ins : option str)
  : MenuDisplay :=
  {| started := false; title := t; items := its; instructions := ins;
     selection := 0; shortcuts := shortcuts_from 0 its ∅ |}.

Definition set_selection (m : MenuDisplay) (n : Z) : MenuDisplay :=
  {| started := started m; title := title m; items := items m;
     instructions := instructions m; selection := n; shortcuts := shortcuts m |}.

Definition set_started (m : MenuDisplay) (b : bool) : MenuDisplay :=
  {| started := b; title := title m; items := items m;
     instructions := instructions m; selection := selection m;
     shortcuts := shortcuts m |}.

(** [MenuDisplay.scroll_up] and [scroll_down] *)
Definition scroll_up (m : MenuDisplay) : MenuDisplay :=
  let new_selection := selection m - 1 in
  let new_selection :=
    if new_selection <? 0 then len (items m) - 1 else new_selection in
  set_selection m new_selection.

Definition scroll_down (m : MenuDisplay) : MenuDisplay :=
  let new_selection := selection m + 1 in
  let new_selection :=
    if len (items m) - 1 <? new_selection then 0 else new_selection in
  set_selection m new_selection.

(** The key codes of curses the loop compares with. *)
Definition KEY_DOWN : Z := 258.
Definition KEY_UP : Z := 259.
Definition KEY_ENTER : Z := 343.

Section Keys.

(** [curses.keyname(ch).decode('utf-8').lower()], and the empty string
    where [keyname] raises [ValueError]: the names are those of the
    terminal library. *)
Variable keyname_lower : Z -> str.

(** [MenuDisplay.wait_for_selection], run on the keys [getch] answers, in
    their order. The result is the menu and, once the method has returned,
    the value returned; [None] says that the keys are used up and the
    method waits in [getch]. Drawing starts the display, leaving the loop
    by [break] stops it, and the [return None] of the escape key does
    not. *)
Fixpoint wait_for_selection (keys : list Z) (m : MenuDisplay)
  : MenuDisplay * option (option Z) :=
  let m := set_started m true in
  match keys with
  | [] => (m, None)
  | ch :: keys' =>
      let keyname := keyname_lower ch in
      if ch =? KEY_UP then wait_for_selection keys' (scroll_up m)
      else if ch =? KEY_DOWN then wait_for_selection keys' (scroll_down m)
      else if ch =? 27 then (m, Some None)
      else if (ch =? KEY_ENTER) || (ch =? 10) || (ch =? 13)
      then (set_started m false, Some (Some (selection m)))
      else if negb (str_eqb keyname (py " ")) then
        match shortcuts m !! keyname with
        | Some idx => (set_started m false, Some (Some idx))
        | None => wait_for_selection keys' m
        end
      else wait_for_selection keys' m
  end.

End Keys.

End Menu.

(** ** main.py: file names, variables and merged projects *)

(** [s.startswith(p)] *)
Fixpoint startswith (p s : str) : bool :=
  match p, s with
  | [], _ => true
  | a :: p', b :: s' => N.eqb a b && startswith p' s'
  | _ :: _, [] => false
  end.

(** [s.replace(old, new)]: the occurrences of [old] are taken from the
    left and do not overlap. [skip] counts the characters of an occurrence
    still to be passed over. With an empty [old], [new] is put before every
    character and at the end. *)
Fixpoint replace_from (old new : str) (skip : nat) (s : str) : str :=
  match s with
  | [] => []
  | c :: s' =>
      match skip with
      | S k => replace_from old new k s'
      | O =>
          if startswith old s
          then new ++ replace_from old new (length old - 1) s'
          else c :: replace_from old new 0 s'
      end
  end.

Definition py_replace (old new s : str) : str :=
  match old with
  | [] => new ++ concat (map (fun c => c :: new) s)
  | _ => replace_from old new 0 s
  end.

(** [sanitize_for_filename] *)
Definition sanitize_for_filename (input : str) : str :=
  let input :=
    fold_left
      (fun input prefix =>
         if startswith prefix input then py_slice (Some (len prefix)) None input else input)
      [py "https://"; py "http://"; py "wss://"; py "www."; py "/"] input in
  py_replace (py "?") (py "-") (py_replace (py "+") [] (py_replace (py "/") (py "-") input)).

(** [[f(x) for x in l]] where [f] may raise: the first exception ends the
    loop. *)
Fixpoint rmapM {A B} (f : A -> result B) (l : list A) : result (list B) :=
  match l with
  | [] => Ok []
  | x :: l' => (y <- f x;; r <- rmapM f l';; Ok (y :: r))%result
  end.

(** [replace_vars_str]. [vars] is the dict of the project's variables, as
    the list of its items in their order; a value that is no string makes
    [str.replace] raise. *)
Fixpoint replace_vars_str (instr : str) (vars : list (str * pyjson)) : result str :=
  match vars with
  | [] => Ok instr
  | (key, val) :: vars' =>
      match val with
      | JStr v => replace_vars_str (py_replace (py "{{" ++ key ++ py "}}") v instr) vars'
      | _ => Raise TypeError
      end
  end.

(** The chain of [isinstance] tests [replace_vars_list] and
    [replace_vars_dict] apply to a value: a string, a dict, a list, or
    anything else. A dict is the list of its items in their order, with
    keys that differ from each other, so that assigning [result[key]] for
    each key in turn builds the items in the same order. *)
Fixpoint replace_vars_val (val : pyjson) (vars : list (str * pyjson)) : result pyjson :=
  match val with
  | JStr t => (t' <- replace_vars_str t vars;; Ok (JStr t'))%result
  | JDict indict =>
      (r <- rmapM (fun '(key, x) => (x' <- replace_vars_val x vars;; Ok (key, x'))%result)
              indict;;
       Ok (JDict r))%result
  | JList inlist =>
      (r <- rmapM (fun x => replace_vars_val x vars) inlist;; Ok (JList r))%result
  | _ => Ok val
  end.

(** [replace_vars_list] and [replace_vars_dict] *)
Definition replace_vars_list (inlist : list pyjson) (vars : list (str * pyjson))
  : result (list pyjson) :=
  rmapM (fun x => replace_vars_val x vars) inlist.

Definition replace_vars_dict (indict : list (str * pyjson)) (vars : list (str * pyjson))
  : result (list (str * pyjson)) :=
  rmapM (fun '(key, x) => (x' <- replace_vars_val x vars;; Ok (key, x'))%result) indict.

(** A value with its strings emptied: what is left is its shape, its keys
    and its numbers, booleans and nulls. *)
Fixpoint skeleton (v : pyjson) : pyjson :=
  match v with
  | JStr _ => JStr []
  | JList l => JList (map skeleton l)
  | JDict l => JDict (map (fun '(k, x) => (k, skeleton x)) l)
  | _ => v
  end.

(** A dict as the list of its items in the order of insertion, with keys
    that differ from each other: [d.get(k)], [d[k] = v] (an existing key
    keeps its place) and [d.update(d2)]. *)
Fixpoint dict_get (k : str) (d : list (str * pyjson)) : option pyjson :=
  match d with
  | [] => None
  | (k', v) :: d' => if str_eqb k' k then Some v else dict_get k d'
  end.

Fixpoint dict_set (k : str) (v : pyjson) (d : list (str * pyjson)) : list (str * pyjson) :=
  match d with
  | [] => [(k, v)]
  | (k', v') :: d' => if str_eqb k' k then (k', v) :: d' else (k', v') :: dict_set k v d'
  end.

Definition dict_update (d d2 : list (str * pyjson)) : list (str * pyjson) :=
  fold_left (fun acc '(k, v) => dict_set k v acc) d2 d.

(** [dict_merge(d1, d2)] on two values that are dicts. The loop over
    [d1.items()] replaces in [d2] the value of a key both have, when the
    two values are dicts, by their merge; then [d1] is copied and updated
    with [d2]. The recursion descends into the values of [d1]. (The loop
    changes the caller's [d2] in place; the model gives the dict
    returned.) *)
Fixpoint merge_json (v1 v2 : pyjson) {struct v1} : pyjson :=
  match v1, v2 with
  | JDict d1, JDict d2 =>
      let d2 :=
        (fix loop (its : list (str * pyjson)) (d2 : list (str * pyjson)) :=
           match its with
           | [] => d2
           | (k, v) :: its' =>
               loop its'
                 match dict_get k d2 with
                 | Some (JDict b) =>
                     match v with
                     | JDict _ => dict_set k (merge_json v (JDict b)) d2
                     | _ => d2
                     end
                 | _ => d2
                 end
           end) d1 d2 in
      JDict (dict_update d1 d2)
  | _, _ => v2
  end.

(** [dict_merge] *)
Definition dict_merge (d1 d2 : list (str * pyjson)) : list (str * pyjson) :=
  match merge_json (JDict d1) (JDict d2) with
  | JDict d3 => d3
  | _ => []
  end.

(** The loop of [dict_merge] by itself. *)
Fixpoint merge_loop (its d2 : list (str * pyjson)) : list (str * pyjson) :=
  match its with
  | [] => d2
  | (k, v) :: its' =>
      merge_loop its'
        match dict_get k d2 with
        | Some (JDict b) =>
            match v with
            | JDict a => dict_set k (JDict (dict_merge a b)) d2
            | _ => d2
            end
        | _ => d2
        end
  end.

(** ** lines_display.py: numeric input *)

(** [self.footer.colors = self.footer.add_color_span(...)] *)
Definition set_footer_colors (cs : list Color) : M unit :=
  (d <~ get;; put_footer (set_colors (footer d) cs))%method.

(** [self.scr.getch(y, x)] moves the cursor to row [y], column [x] of the
    window and then reads a key; where the position is outside the window
    it reads nothing and answers -1. *)
Definition in_window (d : LinesDisplay) (y x : Z) : bool :=
  (0 <=? y) && (y <? scr_height d) && (0 <=? x) && (x <? scr_width d).

(** The end of a turn of the loop of [get_numeric_input]: the footer is
    set to the prompt and what is typed, coloured, and the viewer is
    redrawn. *)
Definition numeric_input_turn (prompt code_chars : str) : M unit :=
  (set_footer (prompt ++ py " " ++ code_chars);;;
   d <~ get;;
   set_footer_colors
     (add_color_span (colors (footer d)) 0 (len prompt + 1) (len code_chars));;;
   draw)%method.

(** The [while len(code_chars) < 20] loop of [get_numeric_input], run on
    the keys [getch] answers, in their order. [code_chars] is the list of
    the digits typed, each a string of one character, kept as the string
    they join to. The result is the value returned once the method has
    returned; [None] says that it has not: the keys are used up and the
    method waits in [getch], or the position given to [getch] is outside
    the window. There [getch] answers -1 without reading a key, the turn
    changes neither [code_chars] nor the position, and the loop goes round
    for ever unless the redraw raises: the turn is run once. *)
Fixpoint numeric_input_loop (prompt : str) (keys : list Z) (code_chars : str)
  : M (option (option str)) :=
  if len code_chars <? 20 then
    (d <~ get;;
     if in_window d (scr_height d - 1) (len prompt + 1 + len code_chars) then
       match keys with
       | [] => ret None
       | char :: keys' =>
           if (48 <=? char) && (char <? 58) then
             numeric_input_turn prompt (code_chars ++ [Z.to_N char]);;;
             numeric_input_loop prompt keys' (code_chars ++ [Z.to_N char])
           else if (char =? 27) || (char =? 81) || (char =? 113) then ret (Some None)
           else if (char =? 10) || (char =? 13) then
             put_footer (new_Line []);;; ret (Some (Some code_chars))
           else if (char =? 8) || (char =? 127) then
             match code_chars with
             | [] => raise IndexError
             | _ =>
                 numeric_input_turn prompt (removelast code_chars);;;
                 numeric_input_loop prompt keys' (removelast code_chars)
             end
           else
             numeric_input_turn prompt code_chars;;;
             numeric_input_loop prompt keys' code_chars
       end
     else
       numeric_input_turn prompt code_chars;;; ret None)%method
  else (put_footer (new_Line []);;; ret (Some (Some code_chars)))%method.

(** [LinesDisplay.get_numeric_input] *)
Definition get_numeric_input (prompt : str) (keys : list Z) : M (option (option str)) :=
  (set_footer prompt;;; draw;;; numeric_input_loop prompt keys [])%method.

(** A decimal digit, as a character. *)
Definition is_digit (c : char) : Prop := (48 <= c <= 57)%N.

(** * Properties *)

(** ** Worked examples of the model *)

Example splitlines_ex :
  splitlines (py "a" ++ [13; 10]%N ++ py "b" ++ [10; 10]%N) = [py "a"; py "b"; []].
Proof. reflexivity. Qed.

Example add_color_span_ex :
  add_color_span [] 5 2 3 = [(0, 1); (2, 5); (5, 1)].
Proof. reflexivity. Qed.

Example kv_match_ex :
  kv_match (py "    " ++ [QUOTE] ++ py "b" ++ [QUOTE] ++ py ": [") = Some ((4, 7), (9, 10)).
Proof. reflexivity. Qed.

Example scenario_annotation :
  let d := exec (print_json scenario_obj true) started_display in
  map (line_type d) (seq 0 7)
    = [Some OBJ_START; Some NUMBER; Some ARR_START; Some NUMBER; Some NUMBER;
       Some NUMBER; Some ARR_END]
  /\ (child_count <$> line_entity d 2) = Some 3
  /\ (pair_idx <$> line_entity d 2) = Some (Some 6)
  /\ (pair_idx <$> line_entity d 6) = Some (Some 2).
Proof. vm_compute. repeat split; reflexivity. Qed.

(** ** Matching of starts and ends (C1) *)

(** C1, at the failing input. The claim says the match relation is mutual
    also when the buffer held lines before the call. With one plain line in
    the buffer and [[1]] appended, the start (row 1) names row 3, the row of
    its end, but the end names row 0, the index of the start inside the new
    lines, where the row of the start is 1. With [flush=False] the start
    (row 0) names row 3 while its end is on row 2, the last row. *)
Theorem C1_end_names_local_index :
  line_type after_plain_then_array 1 = Some ARR_START
  /\ line_row after_plain_then_array 1 = Some 1
  /\ (pair_idx <$> line_entity after_plain_then_array 1) = Some (Some 3)
  /\ line_type after_plain_then_array 3 = Some ARR_END
  /\ line_row after_plain_then_array 3 = Some 3
  /\ (pair_idx <$> line_entity after_plain_then_array 3) = Some (Some 0)
  /\ line_type after_plain_then_array_noflush 0 = Some ARR_START
  /\ (pair_idx <$> line_entity after_plain_then_array_noflush 0) = Some (Some 3)
  /\ line_type after_plain_then_array_noflush 2 = Some ARR_END
  /\ length (content after_plain_then_array_noflush) = 3%nat.
Proof. vm_compute. repeat split; reflexivity. Qed.

(** ** Hidden depth under collapse (C2) *)

(** C2, at the failing input. The claim says collapsing raises the hidden
    depth of the lines after the start, up to its end, by one and that the
    depth is never negative. Collapsing the array [[1]] takes the depth of
    its two inner rows from 0 to -1. *)
Theorem C2_collapse_lowers_hidden :
  map (line_hidden array_alone) [0; 1; 2]%nat = [Some 0; Some 0; Some 0]
  /\ outcome (set_collapsed 0 true) array_alone = Ok tt
  /\ (collapsed <$> line_entity array_collapsed 0) = Some true
  /\ map (line_hidden array_collapsed) [0; 1; 2]%nat = [Some 0; Some (-1); Some (-1)].
Proof. vm_compute. repeat split; reflexivity. Qed.

(** ** The cursor and hidden lines (C3) *)

(** C3, at the failing input. The claim says the toggle into structural
    mode never puts the cursor on a hidden line. With the top row on row 2
    and row 1 collapsed over rows 2 and 3, the toggle takes the first line
    from the top row on that has a key, row 2, which is hidden, where
    [scroll_json_up] and [scroll_json_down] skip it. *)
Theorem C3_toggle_selects_hidden_line :
  mode before_toggle = SCROLL
  /\ top_row before_toggle = 2
  /\ cursor_row before_toggle = None
  /\ (collapsed <$> line_entity before_toggle 1) = Some true
  /\ line_hidden before_toggle 2 = Some (-1)
  /\ eligible_shown (content before_toggle) 2 = Ok false
  /\ outcome cycle_mode before_toggle = Ok tt
  /\ mode after_toggle = JSON
  /\ cursor_row after_toggle = Some 2
  /\ line_hidden after_toggle 2 = Some (-1).
Proof. vm_compute. repeat split; reflexivity. Qed.

(** ** Horizontal offset (C7) *)

(** C7, the counterexample: the line of a string of 200 characters under
    the key [text], as [print_json] builds it, is 214 characters long. At
    width 80 fourteen calls of [increase_offset] bring the offset to 137,
    above the cap the length of the string gives, 123 (and 125 with the
    two quotes counted in). *)
Lemma C7_offset_passes_string_cap : ~ capped_by_string_length long_string_line 80.
Proof.
  intros H. specialize (H 200 14%nat eq_refl). vm_compute in H. apply H. reflexivity.
Qed.

(** C7, as amended. On an annotated line whose text, indentation, key and
    quotes included, is [S] characters long, shown at width [W], with the
    offset between 0 and the cap: [increase_offset] adds 10 as long as that
    stays under the cap and otherwise lands on the cap, where it stays; the
    cap is [S - W + 3] whenever that is not negative. [decrease_offset]
    subtracts 10 and stops at 0. ([increase_offset] does not look at the
    type of the annotation; the key loop calls it on string lines.) *)
Theorem C7_offset_steps (l : Line) (a : JsonAnnotation) (W : Z) :
  json l = Some a ->
  0 <= offset l <= Z.max 0 (len (s l) - W + 3) ->
  let cap := Z.max 0 (len (s l) - W + 3) in
  let up := offset (increase_offset l W) in
  let down := offset (decrease_offset l) in
  (0 <= len (s l) - W + 3 -> cap = len (s l) - W + 3)
  /\ offset l <= up <= cap
  /\ (offset l + 10 <= cap -> up = offset l + 10)
  /\ (cap <= offset l + 10 -> up = cap)
  /\ offset (increase_offset (increase_offset l W) W) >= up
  /\ (up = cap -> offset (increase_offset (increase_offset l W) W) = cap)
  /\ 0 <= down <= offset l
  /\ (10 <= offset l -> down = offset l - 10)
  /\ (offset l <= 10 -> down = 0).
Proof.
  intros Hj Hoff cap up down.
  subst cap up down. unfold increase_offset, decrease_offset.
  rewrite Hj. cbn [offset s json].
  repeat split; intros; lia.
Qed.

Lemma C7_offset_steps_witness :
  let l := Nat.iter 13 (fun x => increase_offset x 80) long_string_line in
  let cap := Z.max 0 (len (s l) - 80 + 3) in
  let up := offset (increase_offset l 80) in
  let down := offset (decrease_offset l) in
  (0 <= len (s l) - 80 + 3 -> cap = len (s l) - 80 + 3)
  /\ offset l <= up <= cap
  /\ (offset l + 10 <= cap -> up = offset l + 10)
  /\ (cap <= offset l + 10 -> up = cap)
  /\ offset (increase_offset (increase_offset l 80) 80) >= up
  /\ (up = cap -> offset (increase_offset (increase_offset l 80) 80) = cap)
  /\ 0 <= down <= offset l
  /\ (10 <= offset l -> down = offset l - 10)
  /\ (offset l <= 10 -> down = 0).
Proof.
  apply (C7_offset_steps (Nat.iter 13 (fun x => increase_offset x 80) long_string_line)
           long_string_ann 80).
  - reflexivity.
  - vm_compute. split; discriminate.
Defined.

(** ** Python lists *)

Lemma len_app {A} (l1 l2 : list A) : len (l1 ++ l2) = len l1 + len l2.
Proof. unfold len. rewrite length_app. lia. Qed.

Lemma len_nonneg {A} (l : list A) : 0 <= len l.
Proof. unfold len. lia. Qed.

Lemma py_pos_last {A} (l : list A) (x : A) : py_pos (l ++ [x]) (-1) = Some (length l).
Proof.
  unfold py_pos. rewrite len_app. change (len [x]) with 1.
  pose proof (len_nonneg l).
  destruct (0 <=? -1) eqn:E1; [lia|]. cbn [andb].
  destruct (- (len l + 1) <=? -1) eqn:E2; [|lia].
  destruct (-1 <? 0) eqn:E3; [|lia]. cbn [andb].
  f_equal. unfold len. lia.
Qed.

Lemma py_index_last {A} (l : list A) (x : A) : py_index (l ++ [x]) (-1) = Ok x.
Proof.
  unfold py_index. rewrite py_pos_last.
  rewrite lookup_app_r by lia. replace (length l - length l)%nat with 0%nat by lia.
  reflexivity.
Qed.

Lemma py_slice_init {A} (l : list A) (x : A) : py_slice None (Some (-1)) (l ++ [x]) = l.
Proof.
  unfold py_slice, slice_bound. rewrite len_app. change (len [x]) with 1.
  pose proof (len_nonneg l).
  destruct (-1 <? 0) eqn:E; [|lia].
  replace (Z.max 0 (-1 + (len l + 1)) - 0) with (len l) by lia.
  change (Z.to_nat 0) with 0%nat. rewrite drop_0.
  unfold len. rewrite Nat2Z.id. apply take_app_length.
Qed.

(** ** The controller: what [draw] leaves alone *)

Ltac unfold_method :=
  unfold exec, outcome, ensure_started, start in *;
  unfold bind, ret, raise, get, put, lift, set_content, set_top_row,
    set_bottom_row, set_cursor_row, set_mode, put_footer in *;
  cbv beta in *.

(** Painting writes to the screen only. *)
Lemma draw_lines_exec (lines : list Line) (r : Z) (c : option Z) (d : LinesDisplay) :
  started d = true -> exec (draw_lines lines r c) d = d.
Proof.
  intros Hs. unfold draw_lines. unfold_method. rewrite Hs. reflexivity.
Qed.

(** The state [draw] leaves on a started viewer, whether the painting
    returns or raises: [bottom_row] is set from the scan, where the scan
    returns. *)
Lemma draw_exec (d : LinesDisplay) :
  started d = true ->
  exec draw d
  = match draw_scan (Z.to_nat (scr_height d - 1 - 1)) (cursor_row d) (content d)
            (top_row d) [header d] None with
    | Ok (idx, _, _, _) => exec (set_bottom_row (Z.max 0 (idx - 1))) d
    | Raise _ => d
    end.
Proof.
  intros Hs. unfold draw. change (len [header d]) with 1.
  unfold exec, bind at 1, ensure_started, bind at 1, get at 1. rewrite Hs.
  unfold ret at 1, bind at 1, get at 1, bind at 1, lift at 1.
  destruct (draw_scan _ _ _ _ _ _) as [[[[idx lines] crow] space]|e]; [|reflexivity].
  unfold bind at 1, set_bottom_row at 1.
  match goal with |- fst (draw_lines ?l ?r ?c ?x) = _ =>
    change (exec (draw_lines l r c) x = x) end.
  apply draw_lines_exec. exact Hs.
Qed.

(** The lazy start comes first. *)
Lemma ensure_started_twice {A} (K : M A) (d : LinesDisplay) :
  (ensure_started;;; K)%method d = (ensure_started;;; K)%method (exec ensure_started d).
Proof.
  unfold exec, ensure_started, get, ret, start. unfold bind. cbv beta.
  destruct (started d) eqn:Hs; cbn [fst snd started]; rewrite ?Hs; reflexivity.
Qed.

Lemma draw_ensure_started (d : LinesDisplay) : draw d = draw (exec ensure_started d).
Proof. unfold draw. apply ensure_started_twice. Qed.

Lemma ensure_started_started (d : LinesDisplay) : started (exec ensure_started d) = true.
Proof.
  unfold exec, ensure_started, bind, get, ret, start.
  destruct (started d) eqn:Hs; cbn; [exact Hs|reflexivity].
Qed.

Lemma draw_content (d : LinesDisplay) :
  started d = true -> content (exec draw d) = content d.
Proof.
  intros Hs. rewrite draw_exec by exact Hs.
  destruct (draw_scan _ _ _ _ _ _) as [[[[idx lines] crow] space]|e]; reflexivity.
Qed.

Lemma draw_started (d : LinesDisplay) : started d = true -> started (exec draw d) = true.
Proof.
  intros Hs. rewrite draw_exec by exact Hs.
  destruct (draw_scan _ _ _ _ _ _) as [[[[idx lines] crow] space]|e]; cbn; exact Hs.
Qed.

(** ** Plain text appended to an unterminated line (C10) *)

(** C10, the counterexample: a viewer that was stopped with the line
    [old] in its buffer. [print(".", flush=False)] starts the viewer first,
    which empties the buffer: afterwards the buffer holds the one line
    [.], and nothing of [old]. *)
Lemma C10_stopped_viewer_merges_nothing : ~ print_merges_tail stopped_viewer (py ".").
Proof.
  intros H.
  destruct (H [] (new_Line (py "old")) (py ".") [] eq_refl eq_refl) as (m & Hc & Hs & _).
  vm_compute in Hc. injection Hc as <-. vm_compute in Hs. discriminate Hs.
Qed.

(** C10, as amended. [print(s, flush=False)] on a started viewer whose
    buffer ends with the line [prev], for a text whose first line is
    [first]: the buffer keeps the lines before [prev], then holds one new
    line whose text is that of [prev] followed by [first], with no colours
    and no annotation, whatever [prev] carried, then the other lines of the
    text. (A viewer that is not started is started by the call, which
    empties its buffer.) *)
Theorem C10_print_merges_tail (d : LinesDisplay) (text first : str) (rest : list str)
    (before : list Line) (prev : Line) :
  started d = true ->
  content d = before ++ [prev] ->
  splitlines text = first :: rest ->
  exists merged,
    content (exec (print text false) d) = before ++ merged :: map new_Line rest
    /\ s merged = s prev ++ first
    /\ colors merged = []
    /\ json merged = None.
Proof.
  intros Hs Hc Ht. exists (new_Line (s prev ++ first)).
  split; [|repeat split; reflexivity].
  unfold print. unfold exec, bind at 1, ensure_started, bind at 1, get, ret.
  rewrite Hs. unfold bind at 1. rewrite Ht. cbn [map].
  rewrite Hc, len_app. change (len [prev]) with 1.
  pose proof (len_nonneg before).
  destruct (len before + 1 =? 0) eqn:E; [lia|]. cbn [negb andb].
  rewrite <- Hc.
  unfold bind at 1, lift. rewrite Hc, py_index_last, py_slice_init.
  unfold bind at 1, set_content at 1. unfold bind at 1, get.
  unfold bind at 1, set_content at 1. cbn [content].
  match goal with |- content (fst (draw ?x)) = ?y => change (content (exec draw x) = y) end.
  rewrite draw_content by (cbn; assumption). cbn [content s new_Line].
  rewrite <- app_assoc. reflexivity.
Qed.

Lemma C10_print_merges_tail_witness :
  exists merged,
    content (exec (print (py "." ++ [10%N] ++ py "done") false) array_alone)
      = take 2 (content array_alone) ++ merged :: map new_Line [py "done"]
    /\ s merged = py "]."
    /\ colors merged = []
    /\ json merged = None.
Proof.
  destruct (C10_print_merges_tail array_alone (py "." ++ [10%N] ++ py "done") (py ".")
              [py "done"] (take 2 (content array_alone))
              {| s := py "]"; colors := [(0, 8); (1, 1)];
                 json := Some (new_JsonEntity ARR_END None (0, 1) (Some 0));
                 row := Some 2; offset := 0 |}
              eq_refl eq_refl eq_refl) as (m & H1 & H2 & H3 & H4).
  exists m. repeat split; assumption.
Defined.

(** ** Collapse and expand *)

Lemma py_pos_length {A B} (l : list A) (l' : list B) (i : Z) :
  length l = length l' -> py_pos l i = py_pos l' i.
Proof. intros E. unfold py_pos, len. rewrite E. reflexivity. Qed.

Lemma py_index_Ok {A} (l : list A) (i : Z) (x : A) :
  py_index l i = Ok x -> exists k, py_pos l i = Some k /\ l !! k = Some x.
Proof.
  unfold py_index. destruct (py_pos l i) as [k|]; [|discriminate].
  destruct (l !! k) eqn:E; [|discriminate].
  intros [= ->]. eauto.
Qed.

Lemma bump_positions_length (c c' : list Line) (xs : list Z) :
  length c = length c' -> bump_positions c xs = bump_positions c' xs.
Proof.
  intros E. induction xs as [|x xs IH]; cbn; [reflexivity|].
  rewrite (py_pos_length c c' x E), IH. reflexivity.
Qed.


Lemma bump_at_length (delta : Z) (ks : list nat) (c : list Line) :
  length (bump_at delta ks c) = length c.
Proof.
  revert c. induction ks as [|k ks IH]; intros c; cbn; [reflexivity|].
  unfold bump_at in IH. rewrite IH. apply length_alter.
Qed.






(** The loop of [set_collapsed] bumps the positions it reaches, in order,
    and changes nothing else. *)
Lemma bump_range_content (delta : Z) (xs : list Z) (d : LinesDisplay) :
  content (bump_range delta xs d).1
    = bump_at delta (bump_positions (content d) xs) (content d)
  /\ started (bump_range delta xs d).1 = started d.
Proof.
  revert d. induction xs as [|x xs IH]; intros d; cbn [bump_range bump_positions].
  - unfold_method. cbn. auto.
  - unfold bind, get, set_content, raise. cbv beta.
    destruct (py_pos (content d) x) as [k|] eqn:E; cbn [fst snd].
    + match goal with |- context [bump_range delta xs ?d'] =>
        destruct (IH d') as [H1 H2]; rewrite H1, H2 end.
      cbn [content started]. split; [|reflexivity].
      rewrite (bump_positions_length _ (content d)) by apply length_alter.
      reflexivity.
    + cbn. auto.
Qed.



Lemma same_entity_bump line e b delta x :
  same_entity line e b x -> same_entity line e b (bump_hidden delta x).
Proof.
  intros (Hr & a' & Hj & Hc & He). unfold bump_hidden. rewrite Hj.
  split; [exact Hr|]. eexists. split; [reflexivity|]. split; [|exact He].
  intros a Ha. rewrite <- (Hc a Ha). reflexivity.
Qed.

Lemma bump_at_lookup (Q : Line -> Prop) (delta : Z) (ks : list nat) (c : list Line)
    (k : nat) (x : Line) :
  (forall y, Q y -> Q (bump_hidden delta y)) ->
  c !! k = Some x -> Q x ->
  exists x', bump_at delta ks c !! k = Some x' /\ Q x'.
Proof.
  intros HQ. revert c x. induction ks as [|k' ks IH]; intros c x Hx Qx; cbn.
  - eauto.
  - destruct (decide (k' = k)) as [->|Hne].
    + apply (IH _ (bump_hidden delta x)); [|auto].
      rewrite list_lookup_alter_eq, Hx. reflexivity.
    + apply (IH _ x); [|auto]. rewrite list_lookup_alter_ne by assumption. exact Hx.
Qed.

(** One effective call of [set_collapsed]: the flag of the start is set,
    then the rows the loop reaches are bumped; the redraw keeps the buffer. *)
Lemma set_collapsed_content (d : LinesDisplay) (n : Z) (b : bool) (k : nat)
    (line : Line) (a : JsonAnnotation) (e : JsonEntity) :
  started d = true ->
  py_pos (content d) n = Some k ->
  content d !! k = Some line ->
  json line = Some a ->
  collapsible a = true ->
  entity a = Some e ->
  collapsed e = negb b ->
  started (exec (set_collapsed n b) d) = true
  /\ content (exec (set_collapsed n b) d)
     = match row line, pair_idx e with
       | Some r, Some p =>
           bump_at (if b then -1 else 1)
             (bump_positions (content d) (py_range (r + 1) (p + 1)))
             (alter (set_line_collapsed b) k (content d))
       | _, _ => alter (set_line_collapsed b) k (content d)
       end.
Proof.
  intros Hs Hp Hl Hj Hc He Hb.
  unfold exec. remember (set_collapsed n b d) as res eqn:Hres.
  unfold set_collapsed in Hres. unfold bind at 1, get in Hres.
  unfold bind at 1, lift in Hres.
  unfold py_index in Hres. rewrite Hp, Hl, Hj, Hc in Hres. cbn [negb] in Hres.
  rewrite He, Hb in Hres.
  replace (Bool.eqb (negb b) b) with false in Hres by (destruct b; reflexivity).
  unfold bind at 1, set_content at 1 in Hres.
  destruct (row line) as [r|], (pair_idx e) as [p|];
    try (subst res; cbn; auto; fail).
  unfold bind at 1 in Hres.
  match type of Hres with context [bump_range ?dl ?xs ?d'] =>
    destruct (bump_range_content dl xs d') as [H1 H2];
    destruct (bump_range dl xs d') as [d2 [[]|ex]] end;
    cbn [fst snd content started] in *; subst res.
  - fold (exec draw d2). rewrite draw_content, draw_started by congruence.
    split; [reflexivity|]. rewrite H1.
    rewrite (bump_positions_length _ (content d)) by apply length_alter. reflexivity.
  - cbn [fst]. split; [congruence|]. rewrite H1.
    rewrite (bump_positions_length _ (content d)) by apply length_alter. reflexivity.
Qed.



(** ** The span engine *)

Lemma insert_color_In (x p : Color) (l : list Color) :
  In p (insert_color x l) <-> p = x \/ In p l.
Proof.
  induction l as [|y l IH]; cbn.
  - intuition.
  - destruct (fst x <=? fst y); cbn; [intuition|]. rewrite IH. intuition.
Qed.

Lemma py_sorted_In (p : Color) (l : list Color) : In p (py_sorted l) <-> In p l.
Proof.
  unfold py_sorted. induction l as [|x l IH]; cbn [foldr In]; [reflexivity|].
  rewrite insert_color_In, IH. intuition.
Qed.

Lemma insert_color_length (x : Color) (l : list Color) :
  length (insert_color x l) = S (length l).
Proof.
  induction l as [|y l IH]; cbn; [reflexivity|].
  destruct (fst x <=? fst y); cbn; [reflexivity|]. rewrite IH. reflexivity.
Qed.

Lemma py_sorted_length (l : list Color) : length (py_sorted l) = length l.
Proof.
  unfold py_sorted. induction l as [|x l IH]; cbn [foldr length]; [reflexivity|].
  rewrite insert_color_length, IH. reflexivity.
Qed.

(** Insertion next to the element that was last before sorting: an
    element of no greater key goes in front of it, a greater one behind. *)
Lemma insert_color_front (x b : Color) (A B : list Color) :
  fst x <= fst b ->
  (forall y, In y A -> fst y <= fst b) ->
  exists A', insert_color x (A ++ b :: B) = A' ++ b :: B
             /\ (forall y, In y A' -> fst y <= fst b).
Proof.
  intros Hx. induction A as [|y A IH]; intros HA; cbn.
  - exists [x]. destruct (fst x <=? fst b) eqn:E; [|lia].
    split; [reflexivity|]. intros y [<-|[]]. exact Hx.
  - destruct (fst x <=? fst y) eqn:E.
    + exists (x :: y :: A). split; [reflexivity|].
      intros z [<-|Hz]; [exact Hx|]. apply HA. exact Hz.
    + destruct IH as (A' & HA' & Hle); [intros; apply HA; right; assumption|].
      exists (y :: A'). rewrite HA'. split; [reflexivity|].
      intros z [<-|Hz]; [apply HA; left; reflexivity|auto].
Qed.

Lemma insert_color_back (x b : Color) (A B : list Color) :
  fst b < fst x ->
  (forall y, In y A -> fst y <= fst b) ->
  insert_color x (A ++ b :: B) = A ++ b :: insert_color x B.
Proof.
  intros Hx. induction A as [|y A IH]; intros HA; cbn.
  - destruct (fst x <=? fst b) eqn:E; [lia|reflexivity].
  - assert (fst y <= fst b) by (apply HA; left; reflexivity).
    destruct (fst x <=? fst y) eqn:E; [lia|].
    rewrite IH; [reflexivity|]. intros; apply HA; right; assumption.
Qed.

(** After the stable sort, what was appended last stands behind everything
    of its own key or less and in front of everything greater. *)
Lemma py_sorted_last (l : list Color) (b : Color) :
  exists A B, py_sorted (l ++ [b]) = A ++ b :: B
              /\ (forall y, In y A -> fst y <= fst b)
              /\ (forall y, In y B -> fst b < fst y).
Proof.
  induction l as [|x l (A & B & Hs & HA & HB)].
  - exists [], []. cbn. split; [reflexivity|]. split; intros y [].
  - cbn [app py_sorted foldr]. fold (py_sorted (l ++ [b])). rewrite Hs.
    destruct (Z_le_gt_dec (fst x) (fst b)) as [Hle|Hgt].
    + destruct (insert_color_front x b A B Hle HA) as (A' & -> & HA').
      exists A', B. auto.
    + rewrite insert_color_back by (lia || assumption).
      exists A, (insert_color x B). split; [reflexivity|]. split; [assumption|].
      intros y Hy. apply insert_color_In in Hy as [->|Hy]; [lia|auto].
Qed.

Lemma filter_all {A} (f : A -> bool) (l : list A) :
  (forall x, In x l -> f x = true) -> List.filter f l = l.
Proof.
  induction l as [|x l IH]; intros H; cbn; [reflexivity|].
  rewrite (H x) by (left; reflexivity). f_equal. apply IH. intros; apply H; right; assumption.
Qed.

Lemma filter_none {A} (f : A -> bool) (l : list A) :
  (forall x, In x l -> f x = false) -> List.filter f l = [].
Proof.
  induction l as [|x l IH]; intros H; cbn; [reflexivity|].
  rewrite (H x) by (left; reflexivity). apply IH. intros; apply H; right; assumption.
Qed.

(** The style resumed after a span is found again by a second insertion. *)
Lemma last_color_upto_sorted (l : list Color) (b : Color) :
  last_color_upto (py_sorted (l ++ [b])) (fst b) = Ok (snd b).
Proof.
  destruct (py_sorted_last l b) as (A & B & -> & HA & HB).
  unfold last_color_upto.
  rewrite List.filter_app. cbn [List.filter].
  destruct (fst b <=? fst b) eqn:E; [|lia].
  rewrite (filter_all _ A) by (intros x Hx; apply Z.leb_le; auto).
  rewrite (filter_none _ B) by (intros x Hx; apply Z.leb_gt; auto).
  rewrite map_app. cbn [map]. apply py_index_last.
Qed.

(** The breakpoints of the result: those kept, the start of the span and
    the point where the earlier style resumes. *)
Lemma add_color_span_In (cs : list Color) (color_i start w : Z) (p : Color) :
  In p (add_color_span cs color_i start w)
  <-> (In p (match last_color_upto cs (start + w) with
             | Ok _ => cs
             | Raise _ => (0, 1) :: cs
             end) /\ fst p <> start)
      \/ p = (start, color_i)
      \/ p = (start + w, match last_color_upto cs (start + w) with
                         | Ok q => q
                         | Raise _ => 1
                         end).
Proof.
  unfold add_color_span.
  destruct (last_color_upto cs (start + w)) as [q|e];
    rewrite py_sorted_In, in_app_iff, List.filter_In; cbn [In];
    rewrite negb_true_iff, Z.eqb_neq; intuition.
Qed.

Lemma last_color_upto_add (cs : list Color) (color_i start w : Z) :
  last_color_upto (add_color_span cs color_i start w) (start + w)
  = Ok (match last_color_upto cs (start + w) with
        | Ok q => q
        | Raise _ => 1
        end).
Proof.
  unfold add_color_span.
  destruct (last_color_upto cs (start + w)) as [q|e];
    match goal with |- context [?l ++ [?a; ?b]] =>
      change (l ++ [a; b]) with (l ++ [a] ++ [b]); rewrite (app_assoc l [a] [b]);
      apply (last_color_upto_sorted (l ++ [a]) b) end.
Qed.



Lemma filter_insert_color_length (f : Color -> bool) (x : Color) (l : list Color) :
  length (List.filter f (insert_color x l)) = length (List.filter f (x :: l)).
Proof.
  induction l as [|y l IH]; [reflexivity|].
  cbn [insert_color]. destruct (fst x <=? fst y); [reflexivity|].
  cbn [List.filter] in *. destruct (f y), (f x); cbn [length] in *; lia.
Qed.

Lemma filter_py_sorted_length (f : Color -> bool) (l : list Color) :
  length (List.filter f (py_sorted l)) = length (List.filter f l).
Proof.
  unfold py_sorted. induction l as [|x l IH]; [reflexivity|].
  cbn [foldr]. rewrite filter_insert_color_length. cbn [List.filter].
  destruct (f x); cbn [length]; rewrite IH; reflexivity.
Qed.

Lemma repeat_length_aux (l : list Color) (color_i start w prev : Z) :
  w <> 0 ->
  let keep := fun x : Color => negb (fst x =? start) in
  length (List.filter keep
            (py_sorted (List.filter keep l ++ [(start, color_i); (start + w, prev)])))
  = S (length (List.filter keep l)).
Proof.
  intros Hw keep.
  rewrite filter_py_sorted_length, List.filter_app, length_app.
  rewrite (filter_all keep (List.filter keep l))
    by (intros x Hx; apply List.filter_In in Hx; tauto).
  subst keep. cbn [List.filter fst]. rewrite Z.eqb_refl. cbn [negb].
  destruct (start + w =? start) eqn:E; [lia|]. cbn [negb length]. lia.
Qed.

(** How the list changes under the repeat: unless the span is empty, each
    further insertion of the same span makes the list one item longer. *)
Lemma add_color_span_repeat_length (cs : list Color) (color_i start w : Z) :
  w <> 0 ->
  length (add_color_span (add_color_span cs color_i start w) color_i start w)
  = S (length (add_color_span cs color_i start w)).
Proof.
  intros Hw.
  pose proof (last_color_upto_add cs color_i start w) as Hlast.
  unfold add_color_span at 1. rewrite Hlast.
  rewrite py_sorted_length, length_app. cbn [length].
  unfold add_color_span.
  destruct (last_color_upto cs (start + w)) as [q|e];
    rewrite repeat_length_aux by assumption;
    rewrite py_sorted_length, length_app; reflexivity.
Qed.

(** ** Degenerate spans (C9) *)

(** [add_color_span] returns on every input: the one expression that can
    raise is under the [try], and its IndexError is caught. *)
Lemma add_color_span_returns (cs : list Color) (color_i start w : Z) :
  add_color_span_exc cs color_i start w = Ok (add_color_span cs color_i start w).
Proof.
  unfold add_color_span_exc, add_color_span, last_color_upto, py_index.
  destruct (py_pos _ (-1)) as [n|]; [|reflexivity].
  destruct (_ !! n); reflexivity.
Qed.

(** C9, the counterexample: on the list [(0, 1)], the span of style 5 at
    start 5 with length -3 gives [(0, 1); (2, 1); (5, 5)]. That is not the
    list given, it holds a breakpoint the list did not hold, and no span of
    length zero or more gives it: style 5 runs from 5 to the end of the
    line. *)
Lemma C9_negative_length_is_inserted : ~ noop_or_clamp [(0, 1)] 5 5 (-3).
Proof.
  unfold noop_or_clamp.
  change (add_color_span [(0, 1)] 5 5 (-3)) with [(0, 1); (2, 1); (5, 5)].
  intros [H|[H|(start' & w' & Hw & H)]].
  - discriminate H.
  - destruct (proj1 (H (5, 5))) as [E|[]]; [right; right; left; reflexivity|].
    discriminate E.
  - assert (Hs : In (start', 5) [(0, 1); (2, 1); (5, 5)]).
    { rewrite H. apply add_color_span_In. right; left; reflexivity. }
    assert (Hstart : start' = 5).
    { destruct Hs as [E|[E|[E|[]]]]; congruence. }
    subst start'.
    assert (He : exists q, In (5 + w', q) [(0, 1); (2, 1); (5, 5)]).
    { rewrite H. eexists. apply add_color_span_In. right; right; reflexivity. }
    destruct He as (q & [E|[E|[E|[]]]]); try (injection E as E1 E2; lia).
    injection E as E1 E2. assert (w' = 0) by lia. subst w'.
    revert H. vm_compute. discriminate.
Qed.

(** C9, as amended. On every input, degenerate or not, [add_color_span]
    returns without raising, and it inserts the span as it is given: the
    result holds the breakpoint (start, style) and a breakpoint at
    start + length, and keeps every breakpoint of the list that is not at
    start. Nothing is clamped and the call is not skipped. *)
Theorem C9_degenerate_span_is_inserted (cs : list Color) (color_i start w : Z) :
  add_color_span_exc cs color_i start w = Ok (add_color_span cs color_i start w)
  /\ In (start, color_i) (add_color_span cs color_i start w)
  /\ (exists prev, In (start + w, prev) (add_color_span cs color_i start w))
  /\ (forall p, In p cs -> fst p <> start -> In p (add_color_span cs color_i start w)).
Proof.
  split; [apply add_color_span_returns|].
  split; [apply add_color_span_In; auto|].
  split; [eexists; apply add_color_span_In; right; right; reflexivity|].
  intros p Hp Hne. apply add_color_span_In. left. split; [|assumption].
  destruct (last_color_upto cs (start + w)); [assumption|right; assumption].
Qed.

(** ** Drawing leaves the line alone (C8) *)

Section Frame.
Variable n0 : nat.

Lemma safe_ret {A} (a : A) (Q : A -> Prop) : Q a -> safe n0 (hret a) Q.
Proof. intros Ha h Hh. cbn. repeat split; auto. intros a' [= <-]. exact Ha. Qed.

Lemma safe_raise {A} (e : exn) (Q : A -> Prop) : safe n0 (hraise e) Q.
Proof. intros h Hh. cbn. repeat split; auto. discriminate. Qed.

Lemma safe_lift {A} (r : result A) : safe n0 (hlift r) any.
Proof. intros h Hh. cbn. repeat split; auto; intros; exact I. Qed.

Lemma safe_weaken {A} (m : H A) (Q Q' : A -> Prop) :
  safe n0 m Q -> (forall a, Q a -> Q' a) -> safe n0 m Q'.
Proof. intros Hm HQ h Hh. destruct (Hm h Hh) as [Hp Hq]. split; auto. Qed.

Lemma safe_bind {A B} (m : H A) (k : A -> H B) (Q : A -> Prop) (R : B -> Prop) :
  safe n0 m Q -> (forall a, Q a -> safe n0 (k a) R) -> safe n0 (hbind m k) R.
Proof.
  intros Hm Hk h Hh. destruct (Hm h Hh) as [[Hlen Hold] Hq].
  unfold hbind. destruct (m h) as [h1 [a|e]]; cbn [fst snd] in *.
  - destruct (Hk a (Hq a eq_refl) h1 Hlen) as [[Hlen' Hold'] Hr].
    repeat split; auto. intros l Hl. rewrite Hold', Hold by assumption. reflexivity.
  - repeat split; auto. discriminate.
Qed.

Lemma safe_alloc (cs : list Color) : safe n0 (alloc_list cs) (fresh n0).
Proof.
  intros h Hh. unfold alloc_list. cbn [fst snd]. repeat split.
  - rewrite length_app. lia.
  - intros l Hl. apply lookup_app_l. lia.
  - intros a [= <-]. exact Hh.
Qed.

Lemma safe_read_list (l : loc) : safe n0 (read_list l) any.
Proof.
  intros h Hh. unfold read_list. destruct (h !! l) as [[]|]; cbn; repeat split; auto; intros; exact I.
Qed.

Lemma safe_read_line (l : loc) : safe n0 (read_line l) any.
Proof.
  intros h Hh. unfold read_line. destruct (h !! l) as [[]|]; cbn; repeat split; auto; intros; exact I.
Qed.

Lemma safe_read_json (l : loc) : safe n0 (read_json l) any.
Proof.
  intros h Hh. unfold read_json. destruct (h !! l) as [[]|]; cbn; repeat split; auto; intros; exact I.
Qed.

(** An assignment into a list is safe when the list is a new one. *)
Lemma safe_write (l : loc) (cs : list Color) :
  fresh n0 l -> safe n0 (write_list l cs) any.
Proof.
  intros Hl h Hh. unfold write_list.
  destruct (h !! l) as [[]|]; cbn [fst snd]; repeat split; auto;
    try (intros; exact I).
  - rewrite length_insert. exact Hh.
  - intros l' Hl'. apply list_lookup_insert_ne. unfold fresh in Hl. lia.
Qed.

Ltac safe_bind_with lem := eapply safe_bind; [apply lem|cbv beta; intros].

(** [add_color_span] writes only to the list its own comprehension built,
    and what it returns is a new list. *)
Lemma safe_add_color_span_ref (colors : loc) (color_i start w : Z) :
  safe n0 (add_color_span_ref colors color_i start w) (fresh n0).
Proof.
  unfold add_color_span_ref.
  safe_bind_with safe_read_list.
  eapply (safe_bind _ _ any).
  { destruct (last_color_upto a (start + w)) as [p|[]]; try apply safe_raise.
    - apply safe_ret. exact I.
    - safe_bind_with safe_alloc. apply safe_ret. exact I. }
  intros [prev_color colors'] _.
  safe_bind_with safe_read_list.
  safe_bind_with safe_alloc.
  safe_bind_with safe_read_list.
  eapply safe_bind; [apply safe_write; assumption|cbv beta; intros].
  safe_bind_with safe_read_list.
  apply safe_alloc.
Qed.

Lemma safe_shift_colors (colors : loc) (prefix_len off : Z) (i todo : nat) :
  fresh n0 colors -> safe n0 (shift_colors colors prefix_len off i todo) any.
Proof.
  intros Hc. revert i. induction todo as [|n IH]; intros i; cbn [shift_colors].
  - apply safe_ret. exact I.
  - safe_bind_with safe_read_list.
    destruct (a !! i) as [c|]; [|apply safe_ret; exact I].
    eapply (safe_bind _ _ any); [|intros; apply IH].
    destruct (prefix_len <? fst c); [apply safe_write; assumption|apply safe_ret; exact I].
Qed.

Lemma safe_draw_line (self : loc) (row w : Z) (cursor_span : option Span) :
  safe n0 (draw_line self row w cursor_span) any.
Proof.
  unfold draw_line.
  safe_bind_with safe_read_line.
  safe_bind_with safe_read_list.
  eapply (safe_bind _ _ any).
  { destruct (len a0 =? 0); [eapply safe_weaken; [apply safe_alloc|]|apply safe_ret];
      unfold any; auto. }
  intros colors _.
  eapply (safe_bind _ _ any).
  { destruct (o_json a) as [j|]; [|apply safe_ret; exact I].
    safe_bind_with safe_read_json. apply safe_ret. exact I. }
  intros ann _.
  eapply (safe_bind _ _ any).
  { destruct ann as [an|]; [|apply safe_ret; exact I].
    destruct (type an) eqn:Ety; try (apply safe_ret; exact I);
      (destruct (entity an) as [e|]; [|apply safe_raise]);
      (destruct (collapsed e);
       [safe_bind_with safe_add_color_span_ref;
        safe_bind_with safe_add_color_span_ref; apply safe_ret; exact I|]);
      try (apply safe_ret; exact I).
    safe_bind_with safe_add_color_span_ref. apply safe_ret. exact I. }
  intros [text colors1] _.
  eapply (safe_bind _ _ any).
  { destruct ann as [an|]; [|apply safe_ret; exact I].
    destruct (type an); try (apply safe_ret; exact I).
    destruct (negb (o_offset a =? 0)); [|apply safe_ret; exact I].
    safe_bind_with safe_add_color_span_ref.
    safe_bind_with safe_read_list.
    eapply safe_bind; [apply safe_shift_colors; assumption|cbv beta; intros].
    apply safe_ret. exact I. }
  intros [text2 colors2] _.
  eapply (safe_bind _ _ any).
  { destruct (w <? len text2); [|apply safe_ret; exact I].
    safe_bind_with safe_add_color_span_ref. apply safe_ret. exact I. }
  intros [text3 colors3] _.
  eapply (safe_bind _ _ any).
  { destruct cursor_span as [sp|]; [|apply safe_ret; exact I].
    eapply safe_weaken; [apply safe_add_color_span_ref|]. unfold any; auto. }
  intros colors4 _.
  safe_bind_with safe_read_list.
  safe_bind_with (@safe_lift Color).
  apply safe_ret. exact I.
Qed.
End Frame.

(** C8. Whatever the store, the line drawn, the geometry and the cursor
    span, and whether [draw] returns or raises: the store after the call
    begins with the store before it, object for object. The line, its text
    and offset, the list of its colour breakpoints and its annotation are
    among these objects; everything [draw] changed it had built itself. *)
Theorem C8_draw_leaves_the_store (h : store) (self : loc) (row w : Z)
    (cursor_span : option Span) :
  take (length h) (draw_line self row w cursor_span h).1 = h.
Proof.
  destruct (safe_draw_line (length h) self row w cursor_span h (le_n _)) as [[Hlen Hold] _].
  apply list_eq. intros l.
  destruct (decide (l < length h)%nat) as [Hl|Hl].
  - rewrite lookup_take_lt by assumption. apply Hold. exact Hl.
  - rewrite lookup_take_ge by lia. symmetry. apply lookup_ge_None. lia.
Qed.

(** ** The annotator on the output of [json.dumps] *)

(** *** Text *)

Lemma len_cons {A} (x : A) (l : list A) : len (x :: l) = 1 + len l.
Proof. unfold len. cbn [length]. lia. Qed.

Lemma len_repeat {A} (x : A) (n : nat) : len (repeat x n) = Z.of_nat n.
Proof. unfold len. rewrite repeat_length. reflexivity. Qed.

Lemma lstrip_spaces (n : nat) (t : str) : lstrip (repeat SPACE n ++ t) = lstrip t.
Proof. induction n as [|n IH]; [reflexivity|]. cbn. exact IH. Qed.

Lemma lstrip_head (c : char) (t : str) : isspace c = false -> lstrip (c :: t) = c :: t.
Proof. intros H. cbn [lstrip]. rewrite H. reflexivity. Qed.

Lemma indentation_spaces (n : nat) (c : char) (t : str) :
  isspace c = false -> indentation (repeat SPACE n ++ c :: t) = Z.of_nat n.
Proof.
  intros H. unfold indentation. rewrite lstrip_spaces, lstrip_head by assumption.
  rewrite len_app, len_repeat. lia.
Qed.

Lemma rstrip_last (t : str) (c : char) : isspace c = false -> rstrip (t ++ [c]) = t ++ [c].
Proof.
  intros H. unfold rstrip. rewrite rev_app_distr. cbn [rev app].
  rewrite lstrip_head by assumption. cbn [rev]. rewrite rev_involutive. reflexivity.
Qed.

Lemma py_index_head {A} (x : A) (l : list A) : py_index (x :: l) 0 = Ok x.
Proof.
  unfold py_index, py_pos. rewrite len_cons. pose proof (len_nonneg l).
  destruct (0 <=? 0) eqn:E1; [|lia]. destruct (0 <? 1 + len l) eqn:E2; [|lia].
  reflexivity.
Qed.

Lemma py_slice_from {A} (a : Z) (l : list A) :
  0 <= a <= len l -> py_slice (Some a) (Some (len l)) l = drop (Z.to_nat a) l.
Proof.
  intros Ha. unfold py_slice, slice_bound.
  destruct (a <? 0) eqn:E1; [lia|]. destruct (len l <? 0) eqn:E2; [lia|].
  rewrite !Z.min_l by lia. rewrite ?Z.min_id.
  apply take_ge. rewrite length_drop. unfold len in *. lia.
Qed.

Lemma drop_len_app {A} (l1 l2 : list A) : drop (Z.to_nat (len l1)) (l1 ++ l2) = l2.
Proof. unfold len. rewrite Nat2Z.id. apply drop_app_length. Qed.

(** *** The regular expression *)

Lemma kv_match_bare (n : nat) (c : char) (t : str) :
  isspace c = false -> c <> QUOTE -> kv_match (repeat SPACE n ++ c :: t) = None.
Proof.
  intros Hs Hq. unfold kv_match. rewrite lstrip_spaces, lstrip_head by assumption.
  destruct (N.eqb_spec c QUOTE); [contradiction|reflexivity].
Qed.

Lemma key_end_skip (a t : str) (j : Z) :
  Forall (fun c => c <> QUOTE) a -> key_end (a ++ t) j = key_end t (j + len a).
Proof.
  intros Ha. revert j. induction Ha as [|c a Hc Ha IH]; intros j; cbn [app key_end].
  - change (len []) with 0. f_equal. lia.
  - destruct (N.eqb_spec c QUOTE); [contradiction|].
    rewrite IH, len_cons. f_equal. lia.
Qed.

Lemma hex_digit_bounds (n : N) : (n < 16 -> 48 <= hex_digit n <= 102)%N.
Proof. unfold hex_digit. destruct (N.ltb_spec n 10); lia. Qed.

Lemma mod16_lt (n : N) : (n mod 16 < 16)%N.
Proof. apply N.mod_lt. discriminate. Qed.

(** An escaped character is made of printable ASCII; it begins with the
    character itself or with a backslash, and holds a quote only when it
    escapes a quote. *)
Lemma hex4_printable (n : N) : Forall (fun c => (48 <= c <= 102)%N) (hex4 n).
Proof.
  unfold hex4. repeat constructor; apply hex_digit_bounds, mod16_lt.
Qed.

Lemma escape_char_printable (c : char) :
  Forall (fun x => (32 <= x <= 126)%N) (escape_char c).
Proof.
  unfold escape_char, BACKSLASH.
  repeat match goal with
         | |- context [if ?b then _ else _] => destruct b eqn:?
         end;
    repeat (apply Forall_app; split);
    repeat (apply Forall_cons; split);
    try apply Forall_nil; try lia;
    try (match goal with
         | |- context [hex_digit (?x mod 16)] =>
             pose proof (hex_digit_bounds _ (mod16_lt x)); lia
         end).
  apply andb_true_iff in Heqb6 as [H1 H2].
  apply N.leb_le in H1, H2. lia.
Qed.

Lemma escape_char_no_quote (c : char) :
  c <> QUOTE -> Forall (fun x => x <> QUOTE) (escape_char c).
Proof.
  intros Hc. unfold escape_char, BACKSLASH, QUOTE in *.
  repeat match goal with
         | |- context [if ?b then _ else _] => destruct b eqn:?
         end;
    repeat (apply Forall_app; split);
    repeat (apply Forall_cons; split);
    try apply Forall_nil; try lia;
    try (match goal with
         | |- context [hex_digit (?x mod 16)] =>
             pose proof (hex_digit_bounds _ (mod16_lt x)); lia
         end).
  all: try (apply N.eqb_eq in Heqb; contradiction).
  all: try (apply N.eqb_neq in Heqb; exact Heqb).
Qed.

Lemma escape_char_head (c : char) :
  exists h t, escape_char c = h :: t /\ (h = BACKSLASH \/ (h = c /\ (32 <= c <= 126)%N)).
Proof.
  unfold escape_char.
  repeat match goal with
         | |- context [if ?b then _ else _] => destruct b eqn:?
         end; try (eexists _, _; split; [reflexivity|left; reflexivity]).
  - eexists _, _; split; [reflexivity|]. right. split; [reflexivity|].
    apply andb_true_iff in Heqb6 as [H1 H2]. apply N.leb_le in H1, H2. lia.
Qed.

Lemma escape_char_shape (c : char) :
  (exists t, escape_char c = BACKSLASH :: t)
  \/ (escape_char c = [c] /\ (32 <= c <= 126)%N).
Proof.
  unfold escape_char.
  repeat match goal with
         | |- context [if ?b then _ else _] => destruct b eqn:?
         end; try (left; eexists; reflexivity).
  right. split; [reflexivity|].
  apply andb_true_iff in Heqb6 as [H1 H2]. apply N.leb_le in H1, H2. lia.
Qed.

Lemma isspace_printable (c : char) : (32 <= c <= 126)%N -> isspace c = true -> c = SPACE.
Proof.
  intros Hc H. unfold isspace in H. cbn [existsb] in H.
  repeat (apply orb_true_iff in H as [H|H]); try discriminate;
    apply N.eqb_eq in H; unfold SPACE; lia.
Qed.

Lemma isspace_SPACE : isspace SPACE = true.
Proof. reflexivity. Qed.

(** After the escaped quote of a good key the separator does not match. *)
Lemma sep_len_escaped (k tail : str) :
  match k with
  | c1 :: k'' =>
      negb (N.eqb c1 COLON)
      && negb (N.eqb c1 SPACE && match k'' with c2 :: _ => N.eqb c2 COLON | [] => false end)
  | [] => true
  end = true ->
  sep_len (escaped k ++ QUOTE :: tail) = None.
Proof.
  destruct k as [|c1 k'']; [reflexivity|].
  intros H. apply andb_true_iff in H as [H1 H2].
  apply negb_true_iff, N.eqb_neq in H1. apply negb_true_iff in H2.
  change (escaped (c1 :: k'')) with (escape_char c1 ++ escaped k'').
  rewrite <- app_assoc.
  destruct (escape_char_shape c1) as [[t ->]|[-> Hp]].
  - reflexivity.
  - cbn [app sep_len]. destruct (isspace c1) eqn:Es.
    + apply isspace_printable in Es; [|assumption]. subst c1.
      rewrite N.eqb_refl in H2. cbn [andb] in H2.
      destruct k'' as [|c2 k3]; [reflexivity|].
      apply N.eqb_neq in H2.
      change (escaped (c2 :: k3)) with (escape_char c2 ++ escaped k3).
      rewrite <- app_assoc.
      destruct (escape_char_shape c2) as [[t ->]|[-> Hp2]]; cbn [app].
      * reflexivity.
      * destruct (N.eqb_spec c2 COLON); [contradiction|reflexivity].
    + destruct (N.eqb_spec c1 COLON); [contradiction|reflexivity].
Qed.

(** On a good key the lazy group stops at the quote that closes the key. *)
Lemma key_end_escaped (k tail : str) (j : Z) :
  key_ok k = true ->
  key_end (escaped k ++ QUOTE :: COLON :: SPACE :: tail) j = Some (j + len (escaped k), 2).
Proof.
  revert j. induction k as [|c k IH]; intros j Hk.
  - change (escaped []) with (@nil char). change (len (@nil char)) with 0.
    rewrite Z.add_0_r. reflexivity.
  - cbn [key_ok] in Hk. apply andb_true_iff in Hk as [Hc Hk].
    change (escaped (c :: k)) with (escape_char c ++ escaped k).
    rewrite <- app_assoc, len_app.
    destruct (N.eqb_spec c QUOTE) as [->|Hne].
    + change (escape_char QUOTE) with [BACKSLASH; QUOTE]. cbn [app key_end].
      change (N.eqb BACKSLASH QUOTE) with false. cbn iota.
      rewrite N.eqb_refl.
      rewrite (sep_len_escaped k (COLON :: SPACE :: tail) Hc).
      rewrite IH by assumption. change (len [BACKSLASH; QUOTE]) with 2.
      f_equal. f_equal. lia.
    + rewrite key_end_skip by (apply escape_char_no_quote; assumption).
      rewrite IH by assumption. f_equal. f_equal. lia.
Qed.

(** *** The value of a line *)

Lemma trim_comma (tok suf : str) :
  suffix_ok suf -> last_ok tok ->
  (last <- py_index (tok ++ suf) (-1);;
   if N.eqb last COMMA
   then Ok (py_slice None (Some (-1)) (tok ++ suf))
   else Ok (tok ++ suf))%result = Ok tok.
Proof.
  intros [->| ->] (tok' & cl & -> & Hc & _).
  - rewrite app_nil_r, py_index_last. cbn [rbind].
    destruct (N.eqb_spec cl COMMA); [contradiction|reflexivity].
  - rewrite py_index_last. cbn [rbind]. rewrite N.eqb_refl.
    rewrite py_slice_init. reflexivity.
Qed.

Lemma read_value_shape (line : str) (ks : option Span) (a : Z) (tok suf : str) :
  match kv_match line with
  | Some (k, v) => (Some k, v)
  | None => (None, (len line - len (lstrip line), Z.max 0 (len (rstrip line))))
  end = (ks, (a, len line)) ->
  0 <= a <= len line ->
  drop (Z.to_nat a) line = tok ++ suf ->
  suffix_ok suf -> last_ok tok ->
  exists vs, read_value line = Ok (ks, vs, tok).
Proof.
  intros Hm Ha Hd Hsuf Htok. unfold read_value. rewrite Hm. cbn [fst snd].
  rewrite py_slice_from, Hd by assumption.
  pose proof (trim_comma tok suf Hsuf Htok) as Ht.
  destruct (py_index (tok ++ suf) (-1)) as [l|]; [|discriminate].
  cbn [rbind] in *. destruct (N.eqb l COMMA); injection Ht as Ht; rewrite Ht; eauto.
Qed.

(** A line that does not begin with a quote: the value is the token. *)
Lemma read_value_bare (n : nat) (c : char) (t suf : str) :
  isspace c = false -> c <> QUOTE -> last_ok (c :: t) -> suffix_ok suf ->
  exists vs, read_value (repeat SPACE n ++ (c :: t) ++ suf) = Ok (None, vs, c :: t).
Proof.
  intros Hs Hq Hl Hsuf.
  set (line := repeat SPACE n ++ (c :: t) ++ suf).
  assert (Hr : rstrip line = line).
  { destruct Hl as (tok' & cl & Ht & _ & Hcl). unfold line. rewrite Ht.
    destruct Hsuf as [->| ->].
    - rewrite app_nil_r, app_assoc. apply rstrip_last. exact Hcl.
    - rewrite !app_assoc. apply rstrip_last. reflexivity. }
  apply (read_value_shape line None (Z.of_nat n) (c :: t) suf); try assumption.
  - unfold line at 1. cbn [app]. rewrite kv_match_bare by assumption.
    rewrite Hr. fold line.
    assert (Hls : lstrip line = (c :: t) ++ suf).
    { unfold line. rewrite lstrip_spaces. cbn [app]. apply lstrip_head. exact Hs. }
    rewrite Hls. f_equal. f_equal.
    + unfold line. rewrite len_app, len_repeat. lia.
    + pose proof (len_nonneg line). lia.
  - unfold line. rewrite len_app, len_repeat. pose proof (len_nonneg ((c :: t) ++ suf)). lia.
  - unfold line. rewrite Nat2Z.id.
    rewrite <- (repeat_length SPACE n) at 1. apply drop_app_length.
Qed.

Lemma kv_match_key (n : nat) (k rest : str) :
  key_ok k = true ->
  kv_match (repeat SPACE n ++ QUOTE :: escaped k ++ QUOTE :: COLON :: SPACE :: rest)
  = Some ((Z.of_nat n, Z.of_nat n + 1 + len (escaped k) + 1),
          (Z.of_nat n + 1 + len (escaped k) + 1 + 2,
           len (repeat SPACE n ++ QUOTE :: escaped k ++ QUOTE :: COLON :: SPACE :: rest))).
Proof.
  intros Hk. unfold kv_match.
  rewrite indentation_spaces by reflexivity.
  rewrite lstrip_spaces, lstrip_head by reflexivity.
  rewrite N.eqb_refl, key_end_escaped by assumption.
  do 3 f_equal; lia.
Qed.

(** A line with a good key: the value is the token behind the separator. *)
Lemma read_value_key (m : nat) (k tok suf : str) :
  key_ok k = true -> last_ok tok -> suffix_ok suf ->
  exists ks vs,
    read_value ((indent_str m ++ encode_basestring_ascii k ++ py ": ") ++ tok ++ suf)
      = Ok (Some ks, vs, tok).
Proof.
  intros Hk Hl Hsuf.
  set (pre := indent_str m ++ encode_basestring_ascii k ++ py ": ").
  set (line := pre ++ tok ++ suf).
  assert (Hline : line = repeat SPACE (4 * m)
                           ++ QUOTE :: escaped k ++ QUOTE :: COLON :: SPACE :: (tok ++ suf)).
  { unfold line, pre, indent_str, encode_basestring_ascii, escaped.
    cbn [app]. rewrite <- !app_assoc. cbn [app]. rewrite <- !app_assoc. reflexivity. }
  assert (Hpre : len pre = Z.of_nat (4 * m) + 1 + len (escaped k) + 1 + 2).
  { unfold pre, indent_str, encode_basestring_ascii. fold (escaped k).
    rewrite !len_app, len_repeat, len_cons, len_app. change (len [QUOTE]) with 1.
    change (len (py ": ")) with 2. lia. }
  pose proof (kv_match_key (4 * m) k (tok ++ suf) Hk) as Hm.
  rewrite <- Hline, <- Hpre in Hm.
  eexists.
  apply (read_value_shape line _ (len pre) tok suf); try assumption.
  - rewrite Hm. reflexivity.
  - unfold line. rewrite len_app. pose proof (len_nonneg pre).
    pose proof (len_nonneg (tok ++ suf)). lia.
  - apply drop_len_app.
Qed.

(** The separator ends on a white space or on the colon. *)
Lemma sep_len_last (t : str) (n : Z) :
  sep_len t = Some n ->
  1 <= n /\ exists c, t !! Z.to_nat (n - 1) = Some c /\ (isspace c = true \/ c = COLON).
Proof.
  unfold sep_len, opt_space.
  destruct t as [|c1 t1]; [discriminate|].
  destruct (isspace c1) eqn:E1.
  - destruct t1 as [|c2 t2]; [discriminate|].
    destruct (N.eqb_spec c2 COLON) as [->|]; [|discriminate].
    destruct t2 as [|c3 t3]; [|destruct (isspace c3) eqn:E3];
      intros [= <-]; (split; [lia|]); cbn; eauto.
  - destruct (N.eqb_spec c1 COLON) as [->|]; [|discriminate].
    destruct t1 as [|c2 t2]; [|destruct (isspace c2) eqn:E2];
      intros [= <-]; (split; [lia|]); cbn; eauto.
Qed.

Lemma key_end_sep_pos (t : str) (j0 j n : Z) :
  key_end t j0 = Some (j, n) ->
  j0 <= j /\ 1 <= n
  /\ exists c, t !! Z.to_nat (j + n - j0) = Some c /\ (isspace c = true \/ c = COLON).
Proof.
  revert j0. induction t as [|c0 t IH]; intros j0; cbn [key_end]; [discriminate|].
  assert (Hrec : key_end t (j0 + 1) = Some (j, n) ->
                 j0 <= j /\ 1 <= n
                 /\ exists c, (c0 :: t) !! Z.to_nat (j + n - j0) = Some c
                              /\ (isspace c = true \/ c = COLON)).
  { intros H. destruct (IH _ H) as (H1 & H2 & c & Hc & Hsep).
    split; [lia|]. split; [lia|]. exists c. split; [|exact Hsep].
    replace (Z.to_nat (j + n - j0)) with (S (Z.to_nat (j + n - (j0 + 1)))) by lia.
    exact Hc. }
  destruct (N.eqb c0 QUOTE); [|exact Hrec].
  destruct (sep_len t) as [n'|] eqn:Es; [|exact Hrec].
  intros [= <- <-]. destruct (sep_len_last _ _ Es) as (H1 & c & Hc & Hsep).
  split; [lia|]. split; [lia|]. exists c. split; [|exact Hsep].
  replace (Z.to_nat (j0 + n' - j0)) with (S (Z.to_nat (n' - 1))) by lia.
  exact Hc.
Qed.

Lemma py_index_last_nonempty {A} (l : list A) :
  l <> [] -> exists l' x, l = l' ++ [x] /\ py_index l (-1) = Ok x.
Proof.
  intros H. destruct (exists_last H) as (l' & x & ->).
  exists l', x. split; [reflexivity|apply py_index_last].
Qed.

(** An array element that is a string: whatever the regular expression
    makes of the text, the value ends with the closing quote. *)
Lemma read_value_string (n : nat) (body suf : str) :
  Forall (fun c => (32 <= c <= 126)%N) body -> suffix_ok suf ->
  exists ks vs val,
    read_value (repeat SPACE n ++ QUOTE :: body ++ QUOTE :: suf) = Ok (ks, vs, val ++ [QUOTE]).
Proof.
  intros Hb Hsuf.
  set (line := repeat SPACE n ++ QUOTE :: body ++ QUOTE :: suf).
  assert (Hlen : len line = Z.of_nat n + 1 + len body + 1 + len suf).
  { unfold line. rewrite len_app, len_repeat, len_cons, len_app, len_cons. lia. }
  assert (Hls : lstrip line = QUOTE :: body ++ QUOTE :: suf).
  { unfold line. rewrite lstrip_spaces. apply lstrip_head. reflexivity. }
  assert (Hind : indentation line = Z.of_nat n).
  { unfold line. apply indentation_spaces. reflexivity. }
  assert (Hr : rstrip line = line).
  { unfold line. destruct Hsuf as [->| ->].
    - replace (repeat SPACE n ++ QUOTE :: body ++ [QUOTE])
        with ((repeat SPACE n ++ QUOTE :: body) ++ [QUOTE])
        by (rewrite <- app_assoc; reflexivity).
      apply rstrip_last. reflexivity.
    - replace (repeat SPACE n ++ QUOTE :: body ++ [QUOTE; COMMA])
        with ((repeat SPACE n ++ QUOTE :: body ++ [QUOTE]) ++ [COMMA])
        by (rewrite <- !app_assoc; cbn [app]; rewrite <- app_assoc; reflexivity).
      apply rstrip_last. reflexivity. }
  destruct (kv_match line) as [[k v]|] eqn:Em.
  - pose proof Em as Em0.
    unfold kv_match in Em. rewrite Hls, Hind in Em.
    change (N.eqb QUOTE QUOTE) with true in Em. cbn iota in Em.
    destruct (key_end (body ++ QUOTE :: suf) (Z.of_nat n + 1)) as [[j nn]|] eqn:Ek;
      [|discriminate].
    injection Em as <- <-.
    destruct (key_end_sep_pos _ _ _ _ Ek) as (Hj & Hn & c & Hc & Hsep).
    set (p := Z.to_nat (j + nn - (Z.of_nat n + 1))) in *.
    assert (Hp : (p < length body)%nat).
    { destruct (decide (p < length body)%nat) as [|Hge]; [assumption|exfalso].
      rewrite lookup_app_r in Hc by lia.
      destruct (p - length body)%nat as [|[|q]] eqn:Eq; cbn in Hc.
      - injection Hc as <-. destruct Hsep as [H|H]; discriminate H.
      - destruct Hsuf as [->| ->]; cbn in Hc; [discriminate|].
        injection Hc as <-. destruct Hsep as [H|H]; discriminate H.
      - destruct Hsuf as [->| ->]; cbn in Hc; discriminate. }
    exists (Some (Z.of_nat n, j + 1)).
    destruct (read_value_shape line (Some (Z.of_nat n, j + 1)) (j + 1 + nn)
                (drop (S p) body ++ [QUOTE]) suf) as (vs & Hv).
    + rewrite Em0. reflexivity.
    + split; [lia|]. rewrite Hlen. pose proof (len_nonneg suf). unfold len in *. lia.
    + unfold line. replace (Z.to_nat (j + 1 + nn)) with (n + S (S p))%nat by lia.
      rewrite <- (repeat_length SPACE n) at 1.
      rewrite drop_app_add. cbn [drop]. rewrite drop_app_le by lia.
      rewrite <- app_assoc. reflexivity.
    + exact Hsuf.
    + exists (drop (S p) body), QUOTE. repeat split. discriminate.
    + eauto.
  - exists None.
    destruct (read_value_shape line None (Z.of_nat n) ((QUOTE :: body) ++ [QUOTE]) suf)
      as (vs & Hv).
    + rewrite Em, Hr, Hls. f_equal. f_equal.
      * rewrite Hlen. rewrite !len_cons, len_app, len_cons. lia.
      * pose proof (len_nonneg line). lia.
    + rewrite Hlen. pose proof (len_nonneg suf). pose proof (len_nonneg body). lia.
    + unfold line. rewrite Nat2Z.id. rewrite <- (repeat_length SPACE n) at 1.
      rewrite drop_app_length. cbn [app]. rewrite <- app_assoc. reflexivity.
    + exact Hsuf.
    + exists (QUOTE :: body), QUOTE. repeat split. discriminate.
    + eauto.
Qed.

(** *** One iteration *)

Lemma str_eqb_false (a b : str) : a <> b -> str_eqb a b = false.
Proof. intros H. unfold str_eqb. apply bool_decide_eq_false_2. exact H. Qed.

(** A leaf leaves the lines and the stack alone; an empty array comes out
    as an entity with no child. *)
Lemma classify_leaf (num i : Z) (lines : list Line) (stack : list Z)
    (ks : option Span) (vs : Span) (val : str) :
  leaf_val val ->
  exists ann,
    classify num i lines stack ks vs val = Ok (ann, lines, stack)
    /\ (val = py "[]" -> entity ann = Some empty_entity).
Proof.
  intros (Hne & H1 & H2 & H3 & H4). unfold classify.
  rewrite !str_eqb_false by assumption.
  unfold str_eqb. destruct (bool_decide (val = py "[]")) eqn:E1.
  { cbn [orb]. eexists. split; [reflexivity|]. reflexivity. }
  apply bool_decide_eq_false in E1.
  destruct (bool_decide (val = py "{}")); cbn [orb].
  { eexists. split; [reflexivity|]. intros; contradiction. }
  destruct (bool_decide (val = py "null")).
  { eexists. split; [reflexivity|]. intros; contradiction. }
  destruct (bool_decide (val = py "true") || bool_decide (val = py "false")).
  { eexists. split; [reflexivity|]. intros; contradiction. }
  destruct val as [|c0 val']; [contradiction|].
  rewrite py_index_head. cbn [rbind].
  destruct (py_index_last_nonempty (c0 :: val') Hne) as (l' & x & _ & ->).
  cbn [rbind].
  destruct (N.eqb c0 QUOTE); [destruct (N.eqb x QUOTE)|];
    (eexists; split; [reflexivity|]; intros; contradiction).
Qed.

Lemma finish_line_s (line : str) (ann : JsonAnnotation) :
  s (finish_line false [] line ann) = line.
Proof. reflexivity. Qed.

Lemma finish_line_json (merge : bool) (old_s line : str) (ann : JsonAnnotation) :
  exists a, json (finish_line merge old_s line ann) = Some a
            /\ entity a = entity ann /\ type a = type ann.
Proof. unfold finish_line. destruct merge; cbn; eauto. Qed.

Lemma finish_line_child_count (merge : bool) (old_s line : str) (ann : JsonAnnotation) :
  line_child_count (finish_line merge old_s line ann) = child_count <$> entity ann.
Proof.
  unfold line_child_count, finish_line. destruct merge; cbn; destruct (entity ann); reflexivity.
Qed.

(** An iteration that is not the first: nothing is merged. *)
Lemma pj_step_run (num : Z) (flush : bool) (st : pj_state) (i : Z) (line : str)
    (ks : option Span) (vs : Span) (val : str) (ann : JsonAnnotation)
    (lines' : list Line) (stack' : list Z) :
  lstrip line <> [] ->
  read_value line = Ok (ks, vs, val) ->
  classify num i (pj_lines st) (pj_stack st) ks vs val = Ok (ann, lines', stack') ->
  1 <= i ->
  pj_step num flush st i line
  = Ok {| pj_content := pj_content st;
          pj_lines := lines' ++ [finish_line false [] line ann];
          pj_stack := stack' |}.
Proof.
  intros Hl Hv Hc Hi. unfold pj_step.
  destruct (lstrip line) as [|c t] eqn:El; [contradiction|].
  rewrite len_cons. pose proof (len_nonneg t).
  destruct (1 + len t =? 0) eqn:E; [lia|].
  rewrite Hv. cbn [rbind]. rewrite Hc. cbn [rbind].
  destruct (i =? 0) eqn:Ei; [lia|]. cbn [andb rbind]. reflexivity.
Qed.

(** The first iteration: the text of the last display line may come in
    front; the annotation keeps its entity. *)
Lemma pj_step_first (num : Z) (flush : bool) (st : pj_state) (line : str)
    (ks : option Span) (vs : Span) (val : str) (ann : JsonAnnotation)
    (lines' : list Line) (stack' : list Z) :
  lstrip line <> [] ->
  read_value line = Ok (ks, vs, val) ->
  classify num 0 (pj_lines st) (pj_stack st) ks vs val = Ok (ann, lines', stack') ->
  exists content' text,
    pj_step num flush st 0 line
    = Ok {| pj_content := content';
            pj_lines := lines' ++ [finish_line
                                    (negb flush && negb (len (pj_content st) =? 0))
                                    text line ann];
            pj_stack := stack' |}
    /\ (if negb flush && negb (len (pj_content st) =? 0)
        then exists tail, last (pj_content st) = Some tail /\ text = s tail
                          /\ pj_content st = content' ++ [tail]
        else content' = pj_content st).
Proof.
  intros Hl Hv Hc. unfold pj_step.
  destruct (lstrip line) as [|c t] eqn:El; [contradiction|].
  rewrite len_cons. pose proof (len_nonneg t).
  destruct (1 + len t =? 0) eqn:E; [lia|].
  rewrite Hv. cbn [rbind]. rewrite Hc. cbn [rbind].
  change (0 =? 0) with true. cbn [andb].
  destruct (negb flush && negb (len (pj_content st) =? 0)) eqn:Em.
  - destruct (pj_content st) as [|x c0] eqn:Ec using rev_ind.
    { apply andb_true_iff in Em as [_ Em]. discriminate Em. }
    rewrite py_index_last, py_slice_init. cbn [rbind].
    eexists _, _. split; [reflexivity|].
    exists x. rewrite last_snoc. auto.
  - cbn [rbind]. eexists _, _. split; [reflexivity|]. reflexivity.
Qed.

(** *** The tokens of [json.dumps] *)

Lemma atom_char_facts (c : char) :
  atom_char c = true ->
  isspace c = false /\ c <> QUOTE /\ c <> COMMA /\ is_closer c = false
  /\ c <> 91%N /\ c <> 123%N /\ is_linebreak c = false.
Proof.
  intros H. unfold atom_char in H. cbn [py list_ascii_of_string map existsb] in H.
  repeat (apply orb_true_iff in H as [H|H]); try discriminate;
    apply N.eqb_eq in H; subst c; repeat split; discriminate.
Qed.

Lemma atom_chars_tok (t : str) : t <> [] -> forallb atom_char t = true -> atom_tok t.
Proof.
  intros Hne Hall. rewrite forallb_forall in Hall.
  assert (Hin : forall c, In c t -> atom_char c = true) by exact Hall.
  destruct t as [|c t']; [contradiction|].
  destruct (atom_char_facts c (Hin c (or_introl eq_refl)))
    as (Hs & Hq & Hcm & Hcl & Hb1 & Hb2 & _).
  split; [eauto 10|].
  split.
  { destruct (exists_last Hne) as (l' & x & E). rewrite E. exists l', x.
    destruct (atom_char_facts x) as (Hs' & _ & Hcm' & _).
    { apply Hin. rewrite E. apply in_app_iff. right. left. reflexivity. }
    auto. }
  split.
  { unfold is_closer in Hcl. apply orb_false_iff in Hcl as [Hc1 Hc2].
    apply N.eqb_neq in Hc1, Hc2.
    repeat split; try discriminate; intros E; cbn in E; injection E as E1 E2;
      lia. }
  apply Forall_forall. intros x Hx. apply list_elem_of_In in Hx. apply (atom_char_facts x). auto.
Qed.

Lemma py_String (a : ascii) (t : string) : py (String a t) = N_of_ascii a :: py t.
Proof. reflexivity. Qed.

Lemma uint_chars (d : Decimal.uint) :
  forallb atom_char (py (NilEmpty.string_of_uint d)) = true.
Proof.
  induction d; cbn [NilEmpty.string_of_uint]; rewrite ?py_String; cbn [forallb];
    rewrite ?IHd; reflexivity.
Qed.

Lemma int_repr_tok (n : Z) : atom_tok (int_repr n).
Proof.
  unfold int_repr. apply atom_chars_tok.
  - destruct (Z.to_int n) as [d|d]; cbn [NilZero.string_of_int]; [|discriminate].
    unfold NilZero.string_of_uint. destruct d; discriminate.
  - destruct (Z.to_int n) as [d|d]; cbn [NilZero.string_of_int];
      rewrite ?py_String; cbn [forallb];
      unfold NilZero.string_of_uint; destruct d; try reflexivity;
      rewrite ?(uint_chars (Decimal.D0 d)), ?(uint_chars (Decimal.D1 d)),
        ?(uint_chars (Decimal.D2 d)), ?(uint_chars (Decimal.D3 d)),
        ?(uint_chars (Decimal.D4 d)), ?(uint_chars (Decimal.D5 d)),
        ?(uint_chars (Decimal.D6 d)), ?(uint_chars (Decimal.D7 d)),
        ?(uint_chars (Decimal.D8 d)), ?(uint_chars (Decimal.D9 d)); reflexivity.
Qed.

Lemma float_chars (c : char) : float_char c = true -> atom_char c = true.
Proof.
  intros H. unfold float_char in H. cbn [py list_ascii_of_string map existsb] in H.
  repeat (apply orb_true_iff in H as [H|H]); try discriminate;
    apply N.eqb_eq in H; subst c; reflexivity.
Qed.

Lemma float_tok (r : str) : float_ok r = true -> atom_tok r.
Proof.
  intros H. unfold float_ok in H. destruct r as [|c r']; [discriminate|].
  apply atom_chars_tok; [discriminate|].
  rewrite forallb_forall in *. intros x Hx. apply float_chars, H, Hx.
Qed.

Lemma literal_tok (t : str) :
  In t [py "null"; py "true"; py "false"; py "[]"; py "{}"] -> atom_tok t.
Proof.
  intros H. cbn [In] in H.
  destruct H as [<-|[<-|[<-|[<-|[<-|[]]]]]];
    try (apply atom_chars_tok; [discriminate|reflexivity]).
  - split; [exists 91%N, [93%N]; repeat split; discriminate|].
    split; [exists [91%N], 93%N; repeat split; discriminate|].
    split; [repeat split; discriminate|repeat constructor].
  - split; [exists 123%N, [125%N]; repeat split; discriminate|].
    split; [exists [123%N], 125%N; repeat split; discriminate|].
    split; [repeat split; discriminate|repeat constructor].
Qed.

Lemma escaped_printable (t : str) : Forall (fun c => (32 <= c <= 126)%N) (escaped t).
Proof.
  unfold escaped. induction t as [|c t IH]; cbn [map concat]; [constructor|].
  apply Forall_app. split; [apply escape_char_printable|exact IH].
Qed.

(** The text of a leaf: an atom, or a string between its quotes. *)
Lemma leaf_tok_cases (level : nat) (v : pyjson) :
  is_leaf v -> wf_json v = true ->
  atom_tok (dumps_at level v)
  \/ exists body, dumps_at level v = QUOTE :: body ++ [QUOTE]
                  /\ Forall (fun c => (32 <= c <= 126)%N) body.
Proof.
  intros Hl Hw. destruct v as [| [|] |n|r|t|[|x items]|[|kx items]];
    cbn [dumps_at]; try contradiction;
    try (left; apply literal_tok; cbn [In]; tauto).
  - left. apply int_repr_tok.
  - left. apply float_tok. exact Hw.
  - right. exists (escaped t). split; [reflexivity|apply escaped_printable].
Qed.

Lemma line_head (level : nat) (pre tok suf : str) :
  prefix_ok level pre ->
  (exists c t, tok = c :: t /\ isspace c = false /\ is_closer c = false) ->
  exists c' t', pre ++ tok ++ suf = indent_str level ++ c' :: t'
                /\ isspace c' = false /\ is_closer c' = false.
Proof.
  intros Hp (c & t & -> & Hs & Hc). destruct Hp as [|k Hk].
  - exists c, (t ++ suf). auto.
  - exists QUOTE. eexists. split; [|split; reflexivity].
    unfold encode_basestring_ascii. rewrite <- !app_assoc. cbn [app]. reflexivity.
Qed.

Lemma line_lstrip (level : nat) (c : char) (t : str) :
  isspace c = false ->
  lstrip (indent_str level ++ c :: t) = c :: t
  /\ indentation (indent_str level ++ c :: t) = 4 * Z.of_nat level.
Proof.
  intros Hs. unfold indent_str. rewrite lstrip_spaces, lstrip_head by assumption.
  split; [reflexivity|]. rewrite indentation_spaces by assumption. lia.
Qed.

Lemma string_leaf_val (val : str) : leaf_val (val ++ [QUOTE]).
Proof.
  repeat split; destruct val as [|c [|c' val']]; cbn; discriminate.
Qed.

(** The value the annotator reads on the line of a leaf is a leaf value,
    and that of an empty array is [[]]. *)
Lemma leaf_value (level : nat) (pre : str) (v : pyjson) (suf : str) :
  is_leaf v -> wf_json v = true -> prefix_ok level pre -> suffix_ok suf ->
  lstrip (pre ++ dumps_at level v ++ suf) <> []
  /\ exists ks vs val,
       read_value (pre ++ dumps_at level v ++ suf) = Ok (ks, vs, val)
       /\ leaf_val val
       /\ (v = JList [] -> val = py "[]").
Proof.
  intros Hl Hw Hp Hsuf.
  destruct (leaf_tok_cases level v Hl Hw) as [Ha|(body & Hb & Hpr)].
  - destruct Ha as ((c & t & Et & Hs & Hq & Hc) & Hlast & Hleaf & _).
    split.
    { destruct (line_head level pre (dumps_at level v) suf Hp) as (c' & t' & -> & Hs' & _);
        [eauto 10|].
      rewrite (proj1 (line_lstrip level c' t' Hs')). discriminate. }
    assert (Hempty : v = JList [] -> dumps_at level v = py "[]") by (intros ->; reflexivity).
    destruct Hp as [|k Hk].
    + rewrite Et in *. unfold indent_str.
      destruct (read_value_bare (4 * level) c t suf Hs Hq Hlast Hsuf) as (vs & Hv).
      eauto 10.
    + destruct (read_value_key level k (dumps_at level v) suf Hk Hlast Hsuf)
        as (ks & vs & Hv).
      eauto 10.
  - rewrite Hb.
    assert (Hne : v = JList [] -> False).
    { intros ->. cbn in Hb. discriminate Hb. }
    split.
    { destruct (line_head level pre (QUOTE :: body ++ [QUOTE]) suf Hp)
        as (c' & t' & -> & Hs' & _); [exists QUOTE; eauto|].
      rewrite (proj1 (line_lstrip level c' t' Hs')). discriminate. }
    destruct Hp as [|k Hk].
    + unfold indent_str.
      destruct (read_value_string (4 * level) body suf Hpr Hsuf) as (ks & vs & val & Hv).
      replace ((QUOTE :: body ++ [QUOTE]) ++ suf) with (QUOTE :: body ++ QUOTE :: suf)
        by (cbn [app]; rewrite <- app_assoc; reflexivity).
      exists ks, vs, (val ++ [QUOTE]). split; [exact Hv|].
      split; [apply string_leaf_val|]. intros E. destruct (Hne E).
    + destruct (read_value_key level k (QUOTE :: body ++ [QUOTE]) suf Hk) as (ks & vs & Hv);
        [exists (QUOTE :: body), QUOTE; repeat split; discriminate|assumption|].
      exists (Some ks), vs, (QUOTE :: body ++ [QUOTE]). split; [exact Hv|].
      split; [apply (string_leaf_val (QUOTE :: body))|].
      intros E. destruct (Hne E).
Qed.

(** The iteration on the line of a leaf, not the first line of the output:
    one line is appended, with the text of the line. *)
Lemma leaf_step (num : Z) (flush : bool) (st : pj_state) (i : Z) (level : nat)
    (pre : str) (v : pyjson) (suf : str) :
  is_leaf v -> wf_json v = true -> prefix_ok level pre -> suffix_ok suf -> 1 <= i ->
  exists ln,
    pj_step num flush st i (pre ++ dumps_at level v ++ suf)
    = Ok {| pj_content := pj_content st; pj_lines := pj_lines st ++ [ln];
            pj_stack := pj_stack st |}
    /\ s ln = pre ++ dumps_at level v ++ suf
    /\ (v = JList [] -> line_child_count ln = Some 0).
Proof.
  intros Hl Hw Hp Hsuf Hi.
  destruct (leaf_value level pre v suf Hl Hw Hp Hsuf) as (Hne & ks & vs & val & Hv & Hlv & He).
  destruct (classify_leaf num i (pj_lines st) (pj_stack st) ks vs val Hlv) as (ann & Hc & Hen).
  eexists. split; [eapply pj_step_run; eassumption|].
  split; [reflexivity|].
  intros E. rewrite finish_line_child_count, (Hen (He E)). reflexivity.
Qed.

(** *** The shape of the output *)

Lemma vlines_list (level : nat) (pre : str) (x : pyjson) (xs : list pyjson) (suf : str) :
  vlines level pre (JList (x :: xs)) suf
  = (pre ++ py "[") :: list_lines (S level) (x :: xs) ++ [indent_str level ++ py "]" ++ suf].
Proof. reflexivity. Qed.

Lemma vlines_dict (level : nat) (pre : str) (kx : str * pyjson)
    (xs : list (str * pyjson)) (suf : str) :
  vlines level pre (JDict (kx :: xs)) suf
  = (pre ++ py "{") :: dict_lines (S level) (kx :: xs) ++ [indent_str level ++ py "}" ++ suf].
Proof. reflexivity. Qed.

Lemma vlines_leaf (level : nat) (pre : str) (v : pyjson) (suf : str) :
  is_leaf v -> vlines level pre v suf = [pre ++ dumps_at level v ++ suf].
Proof. destruct v as [| | | | |[|]|[|]]; cbn; intros H; try reflexivity; destruct H. Qed.

Lemma arrays_of_list (items : list pyjson) :
  arrays_of (JList items) = (0%nat, len items) :: list_arrays 1 items.
Proof. reflexivity. Qed.

Lemma arrays_of_dict (items : list (str * pyjson)) :
  arrays_of (JDict items) = dict_arrays 1 items.
Proof. reflexivity. Qed.

(** Induction on a value and on the values inside it. *)
Lemma pyjson_nested_ind (P : pyjson -> Prop) :
  P JNone ->
  (forall b, P (JBool b)) ->
  (forall n, P (JInt n)) ->
  (forall r, P (JFloat r)) ->
  (forall t, P (JStr t)) ->
  (forall items, Forall P items -> P (JList items)) ->
  (forall items, Forall (fun kx => P (snd kx)) items -> P (JDict items)) ->
  forall v, P v.
Proof.
  intros H1 H2 H3 H4 H5 H6 H7.
  fix IH 1. intros [| b | n | r | t | items | items].
  - exact H1.
  - apply H2.
  - apply H3.
  - apply H4.
  - apply H5.
  - apply H6. induction items as [|x items IHitems]; constructor; [apply IH|exact IHitems].
  - apply H7. induction items as [|[k x] items IHitems]; constructor;
      [apply IH|exact IHitems].
Qed.

Lemma inner_ok_deeper (level : nat) (t : str) : inner_ok (S level) t -> inner_ok level t.
Proof.
  intros (c & rest & Hl & [H|H]); exists c, rest; split; auto. right. lia.
Qed.

Lemma inner_ok_first (level : nat) (c : char) (t : str) :
  isspace c = false -> inner_ok level (indent_str (S level) ++ c :: t).
Proof.
  intros Hs. destruct (line_lstrip (S level) c t Hs) as [Hl Hi].
  exists c, t. split; [exact Hl|]. right. lia.
Qed.

Lemma inner_ok_close (level : nat) (b : char) (suf : str) :
  is_closer b = true -> inner_ok level (indent_str level ++ [b] ++ suf).
Proof.
  intros Hb. exists b, suf. split; [|left; exact Hb].
  apply (line_lstrip level b suf).
  unfold is_closer in Hb. apply orb_true_iff in Hb as [H|H]; apply N.eqb_eq in H; subst b;
    reflexivity.
Qed.


Lemma shaped_first_inner (v : pyjson) (level : nat) (pre suf : str) :
  shaped v -> prefix_ok (S level) pre -> suffix_ok suf ->
  Forall (inner_ok level) (vlines (S level) pre v suf).
Proof.
  intros Hv Hp Hs. destruct (Hv (S level) pre suf Hp Hs) as (c & t & others & -> & Hc & _ & Ho).
  constructor; [apply inner_ok_first; exact Hc|].
  eapply Forall_impl; [exact Ho|]. intros x. apply inner_ok_deeper.
Qed.

Lemma comma_after_ok {A} (l : list A) : suffix_ok (comma_after l).
Proof. destruct l; [left|right]; reflexivity. Qed.

Lemma list_lines_inner (level : nat) (items : list pyjson) :
  Forall shaped items -> Forall (inner_ok level) (list_lines (S level) items).
Proof.
  intros H. induction H as [|x l Hx Hl IH]; cbn [list_lines]; [constructor|].
  apply Forall_app. split; [|exact IH].
  apply shaped_first_inner; [exact Hx|constructor|apply comma_after_ok].
Qed.

Lemma wf_dict_keys (items : list (str * pyjson)) :
  wf_json (JDict items) = true ->
  Forall (fun kx => key_ok (fst kx) = true /\ wf_json (snd kx) = true) items.
Proof.
  cbn [wf_json]. induction items as [|[k x] items IH]; intros H; constructor.
  - cbn [forallb] in H. apply andb_true_iff in H as [H _].
    apply andb_true_iff in H. exact H.
  - apply IH. cbn [forallb] in H. apply andb_true_iff in H as [_ H]. exact H.
Qed.

Lemma wf_list_items (items : list pyjson) :
  wf_json (JList items) = true -> Forall (fun x => wf_json x = true) items.
Proof.
  cbn [wf_json]. intros H. apply Forall_forall. intros x Hx.
  rewrite forallb_forall in H. apply H. apply list_elem_of_In. exact Hx.
Qed.

Lemma dict_lines_inner (level : nat) (items : list (str * pyjson)) :
  Forall (fun kx => key_ok (fst kx) = true /\ shaped (snd kx)) items ->
  Forall (inner_ok level) (dict_lines (S level) items).
Proof.
  intros H. induction H as [|[k x] l [Hk Hx] Hl IH]; cbn [dict_lines]; [constructor|].
  apply Forall_app. split; [|exact IH].
  apply shaped_first_inner; [exact Hx|constructor; exact Hk|apply comma_after_ok].
Qed.

Lemma Forall_and_impl {A} (P Q R : A -> Prop) (l : list A) :
  Forall P l -> Forall Q l -> (forall x, P x -> Q x -> R x) -> Forall R l.
Proof.
  intros HP HQ H. induction HP as [|x l Hx Hl IH]; [constructor|].
  apply Forall_cons_1 in HQ as [Hq HQ]. constructor; auto.
Qed.

(** Every well-formed value is printed in that shape. *)
Lemma vlines_shape (v : pyjson) : wf_json v = true -> shaped v.
Proof.
  induction v as [| b | n | r | txt | items IH | items IH] using pyjson_nested_ind;
    intros Hw level pre suf Hp Hs.
  1-5: match goal with |- context [vlines _ _ ?v _] =>
         rewrite (vlines_leaf level pre v suf I);
         destruct (leaf_tok_cases level v I Hw) as [((c & t & E & Hc1 & _ & Hc2) & _)|(body & E & _)];
         [destruct (line_head level pre (dumps_at level v) suf Hp) as (c' & t' & -> & H1 & H2);
          [eauto 10|exists c', t', []; auto]
         |destruct (line_head level pre (dumps_at level v) suf Hp) as (c' & t' & -> & H1 & H2);
          [rewrite E; exists QUOTE; eauto|exists c', t', []; auto]]
       end.
  - destruct items as [|x xs].
    + rewrite (vlines_leaf level pre (JList []) suf I).
      destruct (line_head level pre (py "[]") suf Hp) as (c' & t' & E & H1 & H2);
        [exists 91%N, [93%N]; auto|].
      cbn [dumps_at]. rewrite E. exists c', t', []. auto.
    + rewrite vlines_list.
      destruct (line_head level pre (py "[") [] Hp) as (c' & t' & E & H1 & H2);
        [exists 91%N, []; auto|].
      rewrite app_nil_r in E. rewrite E. exists c', t'. eexists. split; [reflexivity|].
      split; [exact H1|]. split; [exact H2|].
      apply Forall_app. split.
      * apply list_lines_inner.
        eapply Forall_and_impl; [exact IH|apply wf_list_items; exact Hw|auto].
      * constructor; [|constructor]. apply (inner_ok_close level 93%N). reflexivity.
  - destruct items as [|kx xs].
    + rewrite (vlines_leaf level pre (JDict []) suf I).
      destruct (line_head level pre (py "{}") suf Hp) as (c' & t' & E & H1 & H2);
        [exists 123%N, [125%N]; auto|].
      cbn [dumps_at]. rewrite E. exists c', t', []. auto.
    + rewrite vlines_dict.
      destruct (line_head level pre (py "{") [] Hp) as (c' & t' & E & H1 & H2);
        [exists 123%N, []; auto|].
      rewrite app_nil_r in E. rewrite E. exists c', t'. eexists. split; [reflexivity|].
      split; [exact H1|]. split; [exact H2|].
      apply Forall_app. split.
      * apply dict_lines_inner.
        eapply Forall_and_impl; [exact IH|apply wf_dict_keys; exact Hw|].
        cbv beta. intros x Hx [Hk Hwx]. auto.
      * constructor; [|constructor]. apply (inner_ok_close level 125%N). reflexivity.
Qed.

(** *** Counting the children *)

Lemma count_children_texts (ind : Z) (ls : list Line) (c : Z) :
  count_children ind ls c = count_texts ind (map s ls) c.
Proof.
  revert c. induction ls as [|l ls IH]; intros c; cbn [count_children count_texts map];
    [reflexivity|].
  destruct (py_index (lstrip (s l)) 0) as [x|]; cbn [rbind]; [|reflexivity].
  unfold is_closer. destruct (N.eqb x 93 || N.eqb x 125); [apply IH|].
  destruct (indentation (s l) =? ind + 4); apply IH.
Qed.

Lemma count_texts_skip (level : nat) (others rest : list str) (c : Z) :
  Forall (inner_ok (S level)) others ->
  count_texts (4 * Z.of_nat level) (others ++ rest) c
  = count_texts (4 * Z.of_nat level) rest c.
Proof.
  intros H. induction H as [|t others (x & r & Hl & Hx) Ho IH]; [reflexivity|].
  cbn [app count_texts]. rewrite Hl, py_index_head. cbn [rbind].
  destruct Hx as [Hx|Hx]; [rewrite Hx; exact IH|].
  destruct (is_closer x); [exact IH|].
  destruct (indentation t =? 4 * Z.of_nat level + 4) eqn:E; [apply Z.eqb_eq in E; lia|exact IH].
Qed.

Lemma count_texts_item (level : nat) (x : pyjson) (suf : str) (rest : list str) (c : Z) :
  shaped x -> suffix_ok suf ->
  count_texts (4 * Z.of_nat level) (vlines (S level) (indent_str (S level)) x suf ++ rest) c
  = count_texts (4 * Z.of_nat level) rest (c + 1).
Proof.
  intros Hx Hs.
  destruct (Hx (S level) (indent_str (S level)) suf (prefix_bare _) Hs)
    as (h & t & others & -> & H1 & H2 & Ho).
  cbn [app count_texts].
  destruct (line_lstrip (S level) h t H1) as [Hl Hi].
  rewrite Hl, py_index_head. cbn [rbind]. rewrite H2, Hi.
  destruct (4 * Z.of_nat (S level) =? 4 * Z.of_nat level + 4) eqn:E;
    [|apply Z.eqb_neq in E; lia].
  apply count_texts_skip. exact Ho.
Qed.

(** The scan of a closed array counts its items, whatever is nested in them. *)
Lemma count_texts_items (level : nat) (items : list pyjson) (c : Z) :
  Forall shaped items ->
  count_texts (4 * Z.of_nat level) (list_lines (S level) items) c = Ok (c + len items).
Proof.
  intros H. revert c. induction H as [|x l Hx Hl IH]; intros c; cbn [list_lines].
  - cbn. f_equal. change (len []) with 0. lia.
  - rewrite <- (app_nil_r (list_lines (S level) l)) at 1.
    rewrite app_assoc.
    rewrite <- (app_nil_r (list_lines (S level) l)) in IH.
    rewrite <- app_assoc. rewrite count_texts_item by (auto using comma_after_ok).
    rewrite app_nil_r in *. rewrite IH, len_cons. f_equal. lia.
Qed.

(** *** The loop *)

Lemma pj_loop_app (num : Z) (flush : bool) (l1 l2 : list str) (st st1 : pj_state) (i : Z) :
  pj_loop num flush st i l1 = (st1, None) ->
  pj_loop num flush st i (l1 ++ l2) = pj_loop num flush st1 (i + len l1) l2.
Proof.
  revert st i. induction l1 as [|l l1 IH]; intros st i H; cbn [pj_loop app] in *.
  - injection H as <-. change (len []) with 0. rewrite Z.add_0_r. reflexivity.
  - destruct (pj_step num flush st i l) as [st'|e]; [|discriminate].
    rewrite (IH _ _ H), len_cons. f_equal. lia.
Qed.

Lemma shift_lines_app (n : nat) (a b : list (nat * Z)) :
  shift_lines n (a ++ b) = shift_lines n a ++ shift_lines n b.
Proof. apply map_app. Qed.

Lemma shift_lines_shift (n m : nat) (a : list (nat * Z)) :
  shift_lines n (shift_lines m a) = shift_lines (n + m) a.
Proof.
  unfold shift_lines. rewrite map_map. apply map_ext. intros [j K]. cbn. f_equal. lia.
Qed.

Lemma shift_lines_0 (a : list (nat * Z)) : shift_lines 0 a = a.
Proof. unfold shift_lines. rewrite <- (map_id a) at 2. apply map_ext. intros [j K]. reflexivity. Qed.

Lemma In_shift_lines (n j : nat) (K : Z) (a : list (nat * Z)) :
  In (j, K) (shift_lines n a) -> exists j', j = (n + j')%nat /\ In (j', K) a.
Proof.
  unfold shift_lines. rewrite in_map_iff. intros ([j' K'] & [= <- <-] & H). eauto.
Qed.

Lemma list_arrays_shift (off : nat) (l : list pyjson) :
  list_arrays off l = shift_lines off (list_arrays 0 l).
Proof.
  revert off. induction l as [|x l IH]; intros off; cbn [list_arrays]; [reflexivity|].
  rewrite shift_lines_app, shift_lines_shift, (IH (off + _)%nat), (IH (0 + _)%nat).
  rewrite shift_lines_shift. rewrite !Nat.add_0_r. reflexivity.
Qed.

Lemma dict_arrays_shift (off : nat) (l : list (str * pyjson)) :
  dict_arrays off l = shift_lines off (dict_arrays 0 l).
Proof.
  revert off. induction l as [|[k x] l IH]; intros off; cbn [dict_arrays]; [reflexivity|].
  rewrite shift_lines_app, shift_lines_shift, (IH (off + _)%nat), (IH (0 + _)%nat).
  rewrite shift_lines_shift. rewrite !Nat.add_0_r. reflexivity.
Qed.

Lemma ann_ok_length (texts : list str) (arrs : list (nat * Z)) (new : list Line) :
  ann_ok texts arrs new -> length new = length texts.
Proof. intros [H _]. rewrite <- H, length_map. reflexivity. Qed.

Lemma ann_ok_app (t1 t2 : list str) (a1 a2 : list (nat * Z)) (n1 n2 : list Line) :
  ann_ok t1 a1 n1 -> ann_ok t2 a2 n2 ->
  ann_ok (t1 ++ t2) (a1 ++ shift_lines (length t1) a2) (n1 ++ n2).
Proof.
  intros H1 H2. pose proof (ann_ok_length _ _ _ H1) as Hlen.
  destruct H1 as [Hs1 Ha1], H2 as [Hs2 Ha2]. split.
  - rewrite map_app, Hs1, Hs2. reflexivity.
  - intros j K Hin. apply in_app_iff in Hin as [Hin|Hin].
    + destruct (Ha1 j K Hin) as (ln & Hl & Hc). exists ln. split; [|exact Hc].
      rewrite lookup_app_l; [exact Hl|]. apply lookup_lt_Some in Hl. exact Hl.
    + apply In_shift_lines in Hin as (j' & -> & Hin).
      destruct (Ha2 j' K Hin) as (ln & Hl & Hc). exists ln. split; [|exact Hc].
      rewrite lookup_app_r by lia. rewrite <- Hlen.
      replace (length n1 + j' - length n1)%nat with j' by lia. exact Hl.
Qed.

(** The number of lines of a value does not depend on where it is printed. *)
Lemma vlines_length (v : pyjson) :
  forall level pre suf level' pre' suf',
    length (vlines level pre v suf) = length (vlines level' pre' v suf').
Proof.
  induction v as [| b | n | r | txt | items IH | items IH] using pyjson_nested_ind;
    intros level pre suf level' pre' suf'; try reflexivity.
  - destruct items as [|x xs]; [reflexivity|].
    rewrite !vlines_list. cbn [length]. rewrite !length_app. cbn [length].
    do 2 f_equal. generalize (x :: xs) IH. clear.
    intros l H. induction H as [|y l Hy Hl IHl]; [reflexivity|].
    cbn [list_lines]. rewrite !length_app. f_equal; [apply Hy|apply IHl].
  - destruct items as [|kx xs]; [reflexivity|].
    rewrite !vlines_dict. cbn [length]. rewrite !length_app. cbn [length].
    do 2 f_equal. generalize (kx :: xs) IH. clear.
    intros l H. induction H as [|[k y] l Hy Hl IHl]; [reflexivity|].
    cbn [dict_lines]. rewrite !length_app. f_equal; [apply Hy|apply IHl].
Qed.

(** The loop over the items of a list, each annotated in turn. *)
Lemma list_items_loop (num : Z) (flush : bool) (level : nat) (items : list pyjson) :
  Forall (annotates num flush) items ->
  forall st i, 1 <= i -> i = len (pj_lines st) ->
    exists mid,
      pj_loop num flush st i (list_lines level items)
        = ({| pj_content := pj_content st; pj_lines := pj_lines st ++ mid;
              pj_stack := pj_stack st |}, None)
      /\ ann_ok (list_lines level items) (list_arrays 0 items) mid.
Proof.
  intros H. induction H as [|x l Hx Hl IH]; intros st i Hi Ei.
  - exists []. cbn [list_lines pj_loop list_arrays]. rewrite app_nil_r.
    destruct st; split; [reflexivity|]. split; [reflexivity|]. intros j K [].
  - cbn [list_lines list_arrays].
    destruct (Hx level (indent_str level) (comma_after l) st i
                (prefix_bare _) (comma_after_ok l) Hi Ei) as (new & Hrun & Hann).
    pose proof (ann_ok_length _ _ _ Hann) as Hlen.
    rewrite (pj_loop_app _ _ _ _ _ _ _ Hrun).
    match goal with |- context [pj_loop num flush ?st1 ?i1 _] =>
      destruct (IH st1 i1) as (mid & Hrun2 & Hann2) end.
    { pose proof (len_nonneg (vlines level (indent_str level) x (comma_after l))). lia. }
    { cbn [pj_lines]. rewrite len_app, Ei. unfold len. rewrite Hlen. reflexivity. }
    cbn [pj_content pj_lines pj_stack] in Hrun2.
    exists (new ++ mid). rewrite Hrun2, <- app_assoc. split; [reflexivity|].
    rewrite shift_lines_0, list_arrays_shift.
    rewrite (vlines_length x 0 [] [] level (indent_str level) (comma_after l)).
    apply ann_ok_app; assumption.
Qed.

Lemma dict_items_loop (num : Z) (flush : bool) (level : nat) (items : list (str * pyjson)) :
  Forall (fun kx => key_ok (fst kx) = true /\ annotates num flush (snd kx)) items ->
  forall st i, 1 <= i -> i = len (pj_lines st) ->
    exists mid,
      pj_loop num flush st i (dict_lines level items)
        = ({| pj_content := pj_content st; pj_lines := pj_lines st ++ mid;
              pj_stack := pj_stack st |}, None)
      /\ ann_ok (dict_lines level items) (dict_arrays 0 items) mid.
Proof.
  intros H. induction H as [|[k x] l [Hk Hx] Hl IH]; intros st i Hi Ei.
  - exists []. cbn [dict_lines pj_loop dict_arrays]. rewrite app_nil_r.
    destruct st; split; [reflexivity|]. split; [reflexivity|]. intros j K [].
  - cbn [dict_lines dict_arrays]. cbn [fst snd] in *.
    destruct (Hx level (indent_str level ++ encode_basestring_ascii k ++ py ": ")
                (comma_after l) st i (prefix_key _ k Hk) (comma_after_ok l) Hi Ei)
      as (new & Hrun & Hann).
    pose proof (ann_ok_length _ _ _ Hann) as Hlen.
    rewrite (pj_loop_app _ _ _ _ _ _ _ Hrun).
    match goal with |- context [pj_loop num flush ?st1 ?i1 _] =>
      destruct (IH st1 i1) as (mid & Hrun2 & Hann2) end.
    { match goal with |- 1 <= i + len ?l => pose proof (len_nonneg l) end. lia. }
    { cbn [pj_lines]. rewrite len_app, Ei. unfold len. rewrite Hlen. reflexivity. }
    cbn [pj_content pj_lines pj_stack] in Hrun2.
    exists (new ++ mid). rewrite Hrun2, <- app_assoc. split; [reflexivity|].
    rewrite shift_lines_0, dict_arrays_shift.
    rewrite (vlines_length x 0 [] [] level
               (indent_str level ++ encode_basestring_ascii k ++ py ": ") (comma_after l)).
    apply ann_ok_app; assumption.
Qed.

(** *** Brackets *)

Lemma open_value (level : nat) (pre : str) (b : char) :
  prefix_ok level pre -> b = 91%N \/ b = 123%N ->
  (exists c t, lstrip (pre ++ [b]) = c :: t)
  /\ indentation (pre ++ [b]) = 4 * Z.of_nat level
  /\ exists ks vs, read_value (pre ++ [b]) = Ok (ks, vs, [b]).
Proof.
  intros Hp Hb.
  assert (Hb' : isspace b = false /\ b <> QUOTE /\ is_closer b = false /\ b <> COMMA).
  { destruct Hb as [-> | ->]; repeat split; discriminate. }
  destruct Hb' as (H1 & H2 & H3 & H4).
  destruct (line_head level pre [b] [] Hp) as (c' & t' & E & Hs' & _); [eauto 10|].
  cbn [app] in E. rewrite E.
  destruct (line_lstrip level c' t' Hs') as [Hl Hi].
  split; [eauto|]. split; [exact Hi|]. rewrite <- E.
  assert (Hlast : last_ok [b]) by (exists [], b; auto).
  destruct Hp as [|k Hk].
  - destruct (read_value_bare (4 * level) b [] [] H1 H2 Hlast (or_introl eq_refl)) as (vs & Hv).
    cbn [app] in Hv. eauto.
  - destruct (read_value_key level k [b] [] Hk Hlast (or_introl eq_refl)) as (ks & vs & Hv).
    cbn [app] in Hv. eauto.
Qed.

Lemma close_value (level : nat) (b : char) (suf : str) :
  b = 93%N \/ b = 125%N -> suffix_ok suf ->
  lstrip (indent_str level ++ [b] ++ suf) <> []
  /\ exists vs, read_value (indent_str level ++ [b] ++ suf) = Ok (None, vs, [b]).
Proof.
  intros Hb Hsuf.
  assert (Hb' : isspace b = false /\ b <> QUOTE /\ b <> COMMA).
  { destruct Hb as [-> | ->]; repeat split; discriminate. }
  destruct Hb' as (H1 & H2 & H3).
  split.
  { cbn [app]. rewrite (proj1 (line_lstrip level b suf H1)). discriminate. }
  apply (read_value_bare (4 * level) b [] suf H1 H2); [|exact Hsuf].
  exists [], b. auto.
Qed.

Lemma py_pos_mid {A} (L R : list A) (x : A) : py_pos (L ++ x :: R) (len L) = Some (length L).
Proof.
  unfold py_pos. rewrite len_app, len_cons.
  pose proof (len_nonneg L). pose proof (len_nonneg R).
  destruct (0 <=? len L) eqn:E1; [|lia].
  destruct (len L <? len L + (1 + len R)) eqn:E2; [|lia].
  cbn [andb]. unfold len. rewrite Nat2Z.id. reflexivity.
Qed.

Lemma py_index_mid {A} (L R : list A) (x : A) : py_index (L ++ x :: R) (len L) = Ok x.
Proof.
  unfold py_index. rewrite py_pos_mid, list_lookup_middle by reflexivity. reflexivity.
Qed.

Lemma alter_mid {A} (f : A -> A) (L R : list A) (x : A) :
  alter f (length L) (L ++ x :: R) = L ++ f x :: R.
Proof.
  rewrite <- (Nat.add_0_r (length L)). rewrite alter_app_r. reflexivity.
Qed.

Lemma py_slice_tail {A} (L R : list A) :
  py_slice (Some (len L)) (Some (len (L ++ R))) (L ++ R) = R.
Proof.
  rewrite py_slice_from.
  - apply drop_len_app.
  - rewrite len_app. pose proof (len_nonneg L). pose proof (len_nonneg R). lia.
Qed.

(** The line of a closing [']']: the start is taken off the stack, the
    lines from the start on are scanned, and the start gets its match and
    its count. *)
Lemma close_arr_step (num : Z) (flush : bool) (st : pj_state) (level : nat) (suf : str)
    (L mid : list Line) (ol : Line) (S : list Z) (a0 : JsonAnnotation) (e0 : JsonEntity)
    (K : Z) :
  pj_lines st = L ++ ol :: mid ->
  pj_stack st = len L :: S ->
  json ol = Some a0 -> entity a0 = Some e0 ->
  suffix_ok suf ->
  count_texts (indentation (s ol)) (map s (ol :: mid)) 0 = Ok K ->
  exists ol' cl,
    pj_step num flush st (len (pj_lines st)) (indent_str level ++ py "]" ++ suf)
    = Ok {| pj_content := pj_content st; pj_lines := L ++ ol' :: mid ++ [cl];
            pj_stack := S |}
    /\ s ol' = s ol /\ line_child_count ol' = Some K
    /\ s cl = indent_str level ++ py "]" ++ suf.
Proof.
  intros Hl Hs Hj He Hsuf Hcount.
  destruct (close_value level 93%N suf (or_introl eq_refl) Hsuf) as (Hne & vs & Hv).
  set (i := len (pj_lines st)).
  set (ol' := set_json ol (Some (set_entity a0
                {| pair_idx := Some (i + num); child_count := K;
                   collapsed := collapsed e0 |}))).
  assert (Hc : classify num i (pj_lines st) (pj_stack st) None vs [93%N]
               = Ok (new_JsonEntity ARR_END None vs (Some (len L)), L ++ ol' :: mid, S)).
  { unfold classify. change (str_eqb [93%N] (py "[")) with false.
    change (str_eqb [93%N] (py "{")) with false.
    change (str_eqb [93%N] (py "]")) with true. cbn iota.
    rewrite Hs. unfold i. rewrite Hl, py_index_mid. cbn [rbind].
    unfold entity_of. rewrite Hj, He. cbn [rbind fst snd].
    rewrite (py_slice_tail L (ol :: mid)).
    rewrite count_children_texts, Hcount. cbn [rbind].
    rewrite py_pos_mid, alter_mid. rewrite <- Hl. reflexivity. }
  assert (Hi : 1 <= i).
  { unfold i. rewrite Hl, len_app, len_cons. pose proof (len_nonneg L).
    pose proof (len_nonneg mid). lia. }
  exists ol', (finish_line false [] (indent_str level ++ py "]" ++ suf)
                 (new_JsonEntity ARR_END None vs (Some (len L)))).
  split.
  - rewrite (pj_step_run _ _ _ _ _ _ _ _ _ _ _ Hne Hv Hc Hi).
    rewrite <- app_assoc. reflexivity.
  - split; [reflexivity|]. split; [|reflexivity].
    unfold line_child_count, ol'. cbn. reflexivity.
Qed.

Lemma close_obj_step (num : Z) (flush : bool) (st : pj_state) (level : nat) (suf : str)
    (L mid : list Line) (ol : Line) (S : list Z) (a0 : JsonAnnotation) (e0 : JsonEntity) :
  pj_lines st = L ++ ol :: mid ->
  pj_stack st = len L :: S ->
  json ol = Some a0 -> entity a0 = Some e0 ->
  suffix_ok suf ->
  exists ol' cl,
    pj_step num flush st (len (pj_lines st)) (indent_str level ++ py "}" ++ suf)
    = Ok {| pj_content := pj_content st; pj_lines := L ++ ol' :: mid ++ [cl];
            pj_stack := S |}
    /\ s ol' = s ol
    /\ s cl = indent_str level ++ py "}" ++ suf.
Proof.
  intros Hl Hs Hj He Hsuf.
  destruct (close_value level 125%N suf (or_intror eq_refl) Hsuf) as (Hne & vs & Hv).
  set (i := len (pj_lines st)).
  set (ol' := set_json ol (Some (set_entity a0
                {| pair_idx := Some (i + num); child_count := child_count e0;
                   collapsed := collapsed e0 |}))).
  assert (Hc : classify num i (pj_lines st) (pj_stack st) None vs [125%N]
               = Ok (new_JsonEntity OBJ_END None vs (Some (len L)), L ++ ol' :: mid, S)).
  { unfold classify. change (str_eqb [125%N] (py "[")) with false.
    change (str_eqb [125%N] (py "{")) with false.
    change (str_eqb [125%N] (py "]")) with false.
    change (str_eqb [125%N] (py "}")) with true. cbn iota.
    rewrite Hs. unfold i. rewrite Hl, py_index_mid. cbn [rbind].
    unfold entity_of. rewrite Hj, He. cbn [rbind fst snd].
    rewrite py_pos_mid, alter_mid. rewrite <- Hl. reflexivity. }
  assert (Hi : 1 <= i).
  { unfold i. rewrite Hl, len_app, len_cons. pose proof (len_nonneg L).
    pose proof (len_nonneg mid). lia. }
  exists ol', (finish_line false [] (indent_str level ++ py "}" ++ suf)
                 (new_JsonEntity OBJ_END None vs (Some (len L)))).
  split.
  - rewrite (pj_step_run _ _ _ _ _ _ _ _ _ _ _ Hne Hv Hc Hi).
    rewrite <- app_assoc. reflexivity.
  - split; reflexivity.
Qed.

Lemma open_step (num : Z) (flush : bool) (st : pj_state) (i : Z) (level : nat)
    (pre : str) (b : char) :
  prefix_ok level pre -> b = 91%N \/ b = 123%N -> 1 <= i ->
  exists ol a0,
    pj_step num flush st i (pre ++ [b])
    = Ok {| pj_content := pj_content st; pj_lines := pj_lines st ++ [ol];
            pj_stack := i :: pj_stack st |}
    /\ s ol = pre ++ [b] /\ json ol = Some a0 /\ entity a0 = Some empty_entity.
Proof.
  intros Hp Hb Hi.
  destruct (open_value level pre b Hp Hb) as ((c & t & Hl) & _ & ks & vs & Hv).
  assert (Hc : exists ty, classify num i (pj_lines st) (pj_stack st) ks vs [b]
                          = Ok (new_JsonEntity ty ks vs None, pj_lines st, i :: pj_stack st)).
  { destruct Hb as [-> | ->]; [exists ARR_START|exists OBJ_START]; reflexivity. }
  destruct Hc as (ty & Hc).
  eexists _, _. split.
  - eapply pj_step_run; [rewrite Hl; discriminate|exact Hv|exact Hc|exact Hi].
  - split; [reflexivity|]. split; reflexivity.
Qed.

Lemma count_start_line (ind : Z) (t : str) (rest : list str) (c0 : Z) :
  (exists c r, lstrip t = c :: r) -> indentation t = ind ->
  count_texts ind (t :: rest) c0 = count_texts ind rest c0.
Proof.
  intros (c & r & Hl) Hi. cbn [count_texts]. rewrite Hl, py_index_head. cbn [rbind].
  destruct (is_closer c); [reflexivity|].
  rewrite Hi. destruct (ind =? ind + 4) eqn:E; [apply Z.eqb_eq in E; lia|reflexivity].
Qed.

(** From the line behind an opening ['['] to the closing line. *)
Lemma list_body (num : Z) (flush : bool) (level : nat) (suf : str) (items : list pyjson)
    (st1 : pj_state) (L : list Line) (ol : Line) (a0 : JsonAnnotation) (e0 : JsonEntity)
    (stk : list Z) :
  Forall (annotates num flush) items -> Forall shaped items -> suffix_ok suf ->
  pj_lines st1 = L ++ [ol] -> pj_stack st1 = len L :: stk ->
  json ol = Some a0 -> entity a0 = Some e0 ->
  (exists c t, lstrip (s ol) = c :: t) -> indentation (s ol) = 4 * Z.of_nat level ->
  exists ol' mid cl,
    pj_loop num flush st1 (len L + 1)
      (list_lines (S level) items ++ [indent_str level ++ py "]" ++ suf])
    = ({| pj_content := pj_content st1; pj_lines := L ++ ol' :: mid ++ [cl];
          pj_stack := stk |}, None)
    /\ s ol' = s ol /\ line_child_count ol' = Some (len items)
    /\ ann_ok (list_lines (S level) items) (list_arrays 0 items) mid
    /\ s cl = indent_str level ++ py "]" ++ suf.
Proof.
  intros Hann Hshape Hsuf Hl Hs Hj He Hstrip Hind.
  destruct (list_items_loop num flush (S level) items Hann st1 (len L + 1))
    as (mid & Hrun & Hmid).
  { pose proof (len_nonneg L). lia. }
  { rewrite Hl, len_app. reflexivity. }
  rewrite (pj_loop_app _ _ _ _ _ _ _ Hrun).
  set (st2 := {| pj_content := pj_content st1; pj_lines := pj_lines st1 ++ mid;
                 pj_stack := pj_stack st1 |}).
  assert (Hl2 : pj_lines st2 = L ++ ol :: mid).
  { cbn [st2 pj_lines]. rewrite Hl, <- app_assoc. reflexivity. }
  assert (Hi2 : len L + 1 + len (list_lines (S level) items) = len (pj_lines st2)).
  { assert (Hm : len mid = len (list_lines (S level) items))
      by (unfold len; rewrite (ann_ok_length _ _ _ Hmid); reflexivity).
    rewrite Hl2, len_app, len_cons. lia. }
  rewrite Hi2.
  destruct (close_arr_step num flush st2 level suf L mid ol stk a0 e0 (len items)
              Hl2 Hs Hj He Hsuf) as (ol' & cl & Hstep & H1 & H2 & H3).
  { cbn [map]. rewrite count_start_line by (assumption || reflexivity).
    rewrite (proj1 Hmid), Hind, count_texts_items by assumption. f_equal. }
  exists ol', mid, cl. cbn [pj_loop]. rewrite Hstep. cbn [st2 pj_content]. auto 10.
Qed.

Lemma dict_body (num : Z) (flush : bool) (level : nat) (suf : str)
    (items : list (str * pyjson))
    (st1 : pj_state) (L : list Line) (ol : Line) (a0 : JsonAnnotation) (e0 : JsonEntity)
    (stk : list Z) :
  Forall (fun kx => key_ok (fst kx) = true /\ annotates num flush (snd kx)) items ->
  suffix_ok suf ->
  pj_lines st1 = L ++ [ol] -> pj_stack st1 = len L :: stk ->
  json ol = Some a0 -> entity a0 = Some e0 ->
  exists ol' mid cl,
    pj_loop num flush st1 (len L + 1)
      (dict_lines (S level) items ++ [indent_str level ++ py "}" ++ suf])
    = ({| pj_content := pj_content st1; pj_lines := L ++ ol' :: mid ++ [cl];
          pj_stack := stk |}, None)
    /\ s ol' = s ol
    /\ ann_ok (dict_lines (S level) items) (dict_arrays 0 items) mid
    /\ s cl = indent_str level ++ py "}" ++ suf.
Proof.
  intros Hann Hsuf Hl Hs Hj He.
  destruct (dict_items_loop num flush (S level) items Hann st1 (len L + 1))
    as (mid & Hrun & Hmid).
  { pose proof (len_nonneg L). lia. }
  { rewrite Hl, len_app. reflexivity. }
  rewrite (pj_loop_app _ _ _ _ _ _ _ Hrun).
  set (st2 := {| pj_content := pj_content st1; pj_lines := pj_lines st1 ++ mid;
                 pj_stack := pj_stack st1 |}).
  assert (Hl2 : pj_lines st2 = L ++ ol :: mid).
  { cbn [st2 pj_lines]. rewrite Hl, <- app_assoc. reflexivity. }
  assert (Hi2 : len L + 1 + len (dict_lines (S level) items) = len (pj_lines st2)).
  { assert (Hm : len mid = len (dict_lines (S level) items))
      by (unfold len; rewrite (ann_ok_length _ _ _ Hmid); reflexivity).
    rewrite Hl2, len_app, len_cons. lia. }
  rewrite Hi2.
  destruct (close_obj_step num flush st2 level suf L mid ol stk a0 e0
              Hl2 Hs Hj He Hsuf) as (ol' & cl & Hstep & H1 & H3).
  exists ol', mid, cl. cbn [pj_loop]. rewrite Hstep. cbn [st2 pj_content]. auto 10.
Qed.

Lemma ann_ok_wrap (first close : str) (texts : list str) (arrs : list (nat * Z))
    (ol' cl : Line) (mid : list Line) :
  s ol' = first -> s cl = close -> ann_ok texts arrs mid ->
  ann_ok (first :: texts ++ [close]) (shift_lines 1 arrs) (ol' :: mid ++ [cl]).
Proof.
  intros H1 H2 [Hs Ha]. split.
  - cbn [map]. rewrite map_app, H1, Hs. cbn [map]. rewrite H2. reflexivity.
  - intros j K Hin. apply In_shift_lines in Hin as (j' & -> & Hin).
    destruct (Ha j' K Hin) as (ln & Hl & Hc). exists ln. split; [|exact Hc].
    change ((mid ++ [cl]) !! j' = Some ln).
    rewrite lookup_app_l; [exact Hl|]. apply lookup_lt_Some in Hl. exact Hl.
Qed.

Lemma ann_ok_head (texts : list str) (arrs : list (nat * Z)) (ol' : Line)
    (rest : list Line) (K : Z) :
  line_child_count ol' = Some K -> ann_ok texts arrs (ol' :: rest) ->
  ann_ok texts ((0%nat, K) :: arrs) (ol' :: rest).
Proof.
  intros Hc [Hs Ha]. split; [exact Hs|].
  intros j K' [[= <- <-]|Hin]; [exists ol'; auto|auto].
Qed.

Lemma Forall_wf_annotates (num : Z) (flush : bool) (items : list pyjson) :
  Forall (fun x => wf_json x = true -> annotates num flush x) items ->
  Forall (fun x => wf_json x = true) items ->
  Forall (annotates num flush) items.
Proof. intros H1 H2. eapply Forall_and_impl; [exact H1|exact H2|auto]. Qed.

(** Every well-formed value is annotated line by line, and every array in
    it gets the length of its source list as its count. *)
Lemma annotates_all (num : Z) (flush : bool) (v : pyjson) :
  wf_json v = true -> annotates num flush v.
Proof.
  induction v as [| b | n | r | txt | items IH | items IH] using pyjson_nested_ind;
    intros Hw level pre suf st i Hp Hsuf Hi Ei.
  1-5: match goal with |- context [vlines _ _ ?v _] =>
         rewrite (vlines_leaf level pre v suf I);
         destruct (leaf_step num flush st i level pre v suf I Hw Hp Hsuf Hi)
           as (ln & Hstep & Hs & _);
         exists [ln]; cbn [pj_loop]; rewrite Hstep; split; [reflexivity|];
         split; [cbn [map]; rewrite Hs; reflexivity|intros j K []]
       end.
  - destruct items as [|x xs].
    + rewrite (vlines_leaf level pre (JList []) suf I).
      destruct (leaf_step num flush st i level pre (JList []) suf I Hw Hp Hsuf Hi)
        as (ln & Hstep & Hs & Hc).
      exists [ln]. cbn [pj_loop]. rewrite Hstep. split; [reflexivity|].
      split; [cbn [map]; rewrite Hs; reflexivity|].
      intros j K [[= <- <-]|[]]. exists ln. split; [reflexivity|]. apply Hc. reflexivity.
    + rewrite vlines_list.
      destruct (open_step num flush st i level pre 91%N Hp (or_introl eq_refl) Hi)
        as (ol & a0 & Hstep & Hs & Hj & He).
      destruct (open_value level pre 91%N Hp (or_introl eq_refl)) as (Hstrip & Hind & _).
      rewrite <- Hs in Hstrip, Hind.
      set (st1 := {| pj_content := pj_content st; pj_lines := pj_lines st ++ [ol];
                     pj_stack := i :: pj_stack st |}) in *.
      destruct (list_body num flush level suf (x :: xs) st1 (pj_lines st) ol a0 empty_entity
                  (pj_stack st)) as (ol' & mid & cl & Hrun & H1 & H2 & H3 & H4);
        try assumption; try reflexivity.
      { apply Forall_wf_annotates; [exact IH|apply wf_list_items; exact Hw]. }
      { eapply Forall_impl; [apply wf_list_items; exact Hw|]. intros y. apply vlines_shape. }
      { cbn [st1 pj_stack]. rewrite Ei. reflexivity. }
      exists (ol' :: mid ++ [cl]). split.
      { cbn [pj_loop]. change (pre ++ py "[") with (pre ++ [91%N]). rewrite Hstep.
        rewrite Ei, Hrun. reflexivity. }
      rewrite arrays_of_list, list_arrays_shift.
      apply ann_ok_head; [exact H2|].
      apply ann_ok_wrap; [rewrite H1; exact Hs|exact H4|exact H3].
  - destruct items as [|kx xs].
    + rewrite (vlines_leaf level pre (JDict []) suf I).
      destruct (leaf_step num flush st i level pre (JDict []) suf I Hw Hp Hsuf Hi)
        as (ln & Hstep & Hs & _).
      exists [ln]. cbn [pj_loop]. rewrite Hstep. split; [reflexivity|].
      split; [cbn [map]; rewrite Hs; reflexivity|intros j K []].
    + rewrite vlines_dict.
      destruct (open_step num flush st i level pre 123%N Hp (or_intror eq_refl) Hi)
        as (ol & a0 & Hstep & Hs & Hj & He).
      set (st1 := {| pj_content := pj_content st; pj_lines := pj_lines st ++ [ol];
                     pj_stack := i :: pj_stack st |}) in *.
      destruct (dict_body num flush level suf (kx :: xs) st1 (pj_lines st) ol a0 empty_entity
                  (pj_stack st)) as (ol' & mid & cl & Hrun & H1 & H3 & H4);
        try assumption; try reflexivity.
      { eapply Forall_and_impl; [exact IH|apply wf_dict_keys; exact Hw|].
        cbv beta. intros y Hy [Hk Hwy]. auto. }
      { cbn [st1 pj_stack]. rewrite Ei. reflexivity. }
      exists (ol' :: mid ++ [cl]). split.
      { cbn [pj_loop]. change (pre ++ py "{") with (pre ++ [123%N]). rewrite Hstep.
        rewrite Ei, Hrun. reflexivity. }
      rewrite arrays_of_dict, dict_arrays_shift.
      apply ann_ok_wrap; [rewrite H1; exact Hs|exact H4|exact H3].
Qed.

(** *** The first line of the output *)

Lemma lstrip_len (t : str) : len (lstrip t) <= len t.
Proof.
  induction t as [|c t IH]; cbn [lstrip]; [lia|].
  destruct (isspace c); rewrite ?len_cons; lia.
Qed.

Lemma indentation_0_app (t : str) (b : char) :
  isspace b = false -> indentation t = 0 ->
  (exists c r, lstrip (t ++ [b]) = c :: r) /\ indentation (t ++ [b]) = 0.
Proof.
  intros Hb H. destruct t as [|c t].
  - cbn [app]. unfold indentation. rewrite lstrip_head by assumption. split; [eauto|lia].
  - unfold indentation in *. cbn [lstrip app] in *.
    destruct (isspace c).
    + pose proof (lstrip_len t). rewrite len_cons in H. lia.
    + split; [eauto|lia].
Qed.

(** The loop over the whole output, from an empty list of lines: the
    arrays get their counts also when the first line is put behind the last
    display line, as long as that line does not begin with white space. *)
Lemma top_loop (num : Z) (flush : bool) (content : list Line) (v : pyjson) :
  wf_json v = true ->
  (merges content flush = true ->
   forall tail, last content = Some tail -> indentation (s tail) = 0) ->
  exists content' new,
    pj_loop num flush {| pj_content := content; pj_lines := []; pj_stack := [] |} 0
      (vlines 0 [] v [])
    = ({| pj_content := content'; pj_lines := new; pj_stack := [] |}, None)
    /\ (if merges content flush then exists tail, content = content' ++ [tail]
        else content' = content)
    /\ forall j K, In (j, K) (arrays_of v) ->
         exists ln, new !! j = Some ln /\ line_child_count ln = Some K.
Proof.
  intros Hw Hmerge.
  set (st := {| pj_content := content; pj_lines := []; pj_stack := [] |}).
  assert (Hp0 : prefix_ok 0 []) by apply (prefix_bare 0).
  assert (Hs0 : suffix_ok []) by (left; reflexivity).
  assert (Hcontent : forall content' text,
             (if merges content flush
              then exists tail, last (pj_content st) = Some tail /\ text = s tail
                                /\ pj_content st = content' ++ [tail]
              else content' = pj_content st) ->
             if merges content flush then exists tail, content = content' ++ [tail]
             else content' = content).
  { intros c' text H. destruct (merges content flush); [|exact H].
    destruct H as (tail & _ & _ & H). eauto. }
  assert (Hleaf : is_leaf v -> wf_json v = true ->
            exists content' new,
              pj_loop num flush st 0 (vlines 0 [] v [])
              = ({| pj_content := content'; pj_lines := new; pj_stack := [] |}, None)
              /\ (if merges content flush then exists tail, content = content' ++ [tail]
                  else content' = content)
              /\ forall j K, In (j, K) (arrays_of v) ->
                   exists ln, new !! j = Some ln /\ line_child_count ln = Some K).
  { intros Hl _. rewrite (vlines_leaf 0 [] v [] Hl).
    destruct (leaf_value 0 [] v [] Hl Hw Hp0 Hs0) as (Hne & ks & vs & val & Hv & Hlv & Hempty).
    destruct (classify_leaf num 0 [] [] ks vs val Hlv) as (ann & Hc & Hen).
    destruct (pj_step_first num flush st _ ks vs val ann [] [] Hne Hv Hc)
      as (content' & text & Hstep & Hcont).
    eexists content', _. cbn [pj_loop]. rewrite Hstep. split; [reflexivity|].
    split; [exact (Hcontent _ _ Hcont)|].
    intros j K Hin.
    destruct v as [| | | | |[|y ys]|[|ky ys]]; cbn in Hin; try contradiction;
      try (destruct Hl; fail).
    destruct Hin as [[= <- <-]|[]]. eexists. split; [reflexivity|].
    rewrite finish_line_child_count, (Hen (Hempty eq_refl)). reflexivity. }
  destruct v as [| b | n | r | txt | [|x xs] | [|kx xs]]; try (apply Hleaf; [exact I|exact Hw]).
  - (* a list with items *)
    rewrite vlines_list. cbn [app].
    destruct (open_value 0 [] 91%N Hp0 (or_introl eq_refl)) as ((c & t & Hl) & _ & ks & vs & Hv).
    cbn [app] in Hl, Hv.
    destruct (pj_step_first num flush st [91%N] ks vs [91%N]
                (new_JsonEntity ARR_START ks vs None) [] [0])
      as (content' & text & Hstep & Hcont);
      [discriminate|exact Hv|reflexivity|].
    cbn [app pj_content st] in Hstep, Hcont. fold (merges content flush) in Hstep, Hcont.
    set (ol := finish_line (merges content flush) text [91%N]
                 (new_JsonEntity ARR_START ks vs None)) in *.
    destruct (finish_line_json (merges content flush) text [91%N]
                (new_JsonEntity ARR_START ks vs None)) as (a0 & Hj & He & _).
    fold ol in Hj.
    assert (Hol : (exists c r, lstrip (s ol) = c :: r) /\ indentation (s ol) = 4 * Z.of_nat 0).
    { unfold ol, finish_line. cbn [s].
      destruct (merges content flush) eqn:Em.
      - destruct Hcont as (tail & Hlast & -> & _).
        apply indentation_0_app; [reflexivity|]. apply Hmerge; [reflexivity|exact Hlast].
      - split; [exists 91%N, []; reflexivity|reflexivity]. }
    destruct Hol as [Hstrip Hind].
    set (st1 := {| pj_content := content'; pj_lines := [ol]; pj_stack := [0] |}) in *.
    destruct (list_body num flush 0 [] (x :: xs) st1 [] ol a0 empty_entity [])
      as (ol' & mid & cl & Hrun & H1 & H2 & H3 & H4); try assumption; try reflexivity.
    { eapply Forall_impl; [apply wf_list_items; exact Hw|].
      cbv beta. intros y Hy. apply annotates_all. exact Hy. }
    { eapply Forall_impl; [apply wf_list_items; exact Hw|]. intros y. apply vlines_shape. }
    exists content', (ol' :: mid ++ [cl]). split.
    { cbn [pj_loop]. change (py "[") with [91%N]. rewrite Hstep.
      change (0 + 1) with (len (@nil Line) + 1).
      rewrite Hrun. reflexivity. }
    split; [exact (Hcontent _ _ Hcont)|].
    rewrite arrays_of_list, list_arrays_shift.
    destruct (ann_ok_head _ _ ol' (mid ++ [cl]) (len (x :: xs)) H2
                (ann_ok_wrap _ _ _ _ ol' cl mid eq_refl H4 H3)) as [_ Ha].
    exact Ha.
  - (* a dict with items *)
    rewrite vlines_dict. cbn [app].
    destruct (open_value 0 [] 123%N Hp0 (or_intror eq_refl)) as ((c & t & Hl) & _ & ks & vs & Hv).
    cbn [app] in Hl, Hv.
    destruct (pj_step_first num flush st [123%N] ks vs [123%N]
                (new_JsonEntity OBJ_START ks vs None) [] [0])
      as (content' & text & Hstep & Hcont);
      [discriminate|exact Hv|reflexivity|].
    cbn [app pj_content st] in Hstep, Hcont. fold (merges content flush) in Hstep, Hcont.
    set (ol := finish_line (merges content flush) text [123%N]
                 (new_JsonEntity OBJ_START ks vs None)) in *.
    destruct (finish_line_json (merges content flush) text [123%N]
                (new_JsonEntity OBJ_START ks vs None)) as (a0 & Hj & He & _).
    fold ol in Hj.
    set (st1 := {| pj_content := content'; pj_lines := [ol]; pj_stack := [0] |}) in *.
    destruct (dict_body num flush 0 [] (kx :: xs) st1 [] ol a0 empty_entity [])
      as (ol' & mid & cl & Hrun & H1 & H3 & H4); try assumption; try reflexivity.
    { eapply Forall_impl; [apply wf_dict_keys; exact Hw|].
      cbv beta. intros y [Hk Hy]. split; [exact Hk|]. apply annotates_all. exact Hy. }
    exists content', (ol' :: mid ++ [cl]). split.
    { cbn [pj_loop]. change (py "{") with [123%N]. rewrite Hstep.
      change (0 + 1) with (len (@nil Line) + 1).
      rewrite Hrun. reflexivity. }
    split; [exact (Hcontent _ _ Hcont)|].
    rewrite arrays_of_dict, dict_arrays_shift.
    destruct (ann_ok_wrap _ _ _ _ ol' cl mid eq_refl H4 H3) as [_ Ha].
    exact Ha.
Qed.

(** *** [splitlines] on the output of [json.dumps] *)

Lemma splitlines_aux_app (l rest cur : str) :
  breakfree l -> splitlines_aux cur (l ++ rest) = splitlines_aux (rev l ++ cur) rest.
Proof.
  intros H. revert cur. induction H as [|c l Hc Hl IH]; intros cur; [reflexivity|].
  cbn [app splitlines_aux rev]. rewrite Hc, IH, <- app_assoc. reflexivity.
Qed.

Lemma join_cons (sep x : str) (y : str) (l : list str) :
  join sep (x :: y :: l) = x ++ sep ++ join sep (y :: l).
Proof. reflexivity. Qed.

Lemma join_app (sep : str) (l1 l2 : list str) :
  l1 <> [] -> l2 <> [] -> join sep (l1 ++ l2) = join sep l1 ++ sep ++ join sep l2.
Proof.
  intros H1 H2. induction l1 as [|x [|y l1] IH]; [contradiction| |].
  - destruct l2 as [|z l2]; [contradiction|]. reflexivity.
  - cbn [app]. rewrite !join_cons.
    change (y :: l1 ++ l2) with ((y :: l1) ++ l2). rewrite IH by discriminate.
    rewrite <- !app_assoc. reflexivity.
Qed.

(** Lines that are not empty and hold no line boundary come back from
    [splitlines] after being joined by newlines. *)
Lemma splitlines_join (ls : list str) :
  ls <> [] -> Forall (fun l => l <> [] /\ breakfree l) ls ->
  splitlines (join [10%N] ls) = ls.
Proof.
  intros Hne H. unfold splitlines.
  induction H as [|l [|l2 ls] [Hl Hb] Hls IH]; [contradiction| |].
  - cbn [join]. rewrite <- (app_nil_r l) at 1. rewrite splitlines_aux_app by assumption.
    rewrite app_nil_r. cbn [splitlines_aux].
    destruct (rev l) eqn:E.
    + apply (f_equal (@rev char)) in E. rewrite rev_involutive in E. contradiction.
    + rewrite <- E, rev_involutive. reflexivity.
  - rewrite join_cons, splitlines_aux_app by assumption.
    rewrite app_nil_r. cbn [app splitlines_aux is_linebreak existsb N.eqb Pos.eqb orb].
    rewrite rev_involutive, IH by discriminate. reflexivity.
Qed.

Lemma vlines_nonempty (level : nat) (pre : str) (v : pyjson) (suf : str) :
  vlines level pre v suf <> [].
Proof. destruct v as [| | | | |[|]|[|]]; discriminate. Qed.

Lemma list_lines_nonempty (level : nat) (x : pyjson) (xs : list pyjson) :
  list_lines level (x :: xs) <> [].
Proof.
  cbn [list_lines]. intros H. apply app_eq_nil in H as [H _].
  exact (vlines_nonempty _ _ _ _ H).
Qed.

Lemma dict_lines_nonempty (level : nat) (kx : str * pyjson) (xs : list (str * pyjson)) :
  dict_lines level (kx :: xs) <> [].
Proof.
  destruct kx as [k x]. cbn [dict_lines]. intros H. apply app_eq_nil in H as [H _].
  exact (vlines_nonempty _ _ _ _ H).
Qed.

Lemma join_list_lines (m : nat) (items : list pyjson) :
  Forall (fun v => forall level pre suf,
            join [10%N] (vlines level pre v suf) = pre ++ dumps_at level v ++ suf) items ->
  items <> [] ->
  join [10%N] (list_lines m items)
  = indent_str m ++ join (COMMA :: newline_indent m) (map (dumps_at m) items).
Proof.
  intros HF. induction HF as [|y l Hy Hl IHl]; intros Hne; [contradiction|].
  destruct l as [|z l].
  - cbn [list_lines map join comma_after]. rewrite app_nil_r, Hy, app_nil_r. reflexivity.
  - change (list_lines m (y :: z :: l))
      with (vlines m (indent_str m) y [COMMA] ++ list_lines m (z :: l)).
    rewrite join_app by (apply vlines_nonempty || apply list_lines_nonempty).
    rewrite Hy, IHl by discriminate. cbn [map]. rewrite join_cons.
    unfold newline_indent. rewrite <- !app_assoc. reflexivity.
Qed.

Lemma join_dict_lines (m : nat) (items : list (str * pyjson)) :
  Forall (fun kx => forall level pre suf,
            join [10%N] (vlines level pre (snd kx) suf)
            = pre ++ dumps_at level (snd kx) ++ suf) items ->
  items <> [] ->
  join [10%N] (dict_lines m items)
  = indent_str m
      ++ join (COMMA :: newline_indent m)
           (map (fun '(k, y) => encode_basestring_ascii k ++ py ": " ++ dumps_at m y) items).
Proof.
  intros HF. induction HF as [|[k y] l Hy Hl IHl]; intros Hne; [contradiction|].
  cbn [snd] in Hy. destruct l as [|[k2 z] l].
  - cbn [dict_lines map join comma_after]. rewrite app_nil_r, Hy, app_nil_r.
    rewrite <- !app_assoc. reflexivity.
  - change (dict_lines m ((k, y) :: (k2, z) :: l))
      with (vlines m (indent_str m ++ encode_basestring_ascii k ++ py ": ") y [COMMA]
              ++ dict_lines m ((k2, z) :: l)).
    rewrite join_app by (apply vlines_nonempty || apply dict_lines_nonempty).
    rewrite Hy, IHl by discriminate. cbn [map]. rewrite join_cons.
    unfold newline_indent. rewrite <- !app_assoc. reflexivity.
Qed.

(** The lines of a value, joined by newlines, are its text. *)
Lemma join_vlines (v : pyjson) :
  forall level pre suf,
    join [10%N] (vlines level pre v suf) = pre ++ dumps_at level v ++ suf.
Proof.
  induction v as [| b | n | r | txt | items IH | items IH] using pyjson_nested_ind;
    intros level pre suf; try reflexivity.
  - destruct items as [|x xs]; [reflexivity|].
    rewrite vlines_list.
    change ((pre ++ py "[") :: list_lines (S level) (x :: xs)
              ++ [indent_str level ++ py "]" ++ suf])
      with ([pre ++ py "["] ++ list_lines (S level) (x :: xs)
              ++ [indent_str level ++ py "]" ++ suf]).
    rewrite join_app by (discriminate || (intros H; apply app_eq_nil in H as [_ H]; discriminate)).
    rewrite join_app by (apply list_lines_nonempty || discriminate).
    rewrite (join_list_lines (S level) (x :: xs) IH) by discriminate.
    cbn [join dumps_at]. unfold newline_indent.
    rewrite <- !app_assoc. cbn [app]. rewrite <- ?app_assoc. reflexivity.
  - destruct items as [|kx xs]; [reflexivity|].
    rewrite vlines_dict.
    change ((pre ++ py "{") :: dict_lines (S level) (kx :: xs)
              ++ [indent_str level ++ py "}" ++ suf])
      with ([pre ++ py "{"] ++ dict_lines (S level) (kx :: xs)
              ++ [indent_str level ++ py "}" ++ suf]).
    rewrite join_app by (discriminate || (intros H; apply app_eq_nil in H as [_ H]; discriminate)).
    rewrite join_app by (apply dict_lines_nonempty || discriminate).
    rewrite (join_dict_lines (S level) (kx :: xs) IH) by discriminate.
    cbn [join dumps_at]. unfold newline_indent.
    rewrite <- !app_assoc. cbn [app]. rewrite <- ?app_assoc. reflexivity.
Qed.

Lemma printable_breakfree (t : str) :
  Forall (fun c => (32 <= c <= 126)%N) t -> breakfree t.
Proof.
  intros H. eapply Forall_impl; [exact H|]. cbv beta. intros c Hc.
  unfold is_linebreak. cbn [existsb].
  repeat (apply orb_false_iff; split); try reflexivity; apply N.eqb_neq; lia.
Qed.

Lemma breakfree_app (a b : str) : breakfree a -> breakfree b -> breakfree (a ++ b).
Proof. intros Ha Hb. apply Forall_app. auto. Qed.

Lemma indent_breakfree (level : nat) : breakfree (indent_str level).
Proof.
  unfold indent_str. induction (4 * level)%nat; constructor; [reflexivity|assumption].
Qed.

Lemma prefix_breakfree (level : nat) (pre : str) : prefix_ok level pre -> breakfree pre.
Proof.
  intros [|k Hk]; [apply indent_breakfree|].
  apply breakfree_app; [apply indent_breakfree|].
  apply breakfree_app; [|repeat constructor].
  unfold encode_basestring_ascii. constructor; [reflexivity|].
  apply breakfree_app; [|repeat constructor].
  apply printable_breakfree, escaped_printable.
Qed.

Lemma suffix_breakfree (suf : str) : suffix_ok suf -> breakfree suf.
Proof. intros [->| ->]; repeat constructor. Qed.

Lemma line_ok_open (level : nat) (pre : str) (b : str) :
  prefix_ok level pre -> b <> [] -> breakfree b -> line_ok (pre ++ b).
Proof.
  intros Hp Hb Hbf. split.
  - intros H. apply app_eq_nil in H as [_ H]. contradiction.
  - apply breakfree_app; [eapply prefix_breakfree; exact Hp|exact Hbf].
Qed.

Lemma leaf_line_ok (level : nat) (pre : str) (v : pyjson) (suf : str) :
  is_leaf v -> wf_json v = true -> prefix_ok level pre -> suffix_ok suf ->
  line_ok (pre ++ dumps_at level v ++ suf).
Proof.
  intros Hl Hw Hp Hs.
  assert (Htok : dumps_at level v <> [] /\ breakfree (dumps_at level v)).
  { destruct (leaf_tok_cases level v Hl Hw) as [(_ & _ & (Hne & _) & Hb)|(body & -> & Hb)].
    - auto.
    - split; [discriminate|]. constructor; [reflexivity|].
      apply breakfree_app; [apply printable_breakfree; exact Hb|repeat constructor]. }
  destruct Htok as [Hne Hb]. split.
  - intros H. apply app_eq_nil in H as [_ H]. apply app_eq_nil in H as [H _]. contradiction.
  - apply breakfree_app; [eapply prefix_breakfree; exact Hp|].
    apply breakfree_app; [exact Hb|apply suffix_breakfree; exact Hs].
Qed.

Lemma close_line_ok (level : nat) (b suf : str) :
  b <> [] -> breakfree b -> suffix_ok suf -> line_ok (indent_str level ++ b ++ suf).
Proof.
  intros Hb Hbf Hs. split.
  - intros H. apply app_eq_nil in H as [_ H]. apply app_eq_nil in H as [H _]. contradiction.
  - apply breakfree_app; [apply indent_breakfree|].
    apply breakfree_app; [exact Hbf|apply suffix_breakfree; exact Hs].
Qed.

(** Every line [json.dumps] prints for a well-formed value is a line for
    [splitlines]. *)
Lemma vlines_lines_ok (v : pyjson) :
  wf_json v = true ->
  forall level pre suf, prefix_ok level pre -> suffix_ok suf ->
    Forall line_ok (vlines level pre v suf).
Proof.
  induction v as [| b | n | r | txt | items IH | items IH] using pyjson_nested_ind;
    intros Hw level pre suf Hp Hs.
  1-5: match goal with |- context [vlines _ _ ?v _] =>
         rewrite (vlines_leaf level pre v suf I); constructor; [|constructor];
         apply (leaf_line_ok level pre v suf I Hw Hp Hs)
       end.
  - destruct items as [|x xs].
    + rewrite (vlines_leaf level pre (JList []) suf I). constructor; [|constructor].
      apply (leaf_line_ok level pre (JList []) suf I Hw Hp Hs).
    + rewrite vlines_list. constructor.
      { apply (line_ok_open level); [exact Hp|discriminate|repeat constructor]. }
      apply Forall_app. split.
      * pose proof (wf_list_items _ Hw) as Hwi. generalize (S level) as m. intros m.
        clear Hw. induction IH as [|y l Hy Hl IHl]; [constructor|].
        apply Forall_cons_1 in Hwi as [Hwy Hwl]. cbn [list_lines].
        apply Forall_app. split; [|apply IHl; exact Hwl].
        apply Hy; [exact Hwy|constructor|apply comma_after_ok].
      * constructor; [|constructor].
        apply close_line_ok; [discriminate|repeat constructor|exact Hs].
  - destruct items as [|kx xs].
    + rewrite (vlines_leaf level pre (JDict []) suf I). constructor; [|constructor].
      apply (leaf_line_ok level pre (JDict []) suf I Hw Hp Hs).
    + rewrite vlines_dict. constructor.
      { apply (line_ok_open level); [exact Hp|discriminate|repeat constructor]. }
      apply Forall_app. split.
      * pose proof (wf_dict_keys _ Hw) as Hwi. generalize (S level) as m. intros m.
        clear Hw. induction IH as [|[k y] l Hy Hl IHl]; [constructor|].
        apply Forall_cons_1 in Hwi as [[Hk Hwy] Hwl]. cbn [dict_lines]. cbn [fst snd] in *.
        apply Forall_app. split; [|apply IHl; exact Hwl].
        apply Hy; [exact Hwy|constructor; exact Hk|apply comma_after_ok].
      * constructor; [|constructor].
        apply close_line_ok; [discriminate|repeat constructor|exact Hs].
Qed.

(** [json.dumps(obj, indent=4).splitlines()] *)
Lemma splitlines_dumps (v : pyjson) :
  wf_json v = true -> splitlines (dumps v) = vlines 0 [] v [].
Proof.
  intros Hw. unfold dumps.
  rewrite <- (app_nil_r (dumps_at 0 v)).
  change (dumps_at 0 v ++ []) with ([] ++ dumps_at 0 v ++ []).
  rewrite <- join_vlines. apply splitlines_join; [apply vlines_nonempty|].
  exact (vlines_lines_ok v Hw 0 [] [] (prefix_bare 0) (or_introl eq_refl)).
Qed.

(** *** The child count (C6) *)





(** * Further properties *)

(** ** The span engine: order and styles *)

Lemma insert_color_sorted (x : Color) (l : list Color) :
  sorted_colors l -> sorted_colors (insert_color x l).
Proof.
  unfold sorted_colors. induction l as [|y l IH]; intros Hs; cbn [insert_color].
  - repeat constructor.
  - apply StronglySorted_inv in Hs as [Hl Hy].
    destruct (fst x <=? fst y) eqn:E.
    + apply Z.leb_le in E. constructor; [constructor; assumption|].
      constructor; [exact E|].
      eapply Forall_impl; [exact Hy|]. unfold by_offset. cbv beta. intros a Ha. lia.
    + apply Z.leb_gt in E. constructor; [apply IH; exact Hl|].
      apply Forall_forall. intros a Ha. apply list_elem_of_In, insert_color_In in Ha.
      destruct Ha as [->|Ha]; [unfold by_offset; lia|].
      rewrite Forall_forall in Hy. apply Hy, list_elem_of_In, Ha.
Qed.

Lemma py_sorted_sorted (l : list Color) : sorted_colors (py_sorted l).
Proof.
  unfold py_sorted. induction l as [|x l IH]; cbn [foldr]; [constructor|].
  apply insert_color_sorted, IH.
Qed.

(** [sorted] leaves a sorted list as it is. *)
Lemma py_sorted_id (l : list Color) : sorted_colors l -> py_sorted l = l.
Proof.
  unfold sorted_colors, py_sorted. induction l as [|x l IH]; intros Hs; [reflexivity|].
  apply StronglySorted_inv in Hs as [Hl Hx]. cbn [foldr]. rewrite (IH Hl).
  destruct l as [|y l]; [reflexivity|]. cbn [insert_color].
  apply Forall_cons_1 in Hx as [Hxy _]. unfold by_offset in Hxy.
  destruct (fst x <=? fst y) eqn:E; [reflexivity|]. apply Z.leb_gt in E. lia.
Qed.

(** X1. Whatever list it is given, [add_color_span] returns the breakpoints
    in the order of their offsets. *)
Theorem add_color_span_sorted (cs : list Color) (color_i start w : Z) :
  sorted_colors (add_color_span cs color_i start w).
Proof.
  unfold add_color_span. destruct (last_color_upto cs (start + w)); apply py_sorted_sorted.
Qed.

Lemma py_index_minus_1 {A} (l : list A) :
  py_index l (-1) = match last l with Some x => Ok x | None => Raise IndexError end.
Proof.
  destruct (last l) as [x|] eqn:E.
  - apply last_Some in E as [l' ->]. apply py_index_last.
  - apply last_None in E as ->. reflexivity.
Qed.

Lemma last_color_upto_last (cs : list Color) (p : Z) :
  last_color_upto cs p = style_of (last (List.filter (fun c => fst c <=? p) cs)).
Proof.
  unfold last_color_upto. rewrite py_index_minus_1.
  generalize (List.filter (fun c => fst c <=? p) cs). intros l.
  destruct (last l) as [x|] eqn:E.
  - apply last_Some in E as [l' ->]. rewrite map_app. cbn [map]. rewrite last_snoc. reflexivity.
  - apply last_None in E as ->. reflexivity.
Qed.

Lemma best_cons (p : Z) (x : Color) (cs : list Color) :
  best p (x :: cs) = prefer p x (best p cs).
Proof. reflexivity. Qed.

Lemma best_app (p : Z) (F G : list Color) :
  best p (F ++ G) = foldr (prefer p) (best p G) F.
Proof. unfold best. apply foldr_app. Qed.

Lemma best_In (p : Z) (cs : list Color) (y : Color) :
  best p cs = Some y -> In y cs /\ fst y <= p.
Proof.
  revert y. induction cs as [|x cs IH]; intros y; [discriminate|].
  rewrite best_cons. unfold prefer. destruct (best p cs) as [y'|].
  - destruct (fst x <=? p) eqn:E1; cbn [andb].
    + destruct (fst y' <? fst x).
      * intros [= <-]. apply Z.leb_le in E1. split; [left; reflexivity|exact E1].
      * intros [= <-]. destruct (IH y' eq_refl). split; [right|]; assumption.
    + intros [= <-]. destruct (IH y' eq_refl). split; [right|]; assumption.
  - destruct (fst x <=? p) eqn:E1; [|discriminate].
    intros [= <-]. apply Z.leb_le in E1. split; [left; reflexivity|exact E1].
Qed.

Lemma best_None (p : Z) (cs : list Color) :
  best p cs = None <-> forall x, In x cs -> p < fst x.
Proof.
  induction cs as [|x cs IH]; [split; [intros _ x []|reflexivity]|].
  rewrite best_cons. unfold prefer. split.
  - destruct (best p cs) as [y'|].
    + destruct (_ && _); discriminate.
    + destruct (fst x <=? p) eqn:E; [discriminate|]. apply Z.leb_gt in E.
      intros _ z [<-|Hz]; [exact E|]. apply IH; [reflexivity|exact Hz].
  - intros H. rewrite (proj2 IH) by (intros z Hz; apply H; right; exact Hz).
    destruct (fst x <=? p) eqn:E; [|reflexivity].
    apply Z.leb_le in E. specialize (H x (or_introl eq_refl)). lia.
Qed.

(** The breakpoint found has the greatest offset of those at or before
    [p]. *)
Lemma best_max (p : Z) (cs : list Color) (z : Color) :
  In z cs -> fst z <= p -> exists y, best p cs = Some y /\ fst z <= fst y.
Proof.
  induction cs as [|x cs IH]; intros Hz Hp; [destruct Hz|].
  rewrite best_cons. unfold prefer. destruct Hz as [->|Hz].
  - destruct (fst z <=? p) eqn:E; [|apply Z.leb_gt in E; lia]. cbn [andb].
    destruct (best p cs) as [y'|]; [|eexists; split; [reflexivity|lia]].
    destruct (fst y' <? fst z) eqn:E2; eexists; (split; [reflexivity|]); [lia|].
    apply Z.ltb_ge in E2. exact E2.
  - destruct (IH Hz Hp) as (y & -> & Hy).
    destruct (fst x <=? p) eqn:E1; cbn [andb]; [|eauto].
    destruct (fst y <? fst x) eqn:E2; [|eauto].
    apply Z.ltb_lt in E2. eexists. split; [reflexivity|lia].
Qed.

Lemma prefer_skip (p : Z) (x : Color) (acc : option Color) :
  p < fst x -> prefer p x acc = acc.
Proof.
  intros H. unfold prefer. destruct (fst x <=? p) eqn:E; [apply Z.leb_le in E; lia|].
  destruct acc; reflexivity.
Qed.

(** On a sorted list it is the last breakpoint at or before [p]. *)
Lemma best_sorted (p : Z) (cs : list Color) :
  sorted_colors cs -> best p cs = last (List.filter (fun c => fst c <=? p) cs).
Proof.
  unfold sorted_colors. induction cs as [|x cs IH]; intros Hs; [reflexivity|].
  apply StronglySorted_inv in Hs as [Hcs Hx]. rewrite best_cons, (IH Hcs).
  cbn [List.filter]. unfold prefer.
  destruct (last (List.filter (fun c => fst c <=? p) cs)) as [y|] eqn:E.
  - assert (Hy : fst x <= fst y).
    { apply last_Some in E as [l' E].
      assert (Hin : In y (List.filter (fun c => fst c <=? p) cs))
        by (rewrite E; apply in_or_app; right; left; reflexivity).
      apply List.filter_In in Hin as [Hin _].
      rewrite Forall_forall in Hx. apply (Hx y), list_elem_of_In, Hin. }
    destruct (fst y <? fst x) eqn:E2; [apply Z.ltb_lt in E2; lia|].
    rewrite andb_false_r.
    destruct (fst x <=? p); [|exact (eq_sym E)].
    rewrite last_cons, E. reflexivity.
  - destruct (fst x <=? p); [|exact (eq_sym E)].
    rewrite last_cons, E. reflexivity.
Qed.

Lemma best_insert_color (p : Z) (x : Color) (l : list Color) :
  sorted_colors l -> best p (insert_color x l) = best p (x :: l).
Proof.
  unfold sorted_colors. induction l as [|z l IH]; intros Hs; [reflexivity|].
  apply StronglySorted_inv in Hs as [Hl Hz]. cbn [insert_color].
  destruct (fst x <=? fst z) eqn:E; [reflexivity|]. apply Z.leb_gt in E.
  rewrite best_cons, (IH Hl), !best_cons.
  destruct (best p l) as [y|] eqn:Eb.
  - assert (Hy : fst z <= fst y).
    { apply best_In in Eb as [Hin _]. rewrite Forall_forall in Hz.
      apply (Hz y), list_elem_of_In, Hin. }
    unfold prefer.
    destruct (fst x <=? p) eqn:E1, (fst z <=? p) eqn:E2, (fst y <? fst x) eqn:E3,
      (fst y <? fst z) eqn:E4, (fst x <? fst z) eqn:E5; cbn [andb];
      rewrite ?E1, ?E2, ?E3, ?E4, ?E5; cbn [andb]; try reflexivity;
      repeat match goal with
             | H : (_ <=? _) = true |- _ => apply Z.leb_le in H
             | H : (_ <=? _) = false |- _ => apply Z.leb_gt in H
             | H : (_ <? _) = true |- _ => apply Z.ltb_lt in H
             | H : (_ <? _) = false |- _ => apply Z.ltb_ge in H
             end; lia.
  - unfold prefer.
    destruct (fst x <=? p) eqn:E1, (fst z <=? p) eqn:E2, (fst x <? fst z) eqn:E5,
      (fst z <? fst x) eqn:E6; cbn [andb]; rewrite ?E1, ?E2, ?E5, ?E6; cbn [andb];
      try reflexivity;
      repeat match goal with
             | H : (_ <=? _) = true |- _ => apply Z.leb_le in H
             | H : (_ <=? _) = false |- _ => apply Z.leb_gt in H
             | H : (_ <? _) = true |- _ => apply Z.ltb_lt in H
             | H : (_ <? _) = false |- _ => apply Z.ltb_ge in H
             end; lia.
Qed.

(** Sorting does not change the breakpoint found: the sort is stable. *)
Lemma best_py_sorted (p : Z) (l : list Color) : best p (py_sorted l) = best p l.
Proof.
  induction l as [|x l IH]; [reflexivity|].
  change (py_sorted (x :: l)) with (insert_color x (py_sorted l)).
  rewrite best_insert_color by apply py_sorted_sorted.
  rewrite !best_cons, IH. reflexivity.
Qed.

Lemma last_color_upto_best (p : Z) (cs : list Color) :
  sorted_colors cs -> last_color_upto cs p = style_of (best p cs).
Proof. intros Hs. rewrite last_color_upto_last, best_sorted by exact Hs. reflexivity. Qed.

Lemma last_color_upto_py_sorted (p : Z) (l : list Color) :
  last_color_upto (py_sorted l) p = style_of (best p l).
Proof.
  rewrite last_color_upto_best by apply py_sorted_sorted.
  rewrite best_py_sorted. reflexivity.
Qed.

Ltac order_cases :=
  repeat first
    [ progress cbn [andb negb fst snd]
    | match goal with
      | |- context [?a <=? ?b] => destruct (Z.leb_spec a b)
      | |- context [?a <? ?b] => destruct (Z.ltb_spec a b)
      | |- context [?a =? ?b] => destruct (Z.eqb_spec a b)
      end ];
  try reflexivity; try lia.

Lemma prefer_from (p : Z) (y0 : Color) (F : list Color) :
  foldr (prefer p) (Some y0) F
  = match best p F with
    | Some y => if fst y0 <? fst y then Some y else Some y0
    | None => Some y0
    end.
Proof.
  induction F as [|x F IH]; [reflexivity|].
  cbn [foldr]. rewrite IH, best_cons. unfold prefer.
  destruct (best p F) as [y|]; order_cases.
Qed.

Lemma best_filter_keep (p : Z) (g : Color -> bool) (cs : list Color) :
  (forall x, In x cs -> fst x <= p -> g x = true) ->
  best p (List.filter g cs) = best p cs.
Proof.
  induction cs as [|x cs IH]; intros H; [reflexivity|].
  cbn [List.filter]. rewrite best_cons, <- IH by (intros z Hz; apply H; right; exact Hz).
  destruct (g x) eqn:E; [reflexivity|].
  rewrite prefer_skip; [reflexivity|].
  destruct (Z.le_gt_cases (fst x) p) as [Hle|Hgt]; [|lia].
  rewrite (H x (or_introl eq_refl) Hle) in E. discriminate.
Qed.

Lemma best_filter_Some (p : Z) (g : Color -> bool) (cs : list Color) (y : Color) :
  best p cs = Some y -> g y = true -> best p (List.filter g cs) = Some y.
Proof.
  revert y. induction cs as [|x cs IH]; intros y; [discriminate|].
  rewrite best_cons. cbn [List.filter]. unfold prefer at 1.
  destruct (best p cs) as [y'|] eqn:Eb.
  - destruct ((fst x <=? p) && (fst y' <? fst x)) eqn:Ec.
    + intros [= <-] Hg. rewrite Hg, best_cons. unfold prefer.
      apply andb_true_iff in Ec as [E1 E2]. apply Z.leb_le in E1. apply Z.ltb_lt in E2.
      destruct (best p (List.filter g cs)) as [z|] eqn:Ez.
      * apply best_In in Ez as [Hz Hzp]. apply List.filter_In in Hz as [Hz _].
        destruct (best_max p cs z Hz Hzp) as (y2 & Hy2 & Hle).
        rewrite Eb in Hy2. injection Hy2 as <-. order_cases.
      * order_cases.
    + intros [= <-] Hg. specialize (IH y' eq_refl Hg).
      destruct (g x); [|exact IH]. rewrite best_cons, IH. unfold prefer. rewrite Ec.
      reflexivity.
  - destruct (fst x <=? p) eqn:E1; [|discriminate].
    intros [= <-] Hg. rewrite Hg, best_cons.
    assert (Hn : best p (List.filter g cs) = None).
    { apply best_None. intros z Hz. apply List.filter_In in Hz as [Hz _].
      exact (proj1 (best_None p cs) Eb z Hz). }
    rewrite Hn. unfold prefer. rewrite E1. reflexivity.
Qed.

Lemma best_lower (p b : Z) (cs : list Color) (y : Color) :
  best p cs = Some y -> fst y <= b -> b <= p -> best b cs = Some y.
Proof.
  revert y. induction cs as [|x cs IH]; intros y; [discriminate|].
  rewrite !best_cons. unfold prefer at 1.
  destruct (best p cs) as [y'|] eqn:Eb.
  - destruct ((fst x <=? p) && (fst y' <? fst x)) eqn:Ec.
    + intros [= <-] Hb Hp.
      apply andb_true_iff in Ec as [E1 E2]. apply Z.leb_le in E1. apply Z.ltb_lt in E2.
      rewrite (IH y' eq_refl) by lia. unfold prefer. order_cases.
    + intros [= <-] Hb Hp. rewrite (IH y' eq_refl Hb Hp). unfold prefer.
      apply andb_false_iff in Ec.
      destruct (fst x <=? b) eqn:E1; cbn [andb]; [|reflexivity].
      apply Z.leb_le in E1. destruct Ec as [Ec|Ec].
      * apply Z.leb_gt in Ec. lia.
      * rewrite Ec. reflexivity.
  - destruct (fst x <=? p) eqn:E1; [|discriminate].
    intros [= <-] Hb Hp.
    assert (Hn : best b cs = None).
    { apply best_None. intros z Hz. pose proof (proj1 (best_None p cs) Eb z Hz). lia. }
    rewrite Hn. unfold prefer. order_cases.
Qed.

Lemma last_color_upto_Raise (cs : list Color) (b : Z) (e : exn) :
  last_color_upto cs b = Raise e -> forall x, In x cs -> b < fst x.
Proof.
  rewrite last_color_upto_last. intros H x Hx.
  destruct (last (List.filter (fun c => fst c <=? b) cs)) as [y|] eqn:E; [discriminate|].
  apply last_None in E.
  destruct (Z.le_gt_cases (fst x) b) as [Hle|Hgt]; [|lia].
  assert (Hin : In x (List.filter (fun c => fst c <=? b) cs)).
  { apply List.filter_In. split; [exact Hx|]. apply Z.leb_le. exact Hle. }
  rewrite E in Hin. destruct Hin.
Qed.

(** X2. Before the span nothing changes: on a sorted list, at a position
    [p] before both [start] and [start + w] that has a breakpoint at or
    before it, the style looked up after the insertion is the style looked
    up before. *)
Theorem add_color_span_before (cs : list Color) (color_i start w p q : Z) :
  sorted_colors cs -> p < start -> p < start + w ->
  last_color_upto cs p = Ok q ->
  last_color_upto (add_color_span cs color_i start w) p = Ok q.
Proof.
  intros Hs Hp1 Hp2 Hq. unfold add_color_span.
  destruct (last_color_upto cs (start + w)) as [prev|e] eqn:El.
  - rewrite last_color_upto_py_sorted, best_app.
    replace (best p [(start, color_i); (start + w, prev)]) with (@None Color)
      by (unfold best, prefer; cbn [foldr fst]; order_cases).
    change (foldr (prefer p) None ?l) with (best p l).
    rewrite best_filter_keep.
    + rewrite <- last_color_upto_best by exact Hs. exact Hq.
    + intros x _ Hx. cbn beta. order_cases.
  - pose proof (last_color_upto_Raise cs _ e El) as Hall.
    rewrite last_color_upto_best in Hq by exact Hs.
    assert (Hn : best p cs = None).
    { apply best_None. intros x Hx. specialize (Hall x Hx). lia. }
    rewrite Hn in Hq. discriminate.
Qed.

Lemma add_color_span_before_witness :
  last_color_upto (add_color_span [(0, 1); (4, 7); (9, 1)] 2 12 3) 5 = Ok 7.
Proof.
  apply (add_color_span_before [(0, 1); (4, 7); (9, 1)] 2 12 3 5 7).
  - repeat constructor; unfold by_offset; cbn; lia.
  - lia.
  - lia.
  - reflexivity.
Defined.

(** X3. Inside the span the new style holds up to the next breakpoint: for
    [0 <= start <= p < start + w], when the list has no breakpoint after
    [start] and at or before [p], the style looked up at [p] after the
    insertion is [color_i]. *)
Theorem add_color_span_inside (cs : list Color) (color_i start w p : Z) :
  0 <= start -> start <= p -> p < start + w ->
  (forall x, In x cs -> fst x <= start \/ p < fst x) ->
  last_color_upto (add_color_span cs color_i start w) p = Ok color_i.
Proof.
  intros H0 Hp1 Hp2 Hfree. unfold add_color_span.
  assert (Hgen : forall prev cs',
             (forall x, In x cs' -> fst x <= start \/ p < fst x) ->
             last_color_upto
               (py_sorted (List.filter (fun x => negb (fst x =? start)) cs'
                             ++ [(start, color_i); (start + w, prev)])) p = Ok color_i).
  { intros prev cs' Hcs'. rewrite last_color_upto_py_sorted, best_app.
    replace (best p [(start, color_i); (start + w, prev)]) with (Some (start, color_i))
      by (unfold best, prefer; cbn [foldr fst]; order_cases).
    rewrite prefer_from.
    destruct (best p (List.filter _ cs')) as [y|] eqn:Eb; [|reflexivity].
    apply best_In in Eb as [Hy Hyp]. apply List.filter_In in Hy as [Hy _].
    destruct (Hcs' y Hy) as [Hle|Hgt]; [|lia]. cbn [fst]. order_cases. }
  destruct (last_color_upto cs (start + w)) as [prev|e]; apply Hgen.
  - exact Hfree.
  - intros x [<-|Hx]; [left; exact H0|exact (Hfree x Hx)].
Qed.

Lemma add_color_span_inside_witness :
  last_color_upto (add_color_span [(0, 1); (4, 7); (9, 1)] 2 5 3) 6 = Ok 2.
Proof.
  apply (add_color_span_inside [(0, 1); (4, 7); (9, 1)] 2 5 3 6); [lia|lia|lia|].
  intros x [<-|[<-|[<-|[]]]]; cbn; lia.
Defined.

(** X4. After the span the earlier style resumes: on a sorted list, for
    [0 <= start], [0 <= w] and [start + w <= p], the style looked up at [p]
    after the insertion is the style looked up before it, and the default
    style 1 where the list had no breakpoint at or before [p]. *)
Theorem add_color_span_after (cs : list Color) (color_i start w p : Z) :
  sorted_colors cs -> 0 <= start -> 0 <= w -> start + w <= p ->
  last_color_upto (add_color_span cs color_i start w) p
  = Ok (match last_color_upto cs p with Ok q => q | Raise _ => 1 end).
Proof.
  intros Hs H0 Hw Hp. unfold add_color_span.
  rewrite (last_color_upto_best p cs Hs).
  destruct (last_color_upto cs (start + w)) as [prev|e] eqn:El.
  - rewrite last_color_upto_py_sorted, best_app.
    replace (best p [(start, color_i); (start + w, prev)]) with (Some (start + w, prev))
      by (unfold best, prefer; cbn [foldr fst]; order_cases).
    rewrite prefer_from. cbn [fst].
    rewrite last_color_upto_best in El by exact Hs.
    destruct (best (start + w) cs) as [y1|] eqn:E1; [|discriminate].
    injection El as <-.
    destruct (best_In _ _ _ E1) as [Hy1 Hy1p].
    destruct (best_max p cs y1 Hy1 ltac:(lia)) as (y & Ey & Hle).
    rewrite Ey. cbn [style_of].
    destruct (Z.le_gt_cases (fst y) (start + w)) as [Hlow|Hhigh].
    + rewrite (best_lower p (start + w) cs y Ey Hlow Hp) in E1. injection E1 as <-.
      destruct (best p (List.filter _ cs)) as [z|] eqn:Ez; [|reflexivity].
      apply best_In in Ez as [Hz Hzp]. apply List.filter_In in Hz as [Hz _].
      destruct (best_max p cs z Hz Hzp) as (y2 & Hy2 & Hle2).
      rewrite Ey in Hy2. injection Hy2 as <-. order_cases.
    + rewrite (best_filter_Some p _ cs y Ey) by order_cases. order_cases.
  - pose proof (last_color_upto_Raise cs _ e El) as Hall.
    rewrite last_color_upto_py_sorted, best_app.
    replace (best p [(start, color_i); (start + w, 1)]) with (Some (start + w, 1))
      by (unfold best, prefer; cbn [foldr fst]; order_cases).
    rewrite prefer_from. cbn [fst List.filter].
    destruct (best p cs) as [y|] eqn:Ey.
    + destruct (best_In _ _ _ Ey) as [Hy Hyp]. specialize (Hall y Hy).
      assert (Ef : best p (List.filter (fun x => negb (fst x =? start)) cs) = Some y)
        by (apply best_filter_Some; [exact Ey|order_cases]).
      destruct (negb (0 =? start)).
      * rewrite best_cons, Ef. unfold prefer. cbn [fst style_of]. order_cases.
      * rewrite Ef. cbn [style_of]. order_cases.
    + assert (Ef : best p (List.filter (fun x => negb (fst x =? start)) cs) = None).
      { apply best_None. intros z Hz. apply List.filter_In in Hz as [Hz _].
        exact (proj1 (best_None p cs) Ey z Hz). }
      destruct (negb (0 =? start)).
      * rewrite best_cons, Ef. unfold prefer. cbn [fst style_of]. order_cases.
      * rewrite Ef. reflexivity.
Qed.

Lemma add_color_span_after_witness :
  last_color_upto (add_color_span [(0, 1); (4, 7); (9, 1)] 2 5 3) 8
  = Ok (match last_color_upto [(0, 1); (4, 7); (9, 1)] 8 with Ok q => q | Raise _ => 1 end).
Proof.
  apply (add_color_span_after [(0, 1); (4, 7); (9, 1)] 2 5 3 8); [|lia|lia|lia].
  repeat constructor; unfold by_offset; cbn; lia.
Defined.

(** ** The painting loop *)

Lemma screen_at_app (a b : list addstr) (p : Z) :
  screen_at (a ++ b) p
  = match screen_at b p with Some cell => Some cell | None => screen_at a p end.
Proof.
  induction a as [|[[[r col] t] k] a IH]; cbn [app screen_at].
  - destruct (screen_at b p); reflexivity.
  - rewrite IH. destruct (screen_at b p); reflexivity.
Qed.

Lemma py_slice_between {A} (a b : Z) (l : list A) :
  0 <= a -> a <= b -> b <= len l ->
  len (py_slice (Some a) (Some b) l) = b - a
  /\ forall p, a <= p -> p < b ->
       py_slice (Some a) (Some b) l !! Z.to_nat (p - a) = l !! Z.to_nat p.
Proof.
  intros Ha Hab Hb. unfold py_slice, slice_bound.
  destruct (a <? 0) eqn:E1; [lia|]. destruct (b <? 0) eqn:E2; [lia|].
  rewrite !Z.min_l by lia. split.
  - unfold len in *. rewrite length_take, length_drop. lia.
  - intros p Hp1 Hp2. rewrite lookup_take_lt by lia. rewrite lookup_drop.
    f_equal. lia.
Qed.

Lemma py_slice_upto_end {A} (a : Z) (l : list A) :
  py_slice (Some a) None l = py_slice (Some a) (Some (len l)) l.
Proof.
  unfold py_slice, slice_bound. pose proof (len_nonneg l).
  destruct (len l <? 0) eqn:E; [lia|]. rewrite Z.min_id. reflexivity.
Qed.

Lemma sorted_colors_cons (x : Color) (cs : list Color) :
  sorted_colors (x :: cs) -> sorted_colors cs /\ forall y, In y cs -> fst x <= fst y.
Proof.
  intros H. apply StronglySorted_inv in H as [Hs Hx]. split; [exact Hs|].
  intros y Hy. rewrite Forall_forall in Hx. apply (Hx y), list_elem_of_In, Hy.
Qed.

Lemma sorted_colors_lower (a : Z) (k : Z) (x : Color) (cs : list Color) :
  a <= fst x -> sorted_colors (x :: cs) -> sorted_colors ((a, k) :: x :: cs).
Proof.
  intros Ha H. destruct (sorted_colors_cons _ _ H) as [_ Hx].
  constructor; [exact H|]. constructor; [exact Ha|].
  apply Forall_forall. intros y Hy. apply list_elem_of_In in Hy.
  specialize (Hx y Hy). unfold by_offset. cbn [fst]. lia.
Qed.

Lemma paint_cell (row w : Z) (text : str) (rest : list Color) :
  len text = w ->
  forall col k p, 0 <= col -> sorted_colors ((col, k) :: rest) ->
    screen_at (paint row w text col k rest) p
    = if (col <=? p) && (p <? w)
      then match text !! Z.to_nat p, best p ((col, k) :: rest) with
           | Some ch, Some y => Some (ch, snd y)
           | _, _ => None
           end
      else None.
Proof.
  intros Hlen. induction rest as [|[n nk] rest IH]; intros col k p Hcol Hs.
  - cbn [paint]. destruct (col <? w) eqn:Ew.
    + apply Z.ltb_lt in Ew. cbn [screen_at]. rewrite py_slice_upto_end.
      destruct (py_slice_between col (len text) text) as [Hl Hat]; [lia..|].
      rewrite Hl. replace (col + (len text - col)) with w by lia.
      destruct ((col <=? p) && (p <? w)) eqn:Ec; [|reflexivity].
      apply andb_true_iff in Ec as [E1 E2]. apply Z.leb_le in E1. apply Z.ltb_lt in E2.
      rewrite Hat by lia. unfold best. cbn [foldr prefer fst].
      destruct (col <=? p) eqn:E3; [|apply Z.leb_gt in E3; lia].
      destruct (text !! Z.to_nat p); reflexivity.
    + apply Z.ltb_ge in Ew. cbn [screen_at].
      destruct ((col <=? p) && (p <? w)) eqn:Ec; [|reflexivity].
      apply andb_true_iff in Ec as [E1 E2]. apply Z.leb_le in E1. apply Z.ltb_lt in E2. lia.
  - cbn [paint]. rewrite screen_at_app.
    destruct (sorted_colors_cons _ _ Hs) as [Hs' Hlow].
    pose proof (Hlow (n, nk) (or_introl eq_refl)) as Hn. cbn [fst] in Hn.
    destruct (sorted_colors_cons _ _ Hs') as [Hs'' Hlow'].
    assert (Hsm : sorted_colors ((Z.min n w, nk) :: rest)).
    { destruct rest as [|x rest]; [repeat constructor|].
      apply sorted_colors_lower; [|exact Hs''].
      specialize (Hlow' x (or_introl eq_refl)). cbn [fst] in Hlow'. lia. }
    pose proof (len_nonneg text) as Hw0.
    rewrite (IH (Z.min n w) nk p ltac:(lia) Hsm).
    rewrite !best_cons.
    destruct (Z.le_gt_cases (Z.min n w) p) as [Hge|Hlt].
    + (* the column lies at or after the next breakpoint *)
      destruct (Z.min n w <=? p) eqn:E1; [|apply Z.leb_gt in E1; lia]. cbn [andb].
      destruct (p <? w) eqn:E2.
      * apply Z.ltb_lt in E2. rewrite Z.min_l in * by lia.
        destruct (col <=? p) eqn:E3; [|apply Z.leb_gt in E3; lia]. cbn [andb].
        destruct (text !! Z.to_nat p) as [ch|] eqn:Et.
        -- destruct (best p rest) as [y|] eqn:Eb.
           ++ destruct (best_In _ _ _ Eb) as [Hy _]. specialize (Hlow' y Hy).
              cbn [fst] in Hlow'. unfold prefer. cbn [fst]. order_cases.
           ++ unfold prefer. cbn [fst]. order_cases.
        -- destruct (col <? n) eqn:E4; [|reflexivity]. cbn [screen_at].
           destruct (py_slice_between col n text) as [Hl Hat]; [lia..|].
           rewrite Hl. replace (col + (n - col)) with n by lia.
           destruct ((col <=? p) && (p <? n)) eqn:E5; [|reflexivity].
           apply andb_true_iff in E5 as [_ E5]. apply Z.ltb_lt in E5. lia.
      * rewrite andb_false_r.
        apply Z.ltb_ge in E2.
        destruct (col <? Z.min n w) eqn:E4; [|reflexivity]. cbn [screen_at].
        apply Z.ltb_lt in E4.
        destruct (py_slice_between col (Z.min n w) text) as [Hl Hat]; [lia..|].
        rewrite Hl. replace (col + (Z.min n w - col)) with (Z.min n w) by lia.
        destruct ((col <=? p) && (p <? Z.min n w)) eqn:E5; [|reflexivity].
        apply andb_true_iff in E5 as [_ E5]. apply Z.ltb_lt in E5. lia.
    + (* the column lies before the next breakpoint *)
      destruct (Z.min n w <=? p) eqn:E1; [apply Z.leb_le in E1; lia|]. cbn [andb].
      destruct (col <? Z.min n w) eqn:E4.
      * apply Z.ltb_lt in E4. cbn [screen_at].
        destruct (py_slice_between col (Z.min n w) text) as [Hl Hat]; [lia..|].
        rewrite Hl. replace (col + (Z.min n w - col)) with (Z.min n w) by lia.
        destruct (col <=? p) eqn:E3; cbn [andb]; [|reflexivity].
        apply Z.leb_le in E3.
        destruct (p <? Z.min n w) eqn:E5; [|apply Z.ltb_ge in E5; lia].
        destruct (p <? w) eqn:E6; [|apply Z.ltb_ge in E6; lia].
        rewrite Hat by lia.
        assert (Hb : best p rest = None).
        { apply best_None. intros y Hy. specialize (Hlow' y Hy). cbn [fst] in Hlow'. lia. }
        rewrite Hb. unfold prefer. cbn [fst].
        destruct (n <=? p) eqn:E7; [apply Z.leb_le in E7; lia|].
        destruct (col <=? p) eqn:E8; [|apply Z.leb_gt in E8; lia].
        destruct (text !! Z.to_nat p); reflexivity.
      * apply Z.ltb_ge in E4. cbn [screen_at].
        destruct ((col <=? p) && (p <? w)) eqn:Ec; [|reflexivity].
        apply andb_true_iff in Ec as [E5 E6]. apply Z.leb_le in E5. apply Z.ltb_lt in E6. lia.
Qed.

Lemma py_index_nonneg {A} (l : list A) (i : Z) :
  0 <= i -> i < len l -> py_index l i = match l !! Z.to_nat i with
                                        | Some a => Ok a
                                        | None => Raise IndexError
                                        end.
Proof.
  intros H0 H1. unfold py_index, py_pos.
  destruct (0 <=? i) eqn:E1; [|apply Z.leb_gt in E1; lia].
  destruct (i <? len l) eqn:E2; [|apply Z.ltb_ge in E2; lia]. reflexivity.
Qed.

(** X5. The painting loop of [Line.draw], on breakpoints in the order of
    their offsets, the first at a column that is not negative, and a text
    as long as the width: every column from the first breakpoint up to the
    width shows the character the text has there, in the style the
    breakpoints give that column; no other column is written. *)
Theorem paint_shows_text_in_style (row w : Z) (text : str) (c0 k0 : Z)
    (rest : list Color) (p : Z) :
  len text = w -> 0 <= c0 -> sorted_colors ((c0, k0) :: rest) ->
  (c0 <= p < w ->
   exists ch k, py_index text p = Ok ch
                /\ last_color_upto ((c0, k0) :: rest) p = Ok k
                /\ screen_at (paint row w text c0 k0 rest) p = Some (ch, k))
  /\ (~ (c0 <= p < w) -> screen_at (paint row w text c0 k0 rest) p = None).
Proof.
  intros Hlen H0 Hs. rewrite (paint_cell row w text rest Hlen c0 k0 p H0 Hs). split.
  - intros [Hp1 Hp2].
    destruct (c0 <=? p) eqn:E1; [|apply Z.leb_gt in E1; lia].
    destruct (p <? w) eqn:E2; [|apply Z.ltb_ge in E2; lia]. cbn [andb].
    rewrite py_index_nonneg by lia.
    rewrite (last_color_upto_best p _ Hs).
    destruct (text !! Z.to_nat p) as [ch|] eqn:Et.
    + destruct (best_max p ((c0, k0) :: rest) (c0, k0) (or_introl eq_refl) Hp1)
        as (y & -> & _).
      exists ch, (snd y). auto.
    + apply lookup_ge_None in Et. unfold len in Hlen. lia.
  - intros Hn.
    destruct (c0 <=? p) eqn:E1; cbn [andb]; [|reflexivity].
    destruct (p <? w) eqn:E2; [|reflexivity].
    apply Z.leb_le in E1. apply Z.ltb_lt in E2. lia.
Qed.

Lemma paint_shows_text_in_style_witness :
  (0 <= 4 < 8 ->
   exists ch k, py_index (py "ab: 12  ") 4 = Ok ch
                /\ last_color_upto [(0, 1); (0, 7); (2, 1); (4, 3); (6, 1)] 4 = Ok k
                /\ screen_at (paint 0 8 (py "ab: 12  ") 0 1 [(0, 7); (2, 1); (4, 3); (6, 1)]) 4
                   = Some (ch, k))
  /\ (~ (0 <= 4 < 8) ->
      screen_at (paint 0 8 (py "ab: 12  ") 0 1 [(0, 7); (2, 1); (4, 3); (6, 1)]) 4 = None).
Proof.
  apply (paint_shows_text_in_style 0 8 (py "ab: 12  ") 0 1 [(0, 7); (2, 1); (4, 3); (6, 1)] 4).
  - reflexivity.
  - lia.
  - repeat constructor; unfold by_offset; cbn; lia.
Defined.

(** ** Scrolling by lines *)

Lemma py_next_up (p : Z -> result bool) (a : Z) (n s : nat) :
  (forall j, a + Z.of_nat s <= j < a + Z.of_nat (s + n) -> exists bo, p j = Ok bo) ->
  match py_next p (map (fun k => a + Z.of_nat k) (seq s n)) with
  | Ok (Some i) =>
      a + Z.of_nat s <= i < a + Z.of_nat (s + n) /\ p i = Ok true
      /\ forall j, a + Z.of_nat s <= j < i -> p j = Ok false
  | Ok None => forall j, a + Z.of_nat s <= j < a + Z.of_nat (s + n) -> p j = Ok false
  | Raise _ => False
  end.
Proof.
  revert s. induction n as [|n IH]; intros s Hp; cbn [seq map py_next].
  - intros j Hj. lia.
  - destruct (Hp (a + Z.of_nat s) ltac:(lia)) as [bo Hbo]. rewrite Hbo. cbn [rbind].
    destruct bo.
    + split; [lia|]. split; [exact Hbo|]. intros j Hj. lia.
    + specialize (IH (S s) ltac:(intros j Hj; apply Hp; lia)).
      destruct (py_next p _) as [[i|]|e]; [| |exact IH].
      * destruct IH as (Hi & Hpi & Hbefore). split; [lia|]. split; [exact Hpi|].
        intros j Hj. destruct (Z.eq_dec j (a + Z.of_nat s)) as [->|Hne]; [exact Hbo|].
        apply Hbefore. lia.
      * intros j Hj. destruct (Z.eq_dec j (a + Z.of_nat s)) as [->|Hne]; [exact Hbo|].
        apply IH. lia.
Qed.

(** [next((i for i in range(a, b) if p(i)), None)] is the first [i] of the
    range with [p(i)]. *)
Lemma py_next_range (p : Z -> result bool) (a b : Z) :
  (forall j, a <= j < b -> exists bo, p j = Ok bo) ->
  match py_next p (py_range a b) with
  | Ok (Some i) => a <= i < b /\ p i = Ok true /\ forall j, a <= j < i -> p j = Ok false
  | Ok None => forall j, a <= j < b -> p j = Ok false
  | Raise _ => False
  end.
Proof.
  intros Hp. unfold py_range.
  pose proof (py_next_up p a (Z.to_nat (b - a)) 0) as H.
  destruct (Z.le_gt_cases b a) as [Hle|Hgt].
  - replace (Z.to_nat (b - a)) with 0%nat in * by lia. cbn. intros j Hj. lia.
  - replace (a + Z.of_nat (0 + Z.to_nat (b - a))) with b in H by lia.
    replace (a + Z.of_nat 0) with a in H by lia.
    specialize (H Hp). destruct (py_next p _) as [[i|]|e]; exact H.
Qed.

Lemma py_next_down_aux (p : Z -> result bool) (a : Z) (n s : nat) :
  (forall j, a - Z.of_nat (s + n) < j <= a - Z.of_nat s -> exists bo, p j = Ok bo) ->
  match py_next p (map (fun k => a - Z.of_nat k) (seq s n)) with
  | Ok (Some i) =>
      a - Z.of_nat (s + n) < i <= a - Z.of_nat s /\ p i = Ok true
      /\ forall j, i < j <= a - Z.of_nat s -> p j = Ok false
  | Ok None => forall j, a - Z.of_nat (s + n) < j <= a - Z.of_nat s -> p j = Ok false
  | Raise _ => False
  end.
Proof.
  revert s. induction n as [|n IH]; intros s Hp; cbn [seq map py_next].
  - intros j Hj. lia.
  - destruct (Hp (a - Z.of_nat s) ltac:(lia)) as [bo Hbo]. rewrite Hbo. cbn [rbind].
    destruct bo.
    + split; [lia|]. split; [exact Hbo|]. intros j Hj. lia.
    + specialize (IH (S s) ltac:(intros j Hj; apply Hp; lia)).
      destruct (py_next p _) as [[i|]|e]; [| |exact IH].
      * destruct IH as (Hi & Hpi & Hbefore). split; [lia|]. split; [exact Hpi|].
        intros j Hj. destruct (Z.eq_dec j (a - Z.of_nat s)) as [->|Hne]; [exact Hbo|].
        apply Hbefore. lia.
      * intros j Hj. destruct (Z.eq_dec j (a - Z.of_nat s)) as [->|Hne]; [exact Hbo|].
        apply IH. lia.
Qed.

(** [next((i for i in range(a, -1, -1) if p(i)), None)] is the last [i]
    from [0] to [a] with [p(i)]. *)
Lemma py_next_range_down (p : Z -> result bool) (a : Z) :
  (forall j, 0 <= j <= a -> exists bo, p j = Ok bo) ->
  match py_next p (py_range_down a) with
  | Ok (Some i) => 0 <= i <= a /\ p i = Ok true /\ forall j, i < j <= a -> p j = Ok false
  | Ok None => forall j, 0 <= j <= a -> p j = Ok false
  | Raise _ => False
  end.
Proof.
  intros Hp. unfold py_range_down.
  pose proof (py_next_down_aux p a (Z.to_nat (a + 1)) 0) as H.
  destruct (Z.lt_ge_cases a 0) as [Hneg|Hpos].
  - replace (Z.to_nat (a + 1)) with 0%nat in * by lia. cbn. intros j Hj. lia.
  - replace (a - Z.of_nat (0 + Z.to_nat (a + 1))) with (-1) in H by lia.
    replace (a - Z.of_nat 0) with a in H by lia.
    assert (Hp' : forall j, -1 < j <= a -> exists bo, p j = Ok bo)
      by (intros j Hj; apply Hp; lia).
    specialize (H Hp'). destruct (py_next p _) as [[i|]|e]; [| |exact H].
    + destruct H as (Hi & Hpi & Hb). split; [lia|]. split; [exact Hpi|exact Hb].
    + intros j Hj. apply H. lia.
Qed.

Lemma shown_in_range (c : list Line) (j : Z) :
  0 <= j < len c -> exists bo, shown c j = Ok bo.
Proof.
  intros Hj. unfold shown. rewrite py_index_nonneg by lia.
  destruct (c !! Z.to_nat j) as [line|] eqn:E.
  - cbn [rbind]. destruct (json line); eauto.
  - apply lookup_ge_None in E. unfold len in Hj. lia.
Qed.

Lemma scrolled_iff (d d' : LinesDisplay) :
  scrolled d d' <-> exists t, d' = exec (set_top_row t) d.
Proof.
  split.
  - intros H. eexists. exact H.
  - intros [t ->]. reflexivity.
Qed.

Lemma scrolled_refl (d : LinesDisplay) : scrolled d d.
Proof. destruct d. reflexivity. Qed.

Lemma scrolled_trans (d1 d2 d3 : LinesDisplay) :
  scrolled d1 d2 -> scrolled d2 d3 -> scrolled d1 d3.
Proof.
  rewrite !scrolled_iff. intros [t1 ->] [t2 ->]. exists t2. reflexivity.
Qed.

Lemma scroll_screen_down_S (n : nat) (d : LinesDisplay) :
  scroll_screen_down (S n) d
  = match scroll_screen_down 1 d with
    | (d', Ok _) => scroll_screen_down n d'
    | (d', Raise e) => (d', Raise e)
    end.
Proof.
  unfold scroll_screen_down. cbn [repeatM].
  match goal with |- bind ?step _ _ = _ => generalize step end.
  intros step. unfold bind, ret. destruct (step d) as [d' [[]|e]]; reflexivity.
Qed.

Lemma scroll_screen_up_S (n : nat) (d : LinesDisplay) :
  scroll_screen_up (S n) d
  = match scroll_screen_up 1 d with
    | (d', Ok _) => scroll_screen_up n d'
    | (d', Raise e) => (d', Raise e)
    end.
Proof.
  unfold scroll_screen_up. cbn [repeatM].
  match goal with |- bind ?step _ _ = _ => generalize step end.
  intros step. unfold bind, ret. destruct (step d) as [d' [[]|e]]; reflexivity.
Qed.

Lemma scroll_screen_down_one (d : LinesDisplay) :
  0 <= top_row d ->
  exists t,
    scroll_screen_down 1 d = (exec (set_top_row t) d, Ok tt)
    /\ ((top_row d < t < len (content d)
         /\ shown (content d) t = Ok true
         /\ forall j, top_row d < j < t -> shown (content d) j = Ok false)
        \/ (t = top_row d
            /\ forall j, top_row d < j < len (content d) -> shown (content d) j = Ok false)).
Proof.
  intros H0. unfold scroll_screen_down. cbn [repeatM].
  unfold bind, get, lift, ret.
  pose proof (py_next_range (shown (content d)) (top_row d + 1) (len (content d))) as H.
  specialize (H ltac:(intros j Hj; apply shown_in_range; lia)).
  destruct (py_next _ _) as [[i|]|e]; [| |destruct H].
  - destruct H as (Hi & Hs & Hb). exists i. split; [reflexivity|].
    left. split; [lia|]. split; [exact Hs|]. intros j Hj. apply Hb. lia.
  - exists (top_row d). split; [reflexivity|].
    right. split; [reflexivity|]. intros j Hj. apply H. lia.
Qed.

(** X6. One step of [scroll_screen_down], from a top row that is not
    negative: it returns, changes nothing but [top_row], and moves the top
    row to the first line below it that is not hidden; where every line
    below is hidden, or there is none, the top row stays. *)
Theorem scroll_screen_down_next (d : LinesDisplay) :
  0 <= top_row d ->
  let d' := exec (scroll_screen_down 1) d in
  outcome (scroll_screen_down 1) d = Ok tt
  /\ scrolled d d'
  /\ ((top_row d < top_row d' < len (content d)
       /\ shown (content d) (top_row d') = Ok true
       /\ forall j, top_row d < j < top_row d' -> shown (content d) j = Ok false)
      \/ (top_row d' = top_row d
          /\ forall j, top_row d < j < len (content d) -> shown (content d) j = Ok false)).
Proof.
  intros H0 d'. subst d'. destruct (scroll_screen_down_one d H0) as (t & E & Hc).
  assert (Ex : exec (scroll_screen_down 1) d = exec (set_top_row t) d)
    by (unfold exec at 1; rewrite E; reflexivity).
  rewrite Ex. unfold outcome. rewrite E.
  change (top_row (exec (set_top_row t) d)) with t.
  split; [reflexivity|]. split; [reflexivity|exact Hc].
Qed.

Lemma scroll_screen_down_next_witness :
  let d' := exec (scroll_screen_down 1) array_collapsed in
  outcome (scroll_screen_down 1) array_collapsed = Ok tt
  /\ scrolled array_collapsed d'
  /\ ((top_row array_collapsed < top_row d' < len (content array_collapsed)
       /\ shown (content array_collapsed) (top_row d') = Ok true
       /\ forall j, top_row array_collapsed < j < top_row d' ->
            shown (content array_collapsed) j = Ok false)
      \/ (top_row d' = top_row array_collapsed
          /\ forall j, top_row array_collapsed < j < len (content array_collapsed) ->
               shown (content array_collapsed) j = Ok false)).
Proof.
  apply (scroll_screen_down_next array_collapsed). vm_compute. discriminate.
Defined.

Lemma scroll_screen_up_one (d : LinesDisplay) :
  top_in_buffer d ->
  exists t,
    scroll_screen_up 1 d = (exec (set_top_row t) d, Ok tt)
    /\ ((0 <= t < top_row d
         /\ shown (content d) t = Ok true
         /\ forall j, t < j < top_row d -> shown (content d) j = Ok false)
        \/ (t = top_row d
            /\ forall j, 0 <= j < top_row d -> shown (content d) j = Ok false)).
Proof.
  intros [H0 H1]. unfold scroll_screen_up. cbn [repeatM].
  unfold bind, get, lift, ret.
  pose proof (py_next_range_down (shown (content d)) (top_row d - 1)) as H.
  specialize (H ltac:(intros j Hj; apply shown_in_range; lia)).
  destruct (py_next _ _) as [[i|]|e]; [| |destruct H].
  - destruct H as (Hi & Hs & Hb). exists i. split; [reflexivity|].
    left. split; [lia|]. split; [exact Hs|]. intros j Hj. apply Hb. lia.
  - exists (top_row d). split; [reflexivity|].
    right. split; [reflexivity|]. intros j Hj. apply H. lia.
Qed.

(** X7. One step of [scroll_screen_up], from a top row in the buffer: it
    returns, changes nothing but [top_row], and moves the top row to the
    nearest line above it that is not hidden; where every line above is
    hidden, or there is none, the top row stays. *)
Theorem scroll_screen_up_previous (d : LinesDisplay) :
  top_in_buffer d ->
  let d' := exec (scroll_screen_up 1) d in
  outcome (scroll_screen_up 1) d = Ok tt
  /\ scrolled d d'
  /\ ((0 <= top_row d' < top_row d
       /\ shown (content d) (top_row d') = Ok true
       /\ forall j, top_row d' < j < top_row d -> shown (content d) j = Ok false)
      \/ (top_row d' = top_row d
          /\ forall j, 0 <= j < top_row d -> shown (content d) j = Ok false)).
Proof.
  intros Hin d'. subst d'. destruct (scroll_screen_up_one d Hin) as (t & E & Hc).
  assert (Ex : exec (scroll_screen_up 1) d = exec (set_top_row t) d)
    by (unfold exec at 1; rewrite E; reflexivity).
  rewrite Ex. unfold outcome. rewrite E.
  change (top_row (exec (set_top_row t) d)) with t.
  split; [reflexivity|]. split; [reflexivity|exact Hc].
Qed.

Lemma scroll_screen_up_previous_witness :
  let d' := exec (scroll_screen_up 1) array_scrolled in
  outcome (scroll_screen_up 1) array_scrolled = Ok tt
  /\ scrolled array_scrolled d'
  /\ ((0 <= top_row d' < top_row array_scrolled
       /\ shown (content array_scrolled) (top_row d') = Ok true
       /\ forall j, top_row d' < j < top_row array_scrolled ->
            shown (content array_scrolled) j = Ok false)
      \/ (top_row d' = top_row array_scrolled
          /\ forall j, 0 <= j < top_row array_scrolled ->
               shown (content array_scrolled) j = Ok false)).
Proof.
  apply (scroll_screen_up_previous array_scrolled).
  split; vm_compute; discriminate.
Defined.

Lemma scrolled_content (d d' : LinesDisplay) : scrolled d d' -> content d' = content d.
Proof. intros ->. reflexivity. Qed.

Lemma scroll_screen_down_many (n : nat) (d : LinesDisplay) :
  top_in_buffer d ->
  let d' := exec (scroll_screen_down n) d in
  outcome (scroll_screen_down n) d = Ok tt
  /\ scrolled d d'
  /\ top_in_buffer d'
  /\ top_row d <= top_row d'
  /\ (top_row d' = top_row d \/ shown (content d) (top_row d') = Ok true).
Proof.
  revert d. induction n as [|n IH]; intros d Hin d'; subst d'.
  - unfold exec, outcome. cbn. split; [reflexivity|]. split; [apply scrolled_refl|].
    split; [exact Hin|]. split; [lia|]. left. reflexivity.
  - destruct (scroll_screen_down_one d (proj1 Hin)) as (t & E & Hcases).
    unfold exec, outcome in *. rewrite scroll_screen_down_S, E.
    set (d1 := (set_top_row t d).1) in *.
    assert (Hsc : scrolled d d1) by reflexivity.
    change (top_row d1) with t in *.
    pose proof (scrolled_content _ _ Hsc) as Hc.
    assert (Hin1 : top_in_buffer d1).
    { unfold top_in_buffer in *. rewrite Hc. change (top_row d1) with t.
      destruct Hcases as [(H1 & _)|(H1 & _)]; lia. }
    destruct (IH d1 Hin1) as (Ho' & Hsc' & Hin' & Hle & Hsh).
    change (top_row d1) with t in Hle, Hsh.
    unfold exec, outcome in *. destruct (scroll_screen_down n d1) as [d2 r2].
    cbn [fst snd] in *. split; [exact Ho'|].
    split; [exact (scrolled_trans _ _ _ Hsc Hsc')|]. split; [exact Hin'|].
    split; [destruct Hcases as [(H1 & _)|(H1 & _)]; lia|].
    rewrite Hc in Hsh. destruct Hsh as [Heq|Hsh]; [|right; exact Hsh].
    rewrite Heq. destruct Hcases as [(_ & H1 & _)|(H1 & _)]; [right; exact H1|left; exact H1].
Qed.

Lemma scroll_screen_up_many (n : nat) (d : LinesDisplay) :
  top_in_buffer d ->
  let d' := exec (scroll_screen_up n) d in
  outcome (scroll_screen_up n) d = Ok tt
  /\ scrolled d d'
  /\ top_in_buffer d'
  /\ top_row d' <= top_row d
  /\ (top_row d' = top_row d \/ shown (content d) (top_row d') = Ok true).
Proof.
  revert d. induction n as [|n IH]; intros d Hin d'; subst d'.
  - unfold exec, outcome. cbn. split; [reflexivity|]. split; [apply scrolled_refl|].
    split; [exact Hin|]. split; [lia|]. left. reflexivity.
  - destruct (scroll_screen_up_one d Hin) as (t & E & Hcases).
    unfold exec, outcome in *. rewrite scroll_screen_up_S, E.
    set (d1 := (set_top_row t d).1) in *.
    assert (Hsc : scrolled d d1) by reflexivity.
    change (top_row d1) with t in *.
    pose proof (scrolled_content _ _ Hsc) as Hc.
    assert (Hin1 : top_in_buffer d1).
    { unfold top_in_buffer in *. rewrite Hc. change (top_row d1) with t.
      destruct Hcases as [(H1 & _)|(H1 & _)]; lia. }
    destruct (IH d1 Hin1) as (Ho' & Hsc' & Hin' & Hle & Hsh).
    change (top_row d1) with t in Hle, Hsh.
    unfold exec, outcome in *. destruct (scroll_screen_up n d1) as [d2 r2].
    cbn [fst snd] in *. split; [exact Ho'|].
    split; [exact (scrolled_trans _ _ _ Hsc Hsc')|]. split; [exact Hin'|].
    split; [destruct Hcases as [(H1 & _)|(H1 & _)]; lia|].
    rewrite Hc in Hsh. destruct Hsh as [Heq|Hsh]; [|right; exact Hsh].
    rewrite Heq. destruct Hcases as [(_ & H1 & _)|(H1 & _)]; [right; exact H1|left; exact H1].
Qed.

(** X8. [scroll_screen_down(n)] and [scroll_screen_up(n)], from a top row
    in the buffer: each returns, changes nothing but [top_row], and leaves
    the top row in the buffer, not above where it was for the one and not
    below for the other; where the top row has moved it is on a line that
    is not hidden. *)
Theorem scroll_screen_stays_in_buffer (n : nat) (d : LinesDisplay) :
  top_in_buffer d ->
  (outcome (scroll_screen_down n) d = Ok tt
   /\ scrolled d (exec (scroll_screen_down n) d)
   /\ top_in_buffer (exec (scroll_screen_down n) d)
   /\ top_row d <= top_row (exec (scroll_screen_down n) d)
   /\ (top_row (exec (scroll_screen_down n) d) = top_row d
       \/ shown (content d) (top_row (exec (scroll_screen_down n) d)) = Ok true))
  /\ (outcome (scroll_screen_up n) d = Ok tt
      /\ scrolled d (exec (scroll_screen_up n) d)
      /\ top_in_buffer (exec (scroll_screen_up n) d)
      /\ top_row (exec (scroll_screen_up n) d) <= top_row d
      /\ (top_row (exec (scroll_screen_up n) d) = top_row d
          \/ shown (content d) (top_row (exec (scroll_screen_up n) d)) = Ok true)).
Proof.
  intros Hin. split.
  - exact (scroll_screen_down_many n d Hin).
  - exact (scroll_screen_up_many n d Hin).
Qed.

Lemma scroll_screen_stays_in_buffer_witness :
  (outcome (scroll_screen_down 30) array_scrolled = Ok tt
   /\ scrolled array_scrolled (exec (scroll_screen_down 30) array_scrolled)
   /\ top_in_buffer (exec (scroll_screen_down 30) array_scrolled)
   /\ top_row array_scrolled <= top_row (exec (scroll_screen_down 30) array_scrolled)
   /\ (top_row (exec (scroll_screen_down 30) array_scrolled) = top_row array_scrolled
       \/ shown (content array_scrolled)
            (top_row (exec (scroll_screen_down 30) array_scrolled)) = Ok true))
  /\ (outcome (scroll_screen_up 30) array_scrolled = Ok tt
      /\ scrolled array_scrolled (exec (scroll_screen_up 30) array_scrolled)
      /\ top_in_buffer (exec (scroll_screen_up 30) array_scrolled)
      /\ top_row (exec (scroll_screen_up 30) array_scrolled) <= top_row array_scrolled
      /\ (top_row (exec (scroll_screen_up 30) array_scrolled) = top_row array_scrolled
          \/ shown (content array_scrolled)
               (top_row (exec (scroll_screen_up 30) array_scrolled)) = Ok true)).
Proof.
  apply (scroll_screen_stays_in_buffer 30 array_scrolled).
  split; vm_compute; discriminate.
Defined.

(** ** The redraw *)

Lemma draw_skip_uncollapsed (l : Line) (idx : Z) :
  uncollapsed l = true -> draw_skip l idx = Ok idx.
Proof.
  unfold uncollapsed, ann_uncollapsed, draw_skip. destruct (json l) as [a|]; [|reflexivity].
  destruct (collapsible a); [|reflexivity].
  destruct (entity a) as [e|]; [|discriminate].
  destruct (collapsed e); [discriminate|reflexivity].
Qed.

Lemma py_index_in_range {A} (l : list A) (i : Z) :
  0 <= i < len l -> exists x, py_index l i = Ok x /\ l !! Z.to_nat i = Some x.
Proof.
  intros Hi. rewrite py_index_nonneg by lia.
  destruct (l !! Z.to_nat i) as [x|] eqn:E; [eauto|].
  apply lookup_ge_None in E. unfold len in Hi. lia.
Qed.

Lemma draw_scan_uncollapsed (n : nat) (cursor : option Z) (c : list Line) (idx : Z)
    (lines : list Line) (crow : option Z) :
  Forall (fun l => uncollapsed l = true) c -> 0 <= idx ->
  exists lines' crow' n',
    draw_scan n cursor c idx lines crow
    = Ok (Z.min (idx + Z.of_nat n) (Z.max idx (len c)), lines', crow', n').
Proof.
  intros Hc. revert idx lines crow.
  induction n as [|n IH]; intros idx lines crow H0; cbn [draw_scan].
  - do 3 eexists. do 4 f_equal. lia.
  - destruct (idx <? len c) eqn:E.
    + apply Z.ltb_lt in E.
      destruct (py_index_in_range c idx ltac:(lia)) as (line & -> & Hl). cbn [rbind].
      rewrite Forall_forall in Hc.
      rewrite draw_skip_uncollapsed by (apply Hc; eapply list_elem_of_lookup_2; exact Hl).
      cbn [rbind].
      match goal with |- context [draw_scan n cursor c (idx + 1) ?l ?r] =>
        destruct (IH (idx + 1) l r ltac:(lia)) as (lines' & crow' & n' & ->) end.
      do 3 eexists. do 4 f_equal. lia.
    + apply Z.ltb_ge in E. do 3 eexists. do 4 f_equal. lia.
Qed.

Lemma draw_sets_bottom_row_aux (d : LinesDisplay) :
  started d = true -> 0 <= top_row d ->
  Forall (fun l => uncollapsed l = true) (content d) ->
  exec draw d
  = exec (set_bottom_row
            (Z.max 0 (Z.min (top_row d + Z.max 0 (scr_height d - 2))
                            (Z.max (top_row d) (len (content d))) - 1))) d.
Proof.
  intros Hs H0 Hc. rewrite draw_exec by exact Hs.
  destruct (draw_scan_uncollapsed (Z.to_nat (scr_height d - 1 - 1)) (cursor_row d)
              (content d) (top_row d) [header d] None Hc H0) as (lines & crow & n & ->).
  replace (Z.of_nat (Z.to_nat (scr_height d - 1 - 1))) with (Z.max 0 (scr_height d - 2)) by lia.
  reflexivity.
Qed.

(** Painting can end the redraw: on a screen that refuses every write,
    [draw] raises what the screen raised, with [bottom_row] already set. *)
Lemma draw_on_refusing_screen :
  let d := exec (print (py "a") true)
             (new_LinesDisplay_on 24 80 (fun _ => Some CursesError)) in
  outcome draw d = Raise CursesError /\ exec draw d = d.
Proof. split; reflexivity. Qed.

(** X9. [draw] on a started viewer whose top row is not negative and in
    whose buffer nothing is collapsed, whether the painting returns or
    raises: nothing of the viewer changes but [bottom_row], which becomes
    the row of the last line chosen for the screen: the screen takes
    [height - 2] lines from the top row on, fewer where the buffer ends
    before. *)
Theorem draw_sets_bottom_row (d : LinesDisplay) :
  started d = true -> 0 <= top_row d ->
  Forall (fun l => uncollapsed l = true) (content d) ->
  exec draw d
  = exec (set_bottom_row
            (Z.max 0 (Z.min (top_row d + Z.max 0 (scr_height d - 2))
                            (Z.max (top_row d) (len (content d))) - 1))) d.
Proof. exact (draw_sets_bottom_row_aux d). Qed.

Lemma draw_sets_bottom_row_witness :
  exec draw array_alone
  = exec (set_bottom_row
            (Z.max 0 (Z.min (top_row array_alone + Z.max 0 (scr_height array_alone - 2))
                            (Z.max (top_row array_alone) (len (content array_alone))) - 1)))
         array_alone.
Proof.
  apply (draw_sets_bottom_row array_alone).
  - reflexivity.
  - vm_compute. discriminate.
  - repeat constructor.
Defined.

(** ** Plain text *)

Ltac fold_exec_draw :=
  match goal with
  | |- context [fst (draw ?x)] => change (fst (draw x)) with (exec draw x)
  end.

(** X10. [print(s)] with [flush=True], and [print] on a viewer that is not
    started: the buffer afterwards is the buffer before, followed by one
    new line without colours or annotation for each line of [s]; a viewer
    that was not started is started by the call and loses what its buffer
    held. *)
Theorem print_appends_lines (d : LinesDisplay) (text : str) (flush : bool) :
  flush = true \/ started d = false ->
  content (exec (print text flush) d)
  = (if started d then content d else []) ++ map new_Line (splitlines text).
Proof.
  intros H. unfold print, exec. unfold bind at 1, ensure_started, bind at 1, get, ret.
  destruct (started d) eqn:Hs.
  - destruct H as [->|H]; [|discriminate]. unfold bind at 1.
    destruct (map new_Line (splitlines text)) as [|f r] eqn:E.
    + unfold bind at 1, set_content at 1. fold_exec_draw.
      rewrite draw_content by (cbn; assumption). reflexivity.
    + rewrite andb_false_r. unfold bind at 1, set_content at 1. fold_exec_draw.
      rewrite draw_content by (cbn; assumption). reflexivity.
  - unfold start, bind at 1. cbn [content].
    destruct (map new_Line (splitlines text)) as [|f r] eqn:E.
    + unfold bind at 1, set_content at 1. fold_exec_draw.
      rewrite draw_content by reflexivity. reflexivity.
    + change (len (@nil Line) =? 0) with true. cbn [andb negb].
      unfold bind at 1, set_content at 1. fold_exec_draw.
      rewrite draw_content by reflexivity. reflexivity.
Qed.

Lemma print_appends_lines_witness :
  content (exec (print (py "one" ++ [10%N] ++ py "two") false) (new_LinesDisplay 24 80))
  = (if started (new_LinesDisplay 24 80) then content (new_LinesDisplay 24 80) else [])
    ++ map new_Line (splitlines (py "one" ++ [10%N] ++ py "two")).
Proof.
  apply (print_appends_lines (new_LinesDisplay 24 80) (py "one" ++ [10%N] ++ py "two") false).
  right. reflexivity.
Defined.

(** ** Collapsing again *)

Lemma set_collapsed_cases (d : LinesDisplay) (n : Z) (b : bool) :
  exec (set_collapsed n b) d = d
  \/ exists k line a e,
       py_pos (content d) n = Some k /\ content d !! k = Some line
       /\ json line = Some a /\ collapsible a = true
       /\ entity a = Some e /\ collapsed e = negb b.
Proof.
  unfold exec, set_collapsed. unfold bind at 1, get. unfold bind at 1, lift.
  destruct (py_index (content d) n) as [line|ex] eqn:Hi; [|left; reflexivity].
  destruct (py_index_Ok _ _ _ Hi) as (k & Hp & Hl).
  destruct (json line) as [a|] eqn:Hj; [|left; reflexivity].
  destruct (collapsible a) eqn:Hc; [|left; reflexivity]. cbn [negb].
  destruct (entity a) as [e|] eqn:He; [|left; reflexivity].
  destruct (Bool.eqb (collapsed e) b) eqn:Hb; [left; reflexivity|].
  right. exists k, line, a, e. repeat split; try assumption.
  destruct (collapsed e), b; try reflexivity; discriminate.
Qed.

Lemma set_collapsed_noop (d : LinesDisplay) (n : Z) (b : bool) (x : Line)
    (a : JsonAnnotation) (e : JsonEntity) :
  py_index (content d) n = Ok x -> json x = Some a -> collapsible a = true ->
  entity a = Some e -> collapsed e = b ->
  set_collapsed n b d = (d, Ok tt).
Proof.
  intros Hi Hj Hc He Hb. unfold set_collapsed. unfold bind at 1, get. unfold bind at 1, lift.
  rewrite Hi, Hj, Hc, He, Hb. cbn [negb]. rewrite Bool.eqb_reflx. reflexivity.
Qed.

Lemma py_index_of_pos {A} (l : list A) (i : Z) (k : nat) (x : A) :
  py_pos l i = Some k -> l !! k = Some x -> py_index l i = Ok x.
Proof. intros Hp Hl. unfold py_index. rewrite Hp, Hl. reflexivity. Qed.

(** The line at the row of the start after a call that takes effect. *)
Lemma set_collapsed_start (d : LinesDisplay) (n : Z) (b : bool) (k : nat)
    (line : Line) (a : JsonAnnotation) (e : JsonEntity) :
  started d = true ->
  py_pos (content d) n = Some k -> content d !! k = Some line ->
  json line = Some a -> collapsible a = true ->
  entity a = Some e -> collapsed e = negb b ->
  length (content (exec (set_collapsed n b) d)) = length (content d)
  /\ exists x, content (exec (set_collapsed n b) d) !! k = Some x
               /\ same_entity line e b x.
Proof.
  intros Hs Hp Hl Hj Hc He Hb.
  destruct (set_collapsed_content d n b k line a e Hs Hp Hl Hj Hc He Hb) as [_ Hc1].
  assert (Hl0 : alter (set_line_collapsed b) k (content d) !! k
                = Some (set_line_collapsed b line)).
  { rewrite list_lookup_alter_eq, Hl. reflexivity. }
  assert (Hq0 : same_entity line e b (set_line_collapsed b line)).
  { unfold set_line_collapsed. rewrite Hj, He. split; [reflexivity|].
    eexists. split; [reflexivity|]. split; [|reflexivity].
    intros a0 Ha0. rewrite Hj in Ha0. injection Ha0 as <-. reflexivity. }
  rewrite Hc1. split.
  - destruct (row line), (pair_idx e); rewrite ?bump_at_length; apply length_alter.
  - destruct (row line), (pair_idx e); eauto.
    eapply bump_at_lookup; eauto. intros; by apply same_entity_bump.
Qed.

(** X11. A repeated [set_collapsed] does nothing: on a started viewer,
    after a call [set_collapsed(line_num, collapsed)] that returned, the
    same call again returns and leaves the viewer as it is. *)
Theorem set_collapsed_again (d : LinesDisplay) (n : Z) (b : bool) :
  started d = true ->
  outcome (set_collapsed n b) d = Ok tt ->
  set_collapsed n b (exec (set_collapsed n b) d) = (exec (set_collapsed n b) d, Ok tt).
Proof.
  intros Hs Ho.
  destruct (set_collapsed_cases d n b) as [Hd|(k & line & a & e & Hp & Hl & Hj & Hc & He & Hb)].
  - rewrite Hd. unfold exec, outcome in *.
    destruct (set_collapsed n b d) as [d1 r]. cbn [fst snd] in *. congruence.
  - destruct (set_collapsed_start d n b k line a e Hs Hp Hl Hj Hc He Hb)
      as (Hlen & x & Hx & Hr & a' & Hj' & Hc' & He').
    eapply set_collapsed_noop.
    + eapply py_index_of_pos; [|exact Hx].
      rewrite (py_pos_length _ (content d)); assumption.
    + exact Hj'.
    + rewrite (Hc' a Hj). exact Hc.
    + exact He'.
    + reflexivity.
Qed.

Lemma set_collapsed_again_witness :
  set_collapsed 0 true (exec (set_collapsed 0 true) array_alone)
  = (exec (set_collapsed 0 true) array_alone, Ok tt).
Proof.
  apply (set_collapsed_again array_alone 0 true); reflexivity.
Defined.

Lemma layout_bump_hidden (delta : Z) (x : Line) : layout (bump_hidden delta x) = layout x.
Proof. unfold bump_hidden. destruct (json x); reflexivity. Qed.

Lemma layout_set_line_collapsed (b : bool) (x : Line) :
  layout (set_line_collapsed b x) = layout x.
Proof.
  unfold set_line_collapsed. destruct (json x) as [a|]; [|reflexivity].
  destruct (entity a); reflexivity.
Qed.

Lemma map_alter_same {A B} (f : A -> B) (g : A -> A) (k : nat) (l : list A) :
  (forall x, f (g x) = f x) -> map f (alter g k l) = map f l.
Proof.
  intros H. revert k. induction l as [|y l IH]; intros k; [reflexivity|].
  destruct k as [|k]; cbn; [rewrite H|rewrite IH]; reflexivity.
Qed.

Lemma layout_bump_at (delta : Z) (ks : list nat) (c : list Line) :
  map layout (bump_at delta ks c) = map layout c.
Proof.
  revert c. induction ks as [|k ks IH]; intros c; cbn; [reflexivity|].
  unfold bump_at in IH. rewrite IH. apply map_alter_same. apply layout_bump_hidden.
Qed.

(** X12. [set_collapsed] on a started viewer, whether it returns or raises:
    the buffer keeps its lines in their order, each with its text, colours,
    row and offset; only annotations change. *)
Theorem set_collapsed_keeps_layout (d : LinesDisplay) (n : Z) (b : bool) :
  started d = true ->
  map layout (content (exec (set_collapsed n b) d)) = map layout (content d).
Proof.
  intros Hs.
  destruct (set_collapsed_cases d n b) as [Hd|(k & line & a & e & Hp & Hl & Hj & Hc & He & Hb)].
  - rewrite Hd. reflexivity.
  - destruct (set_collapsed_content d n b k line a e Hs Hp Hl Hj Hc He Hb) as [_ ->].
    destruct (row line), (pair_idx e); rewrite ?layout_bump_at;
      apply map_alter_same, layout_set_line_collapsed.
Qed.

Lemma set_collapsed_keeps_layout_witness :
  map layout (content (exec (set_collapsed 0 true) array_alone))
  = map layout (content array_alone).
Proof.
  apply (set_collapsed_keeps_layout array_alone 0 true). reflexivity.
Defined.

(** ** The mode toggle *)

Lemma draw_keeps_cursor (d : LinesDisplay) :
  mode (exec draw d) = mode d /\ cursor_row (exec draw d) = cursor_row d.
Proof.
  unfold exec at 1 2. rewrite draw_ensure_started.
  change (fst (draw ?x)) with (exec draw x).
  rewrite draw_exec by apply ensure_started_started.
  assert (E : mode (exec ensure_started d) = mode d
              /\ cursor_row (exec ensure_started d) = cursor_row d).
  { unfold exec, ensure_started, bind, get, ret, start. destruct (started d); auto. }
  destruct (draw_scan _ _ _ _ _ _) as [[[[idx lines] crow] space]|e]; exact E.
Qed.

Lemma enter_mode_keeps_cursor (m : Mode) (d : LinesDisplay) :
  mode (exec (set_mode m;;; set_footer_for_mode;;; draw)%method d) = m
  /\ cursor_row (exec (set_mode m;;; set_footer_for_mode;;; draw)%method d) = cursor_row d.
Proof.
  assert (E : (set_mode m;;; set_footer_for_mode;;; draw)%method d
              = draw (exec (set_mode m;;; set_footer_for_mode)%method d)) by reflexivity.
  destruct (draw_keeps_cursor (exec (set_mode m;;; set_footer_for_mode)%method d)) as [H1 H2].
  change (exec draw ?x) with (fst (draw x)) in H1, H2. rewrite <- E in H1, H2.
  split; [exact H1|exact H2].
Qed.

(** X13. [cycle_mode] never leaves the viewer in JSON mode without a
    cursor: whatever the viewer, and whether the call returns or raises,
    if the mode afterwards is JSON then [cursor_row] is a row. *)
Theorem cycle_mode_json_has_cursor (d : LinesDisplay) :
  mode (exec cycle_mode d) = JSON -> exists c, cursor_row (exec cycle_mode d) = Some c.
Proof.
  unfold exec. remember (cycle_mode d) as res eqn:Hres.
  unfold cycle_mode in Hres. unfold bind at 1, get in Hres.
  destruct (mode d) eqn:Hm.
  - destruct (match cursor_row d with
              | Some c => (c <? top_row d) || (bottom_row d <? c)
              | None => true
              end) eqn:Hre.
    + unfold bind at 1, lift in Hres.
      destruct (py_next _ _) as [[i|]|e].
      * unfold bind at 1, set_cursor_row at 1 in Hres.
        match type of Hres with _ = ?m ?x =>
          destruct (enter_mode_keeps_cursor JSON x) as [H1 H2] end.
        unfold exec in H1, H2. rewrite <- Hres in H1, H2. rewrite H2.
        intros _. eexists. reflexivity.
      * subst res. cbn. congruence.
      * subst res. cbn. congruence.
    + destruct (cursor_row d) as [c|] eqn:Hc; [|discriminate].
      match type of Hres with _ = ?m ?x =>
        destruct (enter_mode_keeps_cursor JSON x) as [H1 H2] end.
      unfold exec in H1, H2. rewrite <- Hres in H1, H2. rewrite H2.
      intros _. eauto.
  - match type of Hres with _ = ?m ?x =>
      destruct (enter_mode_keeps_cursor SCROLL x) as [H1 H2] end.
    unfold exec in H1, H2. rewrite <- Hres in H1, H2. rewrite H1. discriminate.
Qed.

Lemma cycle_mode_json_has_cursor_witness :
  exists c, cursor_row (exec cycle_mode before_toggle) = Some c.
Proof.
  apply (cycle_mode_json_has_cursor before_toggle). reflexivity.
Defined.

Lemma eligible_in_range (c : list Line) (j : Z) :
  0 <= j < len c -> exists bo, eligible c j = Ok bo.
Proof.
  intros Hj. unfold eligible.
  destruct (py_index_in_range c j Hj) as (line & -> & _). cbn [rbind].
  destruct (json line); eauto.
Qed.

(** X14. The toggle into JSON mode with no cursor, or a cursor outside the
    rows from [top_row] to [bottom_row], the top row not being negative:
    the cursor is put on the first line at or after the top row that has a
    key or is a container start, and the mode becomes JSON; where the
    buffer has no such line the cursor is cleared and nothing else
    changes. *)
Theorem cycle_mode_anchors_cursor (d : LinesDisplay) :
  mode d = SCROLL -> 0 <= top_row d ->
  match cursor_row d with
  | None => True
  | Some c => c < top_row d \/ bottom_row d < c
  end ->
  match cursor_row (exec cycle_mode d) with
  | Some i =>
      mode (exec cycle_mode d) = JSON
      /\ top_row d <= i < len (content d)
      /\ eligible (content d) i = Ok true
      /\ forall j, top_row d <= j < i -> eligible (content d) j = Ok false
  | None =>
      exec cycle_mode d = exec (set_cursor_row None) d
      /\ forall j, top_row d <= j < len (content d) -> eligible (content d) j = Ok false
  end.
Proof.
  intros Hm H0 Hout. unfold exec. remember (cycle_mode d) as res eqn:Hres.
  unfold cycle_mode in Hres. unfold bind at 1, get in Hres. rewrite Hm in Hres.
  assert (Hre : match cursor_row d with
                | Some c => (c <? top_row d) || (bottom_row d <? c)
                | None => true
                end = true).
  { destruct (cursor_row d) as [c|]; [|reflexivity].
    apply orb_true_iff. destruct Hout; [left; apply Z.ltb_lt|right; apply Z.ltb_lt]; assumption. }
  rewrite Hre in Hres. unfold bind at 1, lift in Hres.
  pose proof (py_next_range (eligible (content d)) (top_row d) (len (content d))) as H.
  specialize (H ltac:(intros j Hj; apply eligible_in_range; lia)).
  destruct (py_next _ _) as [[i|]|e]; [| |destruct H].
  - unfold bind at 1, set_cursor_row at 1 in Hres.
    match type of Hres with _ = ?m ?x =>
      destruct (enter_mode_keeps_cursor JSON x) as [H1 H2] end.
    unfold exec in H1, H2. rewrite <- Hres in H1, H2. rewrite H1, H2.
    cbn [cursor_row]. destruct H as (Hi & He & Hb). auto.
  - subst res. cbn [fst]. unfold bind, set_cursor_row, ret. cbn [fst cursor_row].
    split; [reflexivity|exact H].
Qed.

Lemma cycle_mode_anchors_cursor_witness :
  match cursor_row (exec cycle_mode array_alone) with
  | Some i =>
      mode (exec cycle_mode array_alone) = JSON
      /\ top_row array_alone <= i < len (content array_alone)
      /\ eligible (content array_alone) i = Ok true
      /\ forall j, top_row array_alone <= j < i -> eligible (content array_alone) j = Ok false
  | None =>
      exec cycle_mode array_alone = exec (set_cursor_row None) array_alone
      /\ forall j, top_row array_alone <= j < len (content array_alone) ->
           eligible (content array_alone) j = Ok false
  end.
Proof.
  apply (cycle_mode_anchors_cursor array_alone).
  - reflexivity.
  - vm_compute. discriminate.
  - exact I.
Defined.

(** ** The cursor *)

Lemma eligible_shown_in_range (c : list Line) (j : Z) :
  0 <= j < len c -> exists bo, eligible_shown c j = Ok bo.
Proof.
  intros Hj. unfold eligible_shown.
  destruct (py_index_in_range c j Hj) as (line & -> & _). cbn [rbind].
  destruct (json line); eauto.
Qed.

(** X15. [scroll_json_up] with the cursor on a row of the buffer and the
    top row in the buffer: it returns and keeps the buffer; the cursor goes
    to the nearest line above it that has a key or is a container start and
    is not hidden, and stays where no line above is such a line; afterwards
    the top row is not below the cursor. *)
Theorem scroll_json_up_cursor (d : LinesDisplay) (c : Z) :
  cursor_row d = Some c -> c <= len (content d) -> top_in_buffer d ->
  outcome scroll_json_up d = Ok tt
  /\ content (exec scroll_json_up d) = content d
  /\ exists r,
       cursor_row (exec scroll_json_up d) = Some r
       /\ top_row (exec scroll_json_up d) <= r
       /\ ((0 <= r < c
            /\ eligible_shown (content d) r = Ok true
            /\ forall j, r < j < c -> eligible_shown (content d) j = Ok false)
           \/ (r = c
               /\ forall j, 0 <= j < c -> eligible_shown (content d) j = Ok false)).
Proof.
  intros Hc Hlen Hin. unfold exec, outcome.
  remember (scroll_json_up d) as res eqn:Hres.
  unfold scroll_json_up in Hres. unfold bind at 1, get in Hres.
  unfold bind at 1, cursor_int, bind at 1, get in Hres. rewrite Hc in Hres.
  unfold ret at 1 in Hres. unfold bind at 1, lift in Hres.
  pose proof (py_next_range_down (eligible_shown (content d)) (c - 1)) as H.
  specialize (H ltac:(intros j Hj; apply eligible_shown_in_range; lia)).
  destruct (py_next _ _) as [[r|]|e]; [| |destruct H].
  - destruct H as (Hr & He & Hb).
    unfold bind at 1, set_cursor_row at 1 in Hres.
    unfold bind at 1, get in Hres. unfold bind at 1, bind at 1, get in Hres.
    cbn [cursor_row] in Hres. unfold ret at 1 in Hres. cbn [top_row] in Hres.
    destruct (r <? top_row d) eqn:E; subst res; cbn.
    + split; [reflexivity|]. split; [reflexivity|]. exists r.
      split; [reflexivity|]. split; [lia|]. left. split; [lia|]. split; [exact He|].
      intros j Hj. apply Hb. lia.
    + apply Z.ltb_ge in E. split; [reflexivity|]. split; [reflexivity|]. exists r.
      split; [reflexivity|]. split; [lia|]. left. split; [lia|]. split; [exact He|].
      intros j Hj. apply Hb. lia.
  - destruct (scroll_screen_up_one d Hin) as (t & Et & _).
    unfold bind at 1 in Hres. rewrite Et in Hres.
    unfold exec in Hres.
    unfold bind at 1, get in Hres. unfold bind at 1, bind at 1, get in Hres.
    change (cursor_row (set_top_row t d).1) with (cursor_row d) in Hres.
    rewrite Hc in Hres. unfold ret at 1 in Hres.
    change (top_row (set_top_row t d).1) with t in Hres.
    destruct (c <? t) eqn:E; subst res; cbn.
    + split; [reflexivity|]. split; [reflexivity|]. exists c.
      split; [exact Hc|]. split; [lia|]. right. split; [reflexivity|].
      intros j Hj. apply H. lia.
    + apply Z.ltb_ge in E. split; [reflexivity|]. split; [reflexivity|]. exists c.
      split; [exact Hc|]. split; [lia|]. right. split; [reflexivity|].
      intros j Hj. apply H. lia.
Qed.

Lemma scroll_json_up_cursor_witness :
  outcome scroll_json_up after_toggle = Ok tt
  /\ content (exec scroll_json_up after_toggle) = content after_toggle
  /\ exists r,
       cursor_row (exec scroll_json_up after_toggle) = Some r
       /\ top_row (exec scroll_json_up after_toggle) <= r
       /\ ((0 <= r < 2
            /\ eligible_shown (content after_toggle) r = Ok true
            /\ forall j, r < j < 2 -> eligible_shown (content after_toggle) j = Ok false)
           \/ (r = 2
               /\ forall j, 0 <= j < 2 -> eligible_shown (content after_toggle) j = Ok false)).
Proof.
  apply (scroll_json_up_cursor after_toggle 2).
  - reflexivity.
  - vm_compute. discriminate.
  - split; vm_compute; discriminate.
Defined.

(** ** The annotator: what every call keeps *)

Lemma classify_keeps (num i : Z) (lines : list Line) (stack : list Z)
    (k : option Span) (v : Span) (val : str)
    (a : JsonAnnotation) (lines' : list Line) (stack' : list Z) :
  classify num i lines stack k v val = Ok (a, lines', stack') ->
  map s lines' = map s lines
  /\ (Forall (fun l => uncollapsed l = true) lines ->
      Forall (fun l => uncollapsed l = true) lines')
  /\ ann_uncollapsed a = true.
Proof.
  assert (Hclose : forall entity_start start_line ae n,
             py_index lines entity_start = Ok start_line ->
             entity_of start_line = Ok ae ->
             let e := {| pair_idx := Some (i + num); child_count := n;
                         collapsed := collapsed (snd ae) |} in
             let l2 := match py_pos lines entity_start with
                       | Some k0 =>
                           alter (fun l => set_json l (Some (set_entity (fst ae) e))) k0 lines
                       | None => lines
                       end in
             map s l2 = map s lines
             /\ (Forall (fun l => uncollapsed l = true) lines ->
                 Forall (fun l => uncollapsed l = true) l2)).
  { intros es sl ae n Hi He e l2. subst l2.
    destruct (py_index_Ok _ _ _ Hi) as (k0 & Hp & Hl). rewrite Hp. split.
    - apply map_alter_same. reflexivity.
    - intros HF. apply Forall_alter; [exact HF|].
      intros x Hx Hu. rewrite Hl in Hx. injection Hx as <-.
      unfold entity_of in He. unfold uncollapsed in *.
      destruct (json sl) as [a0|]; [|discriminate].
      destruct (entity a0) as [e0|] eqn:Ee; [|discriminate].
      injection He as <-. cbn [set_json json fst snd].
      unfold ann_uncollapsed in *. rewrite Ee in Hu. exact Hu. }
  unfold classify.
  destruct (str_eqb val (py "[")); [intros [= <- <- <-]; auto|].
  destruct (str_eqb val (py "{")); [intros [= <- <- <-]; auto|].
  destruct (str_eqb val (py "]")).
  { destruct stack as [|es st]; [discriminate|].
    destruct (py_index lines es) as [sl|] eqn:Hi; [|discriminate]. cbn [rbind].
    destruct (entity_of sl) as [ae|] eqn:He; [|discriminate]. cbn [rbind].
    destruct (count_children _ _ _) as [n|]; [|discriminate]. cbn [rbind].
    intros [= <- <- <-].
    destruct (Hclose es sl ae n Hi He) as [H1 H2]. auto. }
  destruct (str_eqb val (py "}")).
  { destruct stack as [|es st]; [discriminate|].
    destruct (py_index lines es) as [sl|] eqn:Hi; [|discriminate]. cbn [rbind].
    destruct (entity_of sl) as [ae|] eqn:He; [|discriminate]. cbn [rbind].
    intros [= <- <- <-].
    destruct (Hclose es sl ae (child_count (snd ae)) Hi He) as [H1 H2]. auto. }
  destruct (str_eqb val (py "[]") || str_eqb val (py "{}")); [intros [= <- <- <-]; auto|].
  destruct (str_eqb val (py "null")); [intros [= <- <- <-]; auto|].
  destruct (str_eqb val (py "true") || str_eqb val (py "false"));
    [intros [= <- <- <-]; auto|].
  destruct (py_index val 0) as [c0|]; [|discriminate]. cbn [rbind].
  destruct (N.eqb c0 QUOTE); [|intros [= <- <- <-]; auto].
  destruct (py_index val (-1)) as [cl|]; [|discriminate]. cbn [rbind].
  destruct (N.eqb cl QUOTE); intros [= <- <- <-]; auto.
Qed.

Lemma finish_line_uncollapsed (merge : bool) (old_s l : str) (a : JsonAnnotation) :
  ann_uncollapsed a = true -> uncollapsed (finish_line merge old_s l a) = true.
Proof. intros H. destruct merge; exact H. Qed.

Lemma pj_step_keeps (num : Z) (flush : bool) (st st' : pj_state) (i : Z) (l : str) :
  pj_step num flush st i l = Ok st' ->
  (if (i =? 0) && negb flush && negb (len (pj_content st) =? 0)
      && negb (len (lstrip l) =? 0)
   then exists before tail,
          pj_content st = before ++ [tail] /\ pj_content st' = before
          /\ map s (pj_lines st') = map s (pj_lines st) ++ [s tail ++ l]
   else pj_content st' = pj_content st
        /\ map s (pj_lines st') = map s (pj_lines st) ++ [l])
  /\ (Forall (fun x => uncollapsed x = true) (pj_lines st) ->
      Forall (fun x => uncollapsed x = true) (pj_lines st')).
Proof.
  unfold pj_step. destruct (len (lstrip l) =? 0).
  - intros [= <-]. cbn [pj_content pj_lines negb]. rewrite andb_false_r. split.
    + split; [reflexivity|]. rewrite map_app. reflexivity.
    + intros HF. apply Forall_app. split; [exact HF|]. repeat constructor.
  - destruct (read_value l) as [[[ks vs] val]|]; [|discriminate]. cbn [rbind].
    destruct (classify _ _ _ _ _ _ _) as [[[a lines] stack]|] eqn:Ec; [|discriminate].
    cbn [rbind]. destruct (classify_keeps _ _ _ _ _ _ _ _ _ _ Ec) as (Hs & Hu & Ha).
    cbn [negb]. rewrite andb_true_r.
    destruct ((i =? 0) && negb flush && negb (len (pj_content st) =? 0)).
    + destruct (py_index (pj_content st) (-1)) as [old|] eqn:Eo; [|discriminate].
      cbn [rbind]. intros [= <-]. cbn [pj_content pj_lines].
      rewrite py_index_minus_1 in Eo.
      destruct (last (pj_content st)) as [x|] eqn:El; [|discriminate].
      injection Eo as ->. apply last_Some in El as [before El]. split.
      * exists before, old. rewrite El, py_slice_init. split; [reflexivity|].
        split; [reflexivity|]. rewrite map_app, Hs. reflexivity.
      * intros HF. apply Forall_app. split; [exact (Hu HF)|].
        constructor; [|constructor]. apply finish_line_uncollapsed, Ha.
    + cbn [rbind]. intros [= <-]. cbn [pj_content pj_lines]. split.
      * split; [reflexivity|]. rewrite map_app, Hs. reflexivity.
      * intros HF. apply Forall_app. split; [exact (Hu HF)|].
        constructor; [|constructor]. apply finish_line_uncollapsed, Ha.
Qed.

Lemma pj_loop_keeps (num : Z) (flush : bool) (ls : list str) :
  forall (st st' : pj_state) (i : Z),
    1 <= i ->
    pj_loop num flush st i ls = (st', None) ->
    pj_content st' = pj_content st
    /\ map s (pj_lines st') = map s (pj_lines st) ++ ls
    /\ (Forall (fun x => uncollapsed x = true) (pj_lines st) ->
        Forall (fun x => uncollapsed x = true) (pj_lines st')).
Proof.
  induction ls as [|l ls IH]; intros st st' i Hi; cbn [pj_loop].
  - intros [= <-]. rewrite app_nil_r. auto.
  - destruct (pj_step num flush st i l) as [st1|] eqn:E1; [|discriminate].
    intros Hl. destruct (pj_step_keeps _ _ _ _ _ _ E1) as [H1 H2].
    destruct (i =? 0) eqn:E0; [apply Z.eqb_eq in E0; lia|]. cbn [andb] in H1.
    destruct H1 as [Hc Ht].
    destruct (IH st1 st' (i + 1) ltac:(lia) Hl) as (Hc' & Ht' & Hu').
    split; [congruence|]. split.
    + rewrite Ht', Ht, <- app_assoc. reflexivity.
    + intros HF. apply Hu', H2, HF.
Qed.

(** The whole loop of [print_json], when it ends without an exception:
    the texts of the new lines are the lines read, the first one behind
    the text of the last display line where that line is taken over; no
    new line is collapsed. *)
Lemma pj_loop_top (num : Z) (flush : bool) (content : list Line) (first : str)
    (rest : list str) (st' : pj_state) :
  pj_loop num flush {| pj_content := content; pj_lines := []; pj_stack := [] |} 0
    (first :: rest) = (st', None) ->
  (if negb flush && negb (len content =? 0) && negb (len (lstrip first) =? 0)
   then exists before tail,
          content = before ++ [tail] /\ pj_content st' = before
          /\ map s (pj_lines st') = (s tail ++ first) :: rest
   else pj_content st' = content /\ map s (pj_lines st') = first :: rest)
  /\ Forall (fun x => uncollapsed x = true) (pj_lines st').
Proof.
  cbn [pj_loop].
  destruct (pj_step num flush _ 0 first) as [st1|] eqn:E1; [|discriminate].
  intros Hl. destruct (pj_step_keeps _ _ _ _ _ _ E1) as [H1 H2].
  cbn [pj_content pj_lines map app Z.eqb andb] in H1, H2.
  destruct (pj_loop_keeps num flush rest st1 st' (0 + 1) ltac:(lia) Hl) as (Hc & Ht & Hu).
  split; [|apply Hu, H2; constructor].
  destruct (negb flush && negb (len content =? 0) && negb (len (lstrip first) =? 0)).
  - destruct H1 as (before & tail & Hb & Hc1 & Ht1). exists before, tail.
    split; [exact Hb|]. split; [congruence|]. rewrite Ht, Ht1. reflexivity.
  - destruct H1 as [Hc1 Ht1]. split; [congruence|]. rewrite Ht, Ht1. reflexivity.
Qed.

Lemma join_glue (sep x y : str) (A R : list str) :
  join sep (A ++ (x ++ y) :: R) = join sep (A ++ [x]) ++ join sep (y :: R).
Proof.
  induction A as [|a A IH].
  - cbn [app]. destruct R as [|r R]; cbn [join]; rewrite <- ?app_assoc; reflexivity.
  - cbn [app].
    assert (H1 : forall l z, join sep (a :: l ++ [z]) = a ++ sep ++ join sep (l ++ [z])).
    { intros l z. destruct l; reflexivity. }
    assert (H2 : forall l z T, join sep (a :: l ++ z :: T) = a ++ sep ++ join sep (l ++ z :: T)).
    { intros l z T. destruct l; reflexivity. }
    rewrite H1, H2, IH, <- !app_assoc. reflexivity.
Qed.

Lemma map_s_imap_rows (c : list Line) :
  map s (imap (fun idx line => set_row line (Some (Z.of_nat idx))) c) = map s c.
Proof.
  apply list_eq. intros n. rewrite !list_lookup_fmap, list_lookup_imap.
  destruct (c !! n); reflexivity.
Qed.

Lemma uncollapsed_imap_rows (c : list Line) :
  Forall (fun x => uncollapsed x = true) c ->
  Forall (fun x => uncollapsed x = true)
    (imap (fun idx line => set_row line (Some (Z.of_nat idx))) c).
Proof.
  intros H. apply Forall_lookup. intros n x Hx. rewrite list_lookup_imap in Hx.
  destruct (c !! n) as [y|] eqn:Ey; [|discriminate]. injection Hx as <-.
  rewrite Forall_lookup in H. exact (H n y Ey).
Qed.

(** What [print_json] does once the loop has ended without an exception:
    the new lines go behind the buffer, every line gets its index as
    [row], and the viewer is redrawn. *)
Lemma print_json_run (d : LinesDisplay) (v : pyjson) (flush : bool) (st : pj_state) :
  pj_loop (len (content d)) flush
    {| pj_content := content d; pj_lines := []; pj_stack := [] |} 0
    (splitlines (dumps v)) = (st, None) ->
  print_json v flush d
  = draw (exec (set_content (imap (fun idx line => set_row line (Some (Z.of_nat idx)))
                               (pj_content st ++ pj_lines st))) d).
Proof.
  intros Hrun. unfold print_json, print_json_lines. unfold bind at 1, get.
  rewrite Hrun. reflexivity.
Qed.

(** A well-formed value on a viewer whose last line takes the first line
    of the output: the loop ends without an exception, and what it leaves. *)
Lemma print_json_loop (d : LinesDisplay) (v : pyjson) (flush : bool) :
  wf_json v = true -> merge_ok d flush ->
  exists st first rest,
    splitlines (dumps v) = first :: rest
    /\ pj_loop (len (content d)) flush
         {| pj_content := content d; pj_lines := []; pj_stack := [] |} 0
         (splitlines (dumps v)) = (st, None)
    /\ (if merges (content d) flush
        then exists before tail,
               content d = before ++ [tail] /\ pj_content st = before
               /\ map s (pj_lines st) = (s tail ++ first) :: rest
        else pj_content st = content d /\ map s (pj_lines st) = first :: rest)
    /\ Forall (fun x => uncollapsed x = true) (pj_lines st).
Proof.
  intros Hw Hm.
  destruct (top_loop (len (content d)) flush (content d) v Hw) as (c' & new & Hrun & Hc & _).
  { intros Hmg tail Hl. destruct Hm as [->|Hm]; [discriminate Hmg|exact (Hm tail Hl)]. }
  rewrite <- (splitlines_dumps v Hw) in Hrun.
  destruct (splitlines (dumps v)) as [|first rest] eqn:Es.
  { rewrite (splitlines_dumps v Hw) in Es. destruct (vlines_nonempty _ _ _ _ Es). }
  eexists _, first, rest. split; [reflexivity|]. split; [exact Hrun|].
  destruct (pj_loop_top _ _ _ _ _ _ Hrun) as [Ht Hu]. split; [|exact Hu].
  cbn [pj_content pj_lines] in *. fold (merges (content d) flush) in Ht.
  destruct (merges (content d) flush) eqn:Em; cbn [andb] in Ht.
  - destruct (negb (len (lstrip first) =? 0)); [exact Ht|].
    destruct Hc as [tail Hc]. destruct Ht as [Ht _].
    apply (f_equal (@length Line)) in Hc. rewrite Ht, length_app in Hc. cbn in Hc. lia.
  - exact Ht.
Qed.

(** X16. [print_json] of a value none of whose dict keys holds a quote
    followed by a colon or by a space and a colon, on a started viewer
    (with [flush=False], the last line not beginning with white space):
    the method raises nothing before its closing redraw, so the call ends
    as [draw] ends on the viewer that holds the new buffer; and whether
    that redraw returns or raises, the buffer afterwards is the new one,
    every line of which carries its index as [row]. *)
Theorem print_json_ends_in_draw (d : LinesDisplay) (v : pyjson) (flush : bool) :
  started d = true -> wf_json v = true -> merge_ok d flush ->
  exists c' : list Line,
    print_json v flush d = draw (exec (set_content c') d)
    /\ content (exec (print_json v flush) d) = c'
    /\ forall i l, c' !! i = Some l -> row l = Some (Z.of_nat i).
Proof.
  intros Hs Hw Hm.
  destruct (print_json_loop d v flush Hw Hm) as (st & first & rest & _ & Hrun & _ & _).
  pose proof (print_json_run d v flush st Hrun) as E.
  set (c1 := imap _ _) in E. exists c1. split; [exact E|]. split.
  - unfold exec at 1. rewrite E. fold_exec_draw.
    rewrite draw_content by exact Hs. reflexivity.
  - intros i l Hl. unfold c1 in Hl. rewrite list_lookup_imap in Hl.
    destruct ((pj_content st ++ pj_lines st) !! i); [|discriminate].
    injection Hl as <-. reflexivity.
Qed.

Lemma print_json_ends_in_draw_witness :
  exists c' : list Line,
    print_json scenario_obj true started_display
    = draw (exec (set_content c') started_display)
    /\ content (exec (print_json scenario_obj true) started_display) = c'
    /\ forall i l, c' !! i = Some l -> row l = Some (Z.of_nat i).
Proof.
  apply (print_json_ends_in_draw started_display scenario_obj true).
  - reflexivity.
  - reflexivity.
  - left. reflexivity.
Defined.

(** X17. The text [print_json] shows, for a value none of whose dict keys
    holds a quote followed by a colon or by a space and a colon, on a
    started viewer (with [flush=False], the last line not beginning with
    white space): the lines of the buffer, joined by line feeds, are
    afterwards the text they were before followed by
    [json.dumps(obj, indent=4)], with a line feed between the two when
    [flush] is set; on an empty buffer they are the text of [json.dumps]
    alone. *)
Theorem print_json_shows_dumps (d : LinesDisplay) (v : pyjson) (flush : bool) :
  started d = true -> wf_json v = true -> merge_ok d flush ->
  join [10%N] (map s (content (exec (print_json v flush) d)))
  = match content d with
    | [] => dumps v
    | _ => join [10%N] (map s (content d)) ++ (if flush then [10%N] else []) ++ dumps v
    end.
Proof.
  intros Hs Hw Hm.
  destruct (print_json_loop d v flush Hw Hm) as (st & first & rest & Es & Hrun & Ht & _).
  unfold exec. rewrite (print_json_run d v flush st Hrun). fold_exec_draw.
  rewrite draw_content by exact Hs. cbn [content exec set_content fst].
  rewrite map_s_imap_rows, map_app.
  assert (Hd : join [10%N] (first :: rest) = dumps v).
  { rewrite <- Es, (splitlines_dumps v Hw), join_vlines. cbn [app].
    rewrite app_nil_r. reflexivity. }
  unfold merges in Ht. destruct (content d) as [|l0 c0] eqn:Ec.
  - cbn [len length Z.of_nat Z.eqb negb andb] in Ht. rewrite andb_false_r in Ht.
    destruct Ht as [-> ->]. exact Hd.
  - assert (Hne : (len (l0 :: c0) =? 0) = false).
    { apply Z.eqb_neq. unfold len. cbn [length]. lia. }
    rewrite Hne in Ht. cbn [negb] in Ht. rewrite andb_true_r in Ht.
    destruct flush; cbn [negb] in Ht.
    + destruct Ht as [-> ->]. rewrite join_app by discriminate. rewrite Hd. reflexivity.
    + destruct Ht as (before & tail & Hb & -> & ->). rewrite Hb, map_app. cbn [map app].
      rewrite join_glue, Hd. reflexivity.
Qed.

Lemma print_json_shows_dumps_witness :
  join [10%N] (map s (content (exec (print_json scenario_obj false) after_plain_then_array)))
  = match content after_plain_then_array with
    | [] => dumps scenario_obj
    | _ => join [10%N] (map s (content after_plain_then_array))
             ++ (if false then [10%N] else []) ++ dumps scenario_obj
    end.
Proof.
  apply (print_json_shows_dumps after_plain_then_array scenario_obj false).
  - reflexivity.
  - reflexivity.
  - right. intros tail Ht. vm_compute in Ht. injection Ht as <-. reflexivity.
Defined.

Lemma draw_unstarted (d : LinesDisplay) :
  started d = false -> content (exec draw d) = [].
Proof.
  intros Hs. unfold exec. rewrite draw_ensure_started.
  change (fst (draw ?x)) with (exec draw x).
  rewrite draw_content by apply ensure_started_started.
  unfold exec, ensure_started, bind, get, start. rewrite Hs. reflexivity.
Qed.

(** X18. [print_json] on a viewer that is not started shows nothing: the
    lines are appended before the redraw starts the viewer, and the start
    empties the buffer. Whenever the call returns, the buffer is empty
    afterwards. *)
Theorem print_json_unstarted_shows_nothing (d : LinesDisplay) (v : pyjson) (flush : bool) :
  started d = false ->
  outcome (print_json v flush) d = Ok tt ->
  content (exec (print_json v flush) d) = [].
Proof.
  intros Hs Ho. unfold outcome, exec in *.
  remember (print_json v flush d) as res eqn:Hres.
  unfold print_json, print_json_lines in Hres. unfold bind at 1, get in Hres.
  destruct (pj_loop _ _ _ _ _) as [st [e|]].
  - subst res. cbn in Ho. discriminate.
  - unfold bind at 1, set_content at 1 in Hres.
    unfold bind at 1, set_content at 1 in Hres.
    subst res. fold_exec_draw. apply draw_unstarted. exact Hs.
Qed.

Lemma print_json_unstarted_shows_nothing_witness :
  content (exec (print_json scenario_obj true) (new_LinesDisplay 24 80)) = [].
Proof.
  apply (print_json_unstarted_shows_nothing (new_LinesDisplay 24 80) scenario_obj true);
    reflexivity.
Defined.

(** ** The menu *)

Lemma menu_eta (m : Menu.MenuDisplay) : Menu.set_selection m (Menu.selection m) = m.
Proof. destruct m. reflexivity. Qed.

(** X19. On a menu whose selection is the index of an item, [scroll_up]
    and [scroll_down] undo each other, and each leaves the selection the
    index of an item: past either end the selection wraps around. *)
Theorem menu_scroll_inverse (m : Menu.MenuDisplay) :
  0 <= Menu.selection m < len (Menu.items m) ->
  Menu.scroll_down (Menu.scroll_up m) = m
  /\ Menu.scroll_up (Menu.scroll_down m) = m
  /\ 0 <= Menu.selection (Menu.scroll_up m) < len (Menu.items m)
  /\ 0 <= Menu.selection (Menu.scroll_down m) < len (Menu.items m).
Proof.
  intros H. destruct m as [st t its ins sel sh]. cbn [Menu.selection Menu.items] in H.
  unfold Menu.scroll_up, Menu.scroll_down, Menu.set_selection.
  cbn [Menu.selection Menu.items Menu.started Menu.title Menu.instructions Menu.shortcuts].
  destruct (sel - 1 <? 0) eqn:E1; destruct (len its - 1 <? sel + 1) eqn:E2;
    repeat split; try f_equal; order_cases.
Qed.

Lemma menu_scroll_inverse_witness :
  let m := Menu.new_MenuDisplay (py "Select a request:")
             [(py "list", py "0"); (py "quit", py "q")] None in
  Menu.scroll_down (Menu.scroll_up m) = m
  /\ Menu.scroll_up (Menu.scroll_down m) = m
  /\ 0 <= Menu.selection (Menu.scroll_up m) < len (Menu.items m)
  /\ 0 <= Menu.selection (Menu.scroll_down m) < len (Menu.items m).
Proof.
  apply (menu_scroll_inverse
           (Menu.new_MenuDisplay (py "Select a request:")
              [(py "list", py "0"); (py "quit", py "q")] None)).
  split; vm_compute; [discriminate|reflexivity].
Defined.

Lemma shortcuts_from_Some (its : list (str * str)) :
  forall (idx : Z) (m : gmap str Z) (k : str) (i : Z),
    Menu.shortcuts_from idx its m !! k = Some i ->
    (m !! k = Some i /\ forall x, In x its -> snd x <> k)
    \/ exists n x, its !! n = Some x /\ snd x = k /\ i = idx + Z.of_nat n
                   /\ forall n' x', (n < n')%nat -> its !! n' = Some x' -> snd x' <> k.
Proof.
  induction its as [|x its IH]; intros idx m k i; cbn [Menu.shortcuts_from].
  - intros H. left. split; [exact H|]. intros y [].
  - intros H. destruct (IH _ _ _ _ H) as [[Hm Hnone]|(n & y & Hn & Hy & Hi & Hlater)].
    + destruct (decide (snd x = k)) as [Ek|Ek].
      * rewrite Ek, lookup_insert_eq in Hm. injection Hm as <-.
        right. exists 0%nat, x. split; [reflexivity|]. split; [exact Ek|]. split; [lia|].
        intros n' x' Hlt Hx'. destruct n' as [|n']; [lia|]. cbn in Hx'.
        apply Hnone. apply list_elem_of_In. eapply list_elem_of_lookup_2. exact Hx'.
      * rewrite lookup_insert_ne in Hm by exact Ek. left. split; [exact Hm|].
        intros y [<-|Hy]; [exact Ek|apply Hnone, Hy].
    + right. exists (S n), y. split; [exact Hn|]. split; [exact Hy|]. split; [lia|].
      intros n' x' Hlt Hx'. destruct n' as [|n']; [lia|]. cbn in Hx'.
      apply (Hlater n' x'); [lia|exact Hx'].
Qed.

Lemma shortcuts_from_is_Some (its : list (str * str)) :
  forall (idx : Z) (m : gmap str Z) (k : str),
    (is_Some (m !! k) \/ exists x, In x its /\ snd x = k) ->
    is_Some (Menu.shortcuts_from idx its m !! k).
Proof.
  induction its as [|x its IH]; intros idx m k; cbn [Menu.shortcuts_from].
  - intros [H|(y & [] & _)]. exact H.
  - intros H. apply IH. destruct (decide (snd x = k)) as [Ek|Ek].
    + left. rewrite Ek, lookup_insert_eq. eauto.
    + destruct H as [H|(y & [<-|Hy] & Hk)].
      * left. rewrite lookup_insert_ne by exact Ek. exact H.
      * contradiction.
      * right. eauto.
Qed.

(** X20. The shortcut dict of a menu: a shortcut is looked up to the index
    of the last item that has it, and a shortcut that no item has is not in
    the dict. *)
Theorem menu_shortcut_is_last_item (t : str) (its : list (str * str))
    (ins : option str) (k : str) (i : Z) :
  Menu.shortcuts (Menu.new_MenuDisplay t its ins) !! k = Some i
  <-> 0 <= i
      /\ (exists x, its !! Z.to_nat i = Some x /\ snd x = k)
      /\ forall n' x', (Z.to_nat i < n')%nat -> its !! n' = Some x' -> snd x' <> k.
Proof.
  cbn [Menu.shortcuts Menu.new_MenuDisplay]. split.
  - intros H. destruct (shortcuts_from_Some _ _ _ _ _ H)
      as [[Hm _]|(n & x & Hn & Hx & -> & Hlater)].
    + rewrite lookup_empty in Hm. discriminate.
    + rewrite Z.add_0_l, Nat2Z.id. split; [lia|]. split; [eauto|exact Hlater].
  - intros (H0 & (x & Hx & Hk) & Hlater).
    destruct (shortcuts_from_is_Some its 0 ∅ k) as [j Hj].
    { right. exists x. split; [|exact Hk].
      apply list_elem_of_In. eapply list_elem_of_lookup_2. exact Hx. }
    rewrite Hj. f_equal.
    destruct (shortcuts_from_Some _ _ _ _ _ Hj)
      as [[Hm _]|(n & y & Hn & Hy & -> & Hlater')].
    + rewrite lookup_empty in Hm. discriminate.
    + destruct (lt_eq_lt_dec n (Z.to_nat i)) as [[Hlt|Heq]|Hgt].
      * destruct (Hlater' _ _ Hlt Hx Hk).
      * lia.
      * destruct (Hlater _ _ Hgt Hn Hy).
Qed.

Lemma shortcuts_from_range (its : list (str * str)) (k : str) (i : Z) :
  Menu.shortcuts_from 0 its ∅ !! k = Some i -> 0 <= i < len its.
Proof.
  intros H. destruct (shortcuts_from_Some _ _ _ _ _ H)
    as [[Hm _]|(n & x & Hn & _ & -> & _)].
  - rewrite lookup_empty in Hm. discriminate.
  - apply lookup_lt_Some in Hn. unfold len. lia.
Qed.

(** X21. [wait_for_selection] on a menu whose selection is the index of an
    item: whatever the keys, when it returns an index, the index is that of
    an item of the menu; the items are those it was given. *)
Theorem menu_selection_in_range (keyname_lower : Z -> str) (keys : list Z)
    (m m' : Menu.MenuDisplay) (i : Z) :
  0 <= Menu.selection m < len (Menu.items m) ->
  Menu.shortcuts m = Menu.shortcuts_from 0 (Menu.items m) ∅ ->
  Menu.wait_for_selection keyname_lower keys m = (m', Some (Some i)) ->
  0 <= i < len (Menu.items m) /\ Menu.items m' = Menu.items m.
Proof.
  revert m. induction keys as [|ch keys IH]; intros m Hsel Hsh; cbn [Menu.wait_for_selection].
  - discriminate.
  - destruct (ch =? Menu.KEY_UP).
    { intros H. apply IH in H; [exact H| |exact Hsh].
      unfold Menu.scroll_up. cbn [Menu.selection Menu.items Menu.set_selection Menu.set_started].
      order_cases. }
    destruct (ch =? Menu.KEY_DOWN).
    { intros H. apply IH in H; [exact H| |exact Hsh].
      unfold Menu.scroll_down. cbn [Menu.selection Menu.items Menu.set_selection Menu.set_started].
      order_cases. }
    destruct (ch =? 27); [discriminate|].
    destruct ((ch =? Menu.KEY_ENTER) || (ch =? 10) || (ch =? 13)).
    { intros [= <- <-]. split; [exact Hsel|reflexivity]. }
    destruct (negb (str_eqb (keyname_lower ch) (py " "))).
    + cbn [Menu.shortcuts Menu.set_started].
      destruct (Menu.shortcuts m !! keyname_lower ch) as [idx|] eqn:El.
      * intros [= <- <-]. split; [|reflexivity].
        rewrite Hsh in El. exact (shortcuts_from_range _ _ _ El).
      * intros H. apply IH in H; [exact H|exact Hsel|exact Hsh].
    + intros H. apply IH in H; [exact H|exact Hsel|exact Hsh].
Qed.

Lemma menu_selection_in_range_witness :
  let m := Menu.new_MenuDisplay (py "Select a request:")
             [(py "list", py "0"); (py "quit", py "q")] None in
  0 <= 1 < len (Menu.items m)
  /\ Menu.items (Menu.set_started (Menu.set_selection m 1) false) = Menu.items m.
Proof.
  apply (menu_selection_in_range (fun _ => []) [Menu.KEY_DOWN; 10]
           (Menu.new_MenuDisplay (py "Select a request:")
              [(py "list", py "0"); (py "quit", py "q")] None)
           _ 1).
  - split; vm_compute; [discriminate|reflexivity].
  - reflexivity.
  - reflexivity.
Defined.

(** ** File names *)

Lemma replace_one_char (o : char) (new : str) (s : str) :
  py_replace [o] new s = concat (map (fun c => if N.eqb o c then new else [c]) s).
Proof.
  unfold py_replace. induction s as [|c s IH]; [reflexivity|].
  cbn [replace_from startswith map concat length Nat.sub].
  destruct (N.eqb o c); cbn [andb]; rewrite IH; [|reflexivity].
  destruct s; reflexivity.
Qed.

Lemma replace_one_char_In (c o : char) (new : str) (s : str) :
  In c (py_replace [o] new s) -> In c new \/ (In c s /\ c <> o).
Proof.
  rewrite replace_one_char. induction s as [|x s IH]; [intros []|].
  cbn [map concat]. intros H. apply in_app_or in H as [H|H].
  - destruct (N.eqb_spec o x) as [E|E]; [left; exact H|].
    destruct H as [<-|[]]. right. split; [left; reflexivity|congruence].
  - destruct (IH H) as [H1|[H1 H2]]; [left; exact H1|right].
    split; [right; exact H1|exact H2].
Qed.

(** X22. A name from [sanitize_for_filename] holds no slash, no plus sign
    and no question mark, whatever the input. *)
Theorem sanitize_for_filename_clean (input : str) :
  Forall (fun c => c <> 47%N /\ c <> 43%N /\ c <> 63%N) (sanitize_for_filename input).
Proof.
  unfold sanitize_for_filename.
  generalize (fold_left
                (fun input prefix =>
                   if startswith prefix input
                   then py_slice (Some (len prefix)) None input else input)
                [py "https://"; py "http://"; py "wss://"; py "www."; py "/"] input).
  intros t. change (py "?") with [63%N]. change (py "+") with [43%N].
  change (py "/") with [47%N]. change (py "-") with [45%N].
  apply List.Forall_forall. intros c H.
  apply replace_one_char_In in H as [[<-|[]]|[H H63]];
    [repeat split; discriminate|].
  apply replace_one_char_In in H as [[]|[H H43]].
  apply replace_one_char_In in H as [[<-|[]]|[H H47]];
    [repeat split; discriminate|].
  auto.
Qed.

(** ** Variables *)

Lemma replace_from_free (o : char) (p new s : str) :
  ~ In o s -> replace_from (o :: p) new 0 s = s.
Proof.
  induction s as [|c s IH]; intros Hn; [reflexivity|].
  cbn [replace_from startswith].
  destruct (N.eqb_spec o c) as [E|E]; [destruct Hn; left; congruence|].
  cbn [andb]. rewrite IH; [reflexivity|]. intros H. apply Hn. right. exact H.
Qed.

Lemma startswith_app (p b : str) : startswith p (p ++ b) = true.
Proof.
  induction p as [|c p IH]; [reflexivity|]. cbn [app startswith].
  rewrite N.eqb_refl. exact IH.
Qed.

Lemma replace_from_skip (old new q b : str) :
  replace_from old new (length q) (q ++ b) = replace_from old new 0 b.
Proof. induction q as [|c q IH]; [reflexivity|exact IH]. Qed.

Lemma py_replace_once (o : char) (p new a b : str) :
  ~ In o a -> ~ In o b ->
  py_replace (o :: p) new (a ++ (o :: p) ++ b) = a ++ new ++ b.
Proof.
  intros Ha Hb. unfold py_replace. induction a as [|c a IH].
  - cbn [app]. cbn [replace_from].
    change (o :: p ++ b) with ((o :: p) ++ b). rewrite startswith_app.
    cbn [length Nat.sub]. rewrite Nat.sub_0_r, replace_from_skip.
    rewrite replace_from_free by exact Hb. reflexivity.
  - cbn [app replace_from startswith].
    destruct (N.eqb_spec o c) as [E|E]; [destruct Ha; left; congruence|].
    cbn [andb]. f_equal. apply IH. intros H. apply Ha. right. exact H.
Qed.

(** X23. A string without an opening brace holds no placeholder:
    [replace_vars_str] returns it as it is, whatever the variables, as long
    as their values are strings. *)
Theorem replace_vars_str_plain (instr : str) (vars : list (str * pyjson)) :
  ~ In 123%N instr ->
  Forall (fun kv => exists v, snd kv = JStr v) vars ->
  replace_vars_str instr vars = Ok instr.
Proof.
  intros Hn Hv. induction Hv as [|[k val] vars [v Hval] Hv IH]; [reflexivity|].
  cbn [snd] in Hval. subst val. cbn [replace_vars_str].
  change (py "{{" ++ k ++ py "}}") with (123%N :: (123%N :: k ++ py "}}")).
  unfold py_replace. rewrite replace_from_free by exact Hn. exact IH.
Qed.

Lemma replace_vars_str_plain_witness :
  replace_vars_str (py "/users") [(py "id", JStr (py "7"))] = Ok (py "/users").
Proof.
  apply (replace_vars_str_plain (py "/users") [(py "id", JStr (py "7"))]).
  - vm_compute. intuition discriminate.
  - repeat constructor. eexists. reflexivity.
Defined.

(** X24. One placeholder, one variable: in a string that holds
    [{{key}}] once, between two parts without an opening brace,
    [replace_vars_str] puts the value of [key] in its place; the value is
    not read again for placeholders. *)
Theorem replace_vars_str_substitutes (a key v b : str) :
  ~ In 123%N a -> ~ In 123%N b ->
  replace_vars_str (a ++ (py "{{" ++ key ++ py "}}") ++ b) [(key, JStr v)]
  = Ok (a ++ v ++ b).
Proof.
  intros Ha Hb. cbn [replace_vars_str].
  change (py "{{" ++ key ++ py "}}") with (123%N :: (123%N :: key ++ py "}}")).
  rewrite py_replace_once by assumption. reflexivity.
Qed.

Lemma replace_vars_str_substitutes_witness :
  replace_vars_str (py "/users/" ++ (py "{{" ++ py "id" ++ py "}}") ++ py "/posts")
    [(py "id", JStr (py "{{id}}7"))]
  = Ok (py "/users/" ++ py "{{id}}7" ++ py "/posts").
Proof.
  apply (replace_vars_str_substitutes (py "/users/") (py "id") (py "{{id}}7") (py "/posts"));
    vm_compute; intuition discriminate.
Defined.

Lemma rmapM_Forall2 {A B} (f : A -> result B) (R : A -> B -> Prop) (l : list A) :
  Forall (fun x => forall y, f x = Ok y -> R x y) l ->
  forall r, rmapM f l = Ok r -> Forall2 R l r.
Proof.
  intros H. induction H as [|x l Hx Hl IH]; intros r; cbn [rmapM].
  - intros [= <-]. constructor.
  - destruct (f x) as [y|] eqn:Ey; [|discriminate]. cbn [rbind].
    destruct (rmapM f l) as [r'|]; [|discriminate]. cbn [rbind].
    intros [= <-]. constructor; [apply Hx; reflexivity|apply IH; reflexivity].
Qed.

Lemma replace_vars_val_skeleton (vars : list (str * pyjson)) (v : pyjson) :
  forall v', replace_vars_val v vars = Ok v' -> skeleton v' = skeleton v.
Proof.
  induction v as [| b | n | r | txt | items IH | items IH] using pyjson_nested_ind;
    intros v'; cbn [replace_vars_val].
  1-4: intros [= <-]; reflexivity.
  - destruct (replace_vars_str txt vars); [|discriminate]. intros [= <-]. reflexivity.
  - destruct (rmapM _ items) as [r|] eqn:Er; [|discriminate]. cbn [rbind].
    intros [= <-]. cbn [skeleton]. f_equal.
    pose proof (rmapM_Forall2 _ (fun x y => skeleton y = skeleton x) items IH r Er) as H2.
    clear IH Er. induction H2 as [|x y l l' Hxy _ IH2]; [reflexivity|].
    cbn [map]. f_equal; assumption.
  - destruct (rmapM _ items) as [r|] eqn:Er; [|discriminate]. cbn [rbind].
    intros [= <-]. cbn [skeleton]. f_equal.
    assert (H2 : Forall2 (fun x y => fst y = fst x /\ skeleton (snd y) = skeleton (snd x))
                   items r).
    { eapply rmapM_Forall2; [|exact Er].
      eapply Forall_impl; [exact IH|]. cbv beta. intros [k x] Hx [k' y].
      cbn [snd] in Hx.
      destruct (replace_vars_val x vars) as [x'|] eqn:Ex; [|discriminate]. cbn [rbind].
      intros [= <- <-]. split; [reflexivity|]. apply Hx. reflexivity. }
    clear IH Er. induction H2 as [|[k x] [k' y] l l' [Hk Hxy] _ IH2]; [reflexivity|].
    cbn [map fst snd] in *. subst k'. rewrite Hxy. f_equal. exact IH2.
Qed.

(** X25. [replace_vars_dict] changes strings only: when it returns, the
    result has the keys of the dict it was given, in their order, the same
    nesting of dicts and lists, and the same numbers, booleans and nulls. *)
Theorem replace_vars_dict_keeps_shape (indict result : list (str * pyjson))
    (vars : list (str * pyjson)) :
  replace_vars_dict indict vars = Ok result ->
  skeleton (JDict result) = skeleton (JDict indict).
Proof.
  intros H. apply (replace_vars_val_skeleton vars (JDict indict)).
  cbn [replace_vars_val]. unfold replace_vars_dict in H. rewrite H. reflexivity.
Qed.

Lemma replace_vars_dict_keeps_shape_witness :
  skeleton (JDict [(py "id", JStr (py "7")); (py "n", JInt 1)])
  = skeleton (JDict [(py "id", JStr (py "{{id}}")); (py "n", JInt 1)]).
Proof.
  apply (replace_vars_dict_keeps_shape
           [(py "id", JStr (py "{{id}}")); (py "n", JInt 1)]
           [(py "id", JStr (py "7")); (py "n", JInt 1)]
           [(py "id", JStr (py "7"))]).
  reflexivity.
Defined.

(** ** Merged projects *)

Lemma dict_merge_eq (d1 d2 : list (str * pyjson)) :
  dict_merge d1 d2 = dict_update d1 (merge_loop d1 d2).
Proof.
  unfold dict_merge. cbn [merge_json]. f_equal.
  generalize d2. induction d1 as [|[k v] d1 IH]; intros d; [reflexivity|].
  cbn [merge_loop]. rewrite <- IH.
  destruct (dict_get k d) as [[| | | | | |b]|]; try reflexivity.
  destruct v; reflexivity.
Qed.

Lemma str_eqb_true (a b : str) : str_eqb a b = true <-> a = b.
Proof. unfold str_eqb. apply bool_decide_eq_true. Qed.

Lemma str_eqb_refl (a : str) : str_eqb a a = true.
Proof. apply str_eqb_true. reflexivity. Qed.

Lemma str_eqb_ne (a b : str) : a <> b -> str_eqb a b = false.
Proof. intros H. unfold str_eqb. apply bool_decide_eq_false_2. exact H. Qed.

Lemma dict_get_None (k : str) (d : list (str * pyjson)) :
  dict_get k d = None <-> ~ In k (map fst d).
Proof.
  induction d as [|[k' v] d IH]; cbn [dict_get map fst In]; [tauto|].
  destruct (str_eqb k' k) eqn:E.
  - apply str_eqb_true in E. split; [discriminate|]. intros H. destruct H. auto.
  - assert (k' <> k) by (intros ->; rewrite str_eqb_refl in E; discriminate).
    rewrite IH. tauto.
Qed.

Lemma dict_get_set_eq (k : str) (v : pyjson) (d : list (str * pyjson)) :
  dict_get k (dict_set k v d) = Some v.
Proof.
  induction d as [|[k' v'] d IH]; cbn [dict_set dict_get].
  - rewrite str_eqb_refl. reflexivity.
  - destruct (str_eqb k' k) eqn:E; cbn [dict_get]; rewrite E; [reflexivity|exact IH].
Qed.

Lemma dict_get_set_ne (k k2 : str) (v : pyjson) (d : list (str * pyjson)) :
  k2 <> k -> dict_get k (dict_set k2 v d) = dict_get k d.
Proof.
  intros Hne. induction d as [|[k' v'] d IH]; cbn [dict_set dict_get].
  - rewrite str_eqb_ne by exact Hne. reflexivity.
  - destruct (str_eqb k' k2) eqn:E; cbn [dict_get].
    + apply str_eqb_true in E. subst k'. rewrite str_eqb_ne by exact Hne. reflexivity.
    + rewrite IH. reflexivity.
Qed.

Lemma keys_dict_set (k : str) (v : pyjson) (d : list (str * pyjson)) :
  map fst (dict_set k v d)
  = match dict_get k d with
    | Some _ => map fst d
    | None => map fst d ++ [k]
    end.
Proof.
  induction d as [|[k' v'] d IH]; cbn [dict_set dict_get map fst app]; [reflexivity|].
  destruct (str_eqb k' k) eqn:E; cbn [map fst]; [reflexivity|].
  rewrite IH. destruct (dict_get k d); reflexivity.
Qed.

Lemma dict_update_get (k : str) (d2 : list (str * pyjson)) :
  NoDup (map fst d2) ->
  forall d, dict_get k (dict_update d d2)
            = match dict_get k d2 with
              | Some y => Some y
              | None => dict_get k d
              end.
Proof.
  unfold dict_update. induction d2 as [|[k2 v2] d2 IH]; intros Hnd d; [reflexivity|].
  cbn [map fst] in Hnd. apply NoDup_cons in Hnd as [Hk2 Hnd].
  cbn [fold_left dict_get]. rewrite (IH Hnd).
  destruct (str_eqb k2 k) eqn:E.
  - apply str_eqb_true in E. subst k2.
    rewrite (proj2 (dict_get_None k d2)) by (rewrite <- list_elem_of_In; exact Hk2).
    apply dict_get_set_eq.
  - assert (k2 <> k) by (intros ->; rewrite str_eqb_refl in E; discriminate).
    rewrite dict_get_set_ne by assumption. reflexivity.
Qed.

Lemma keys_merge_loop (its : list (str * pyjson)) :
  forall d2, map fst (merge_loop its d2) = map fst d2.
Proof.
  induction its as [|[k v] its IH]; intros d2; [reflexivity|].
  cbn [merge_loop]. rewrite IH.
  destruct (dict_get k d2) as [[| | | | | |b]|] eqn:E; try reflexivity.
  destruct v; try reflexivity. rewrite keys_dict_set, E. reflexivity.
Qed.

Lemma merge_loop_get (k : str) (its : list (str * pyjson)) :
  NoDup (map fst its) ->
  forall d2, dict_get k (merge_loop its d2)
             = match dict_get k d2 with
               | Some (JDict b) =>
                   match dict_get k its with
                   | Some (JDict a) => Some (JDict (dict_merge a b))
                   | _ => Some (JDict b)
                   end
               | o => o
               end.
Proof.
  induction its as [|[k1 v] its IH]; intros Hnd d2.
  - cbn [merge_loop dict_get]. destruct (dict_get k d2) as [[| | | | | |b]|]; reflexivity.
  - cbn [map fst] in Hnd. apply NoDup_cons in Hnd as [Hk1 Hnd].
    cbn [merge_loop dict_get]. rewrite (IH Hnd).
    destruct (str_eqb k1 k) eqn:E.
    + apply str_eqb_true in E. subst k1.
      rewrite (proj2 (dict_get_None k its)) by (rewrite <- list_elem_of_In; exact Hk1).
      destruct (dict_get k d2) as [[| | | | | |b]|] eqn:E2; rewrite ?E2; try reflexivity.
      destruct v; rewrite ?E2, ?dict_get_set_eq; reflexivity.
    + assert (Hne : k1 <> k) by (intros ->; rewrite str_eqb_refl in E; discriminate).
      assert (Hsame : dict_get k
                        match dict_get k1 d2 with
                        | Some (JDict b) =>
                            match v with
                            | JDict a => dict_set k1 (JDict (dict_merge a b)) d2
                            | _ => d2
                            end
                        | _ => d2
                        end = dict_get k d2).
      { destruct (dict_get k1 d2) as [[| | | | | |b]|]; try reflexivity.
        destruct v; try reflexivity. apply dict_get_set_ne. exact Hne. }
      rewrite Hsame. reflexivity.
Qed.

(** X26. What [dict_merge(d1, d2)] holds at a key: where both dicts have
    the key with dicts as values, the merge of the two values; else the
    value of [d2] where [d2] has the key; else the value of [d1]; a key
    that neither has is not in the result. *)
Theorem dict_merge_get (d1 d2 : list (str * pyjson)) (k : str) :
  NoDup (map fst d1) -> NoDup (map fst d2) ->
  dict_get k (dict_merge d1 d2)
  = match dict_get k d1, dict_get k d2 with
    | Some (JDict a), Some (JDict b) => Some (JDict (dict_merge a b))
    | _, Some y => Some y
    | Some x, None => Some x
    | None, None => None
    end.
Proof.
  intros H1 H2. rewrite dict_merge_eq.
  rewrite dict_update_get by (rewrite keys_merge_loop; exact H2).
  rewrite merge_loop_get by exact H1.
  destruct (dict_get k d2) as [[| | | | | |b]|]; try (destruct (dict_get k d1) as [[]|]; reflexivity).
Qed.

Lemma dict_merge_get_witness :
  dict_get (py "variables")
    (dict_merge [(py "name", JStr (py "base")); (py "variables", JDict [(py "a", JInt 1)])]
                [(py "variables", JDict [(py "b", JInt 2)]); (py "name", JStr (py "child"))])
  = match dict_get (py "variables")
            [(py "name", JStr (py "base")); (py "variables", JDict [(py "a", JInt 1)])],
          dict_get (py "variables")
            [(py "variables", JDict [(py "b", JInt 2)]); (py "name", JStr (py "child"))] with
    | Some (JDict a), Some (JDict b) => Some (JDict (dict_merge a b))
    | _, Some y => Some y
    | Some x, None => Some x
    | None, None => None
    end.
Proof.
  apply (dict_merge_get
           [(py "name", JStr (py "base")); (py "variables", JDict [(py "a", JInt 1)])]
           [(py "variables", JDict [(py "b", JInt 2)]); (py "name", JStr (py "child"))]
           (py "variables")).
  - repeat constructor; intros H; apply list_elem_of_In in H; vm_compute in H;
      intuition discriminate.
  - repeat constructor; intros H; apply list_elem_of_In in H; vm_compute in H;
      intuition discriminate.
Defined.

Lemma keys_dict_update (d2 : list (str * pyjson)) :
  NoDup (map fst d2) ->
  forall d, map fst (dict_update d d2)
            = map fst d
              ++ List.filter (fun k => match dict_get k d with None => true | _ => false end)
                   (map fst d2).
Proof.
  unfold dict_update. induction d2 as [|[k2 v2] d2 IH]; intros Hnd d.
  - cbn. rewrite app_nil_r. reflexivity.
  - cbn [map fst] in Hnd. apply NoDup_cons in Hnd as [Hk2 Hnd].
    cbn [fold_left map fst List.filter]. rewrite (IH Hnd), keys_dict_set.
    assert (Hf : List.filter
                   (fun k => match dict_get k (dict_set k2 v2 d) with
                             | None => true | _ => false end) (map fst d2)
                 = List.filter
                     (fun k => match dict_get k d with None => true | _ => false end)
                     (map fst d2)).
    { apply List.filter_ext_in. intros k Hk.
      rewrite dict_get_set_ne; [reflexivity|].
      intros ->. apply Hk2, list_elem_of_In, Hk. }
    rewrite Hf. destruct (dict_get k2 d); [reflexivity|].
    rewrite <- app_assoc. reflexivity.
Qed.

(** X27. The order of the keys of [dict_merge(d1, d2)]: the keys of [d1]
    in their order, then the keys of [d2] that [d1] does not have, in
    their order. *)
Theorem dict_merge_keys (d1 d2 : list (str * pyjson)) :
  NoDup (map fst d2) ->
  map fst (dict_merge d1 d2)
  = map fst d1
    ++ List.filter (fun k => match dict_get k d1 with None => true | _ => false end)
         (map fst d2).
Proof.
  intros H2. rewrite dict_merge_eq.
  rewrite keys_dict_update by (rewrite keys_merge_loop; exact H2).
  rewrite keys_merge_loop. reflexivity.
Qed.

Lemma dict_merge_keys_witness :
  map fst
    (dict_merge [(py "name", JStr (py "base")); (py "variables", JDict [(py "a", JInt 1)])]
                [(py "requests", JList []); (py "name", JStr (py "child"))])
  = map fst [(py "name", JStr (py "base")); (py "variables", JDict [(py "a", JInt 1)])]
    ++ List.filter
         (fun k => match dict_get k [(py "name", JStr (py "base"));
                                     (py "variables", JDict [(py "a", JInt 1)])] with
                   | None => true | _ => false end)
         (map fst [(py "requests", JList []); (py "name", JStr (py "child"))]).
Proof.
  apply (dict_merge_keys
           [(py "name", JStr (py "base")); (py "variables", JDict [(py "a", JInt 1)])]
           [(py "requests", JList []); (py "name", JStr (py "child"))]).
  repeat constructor; intros H; apply list_elem_of_In in H; vm_compute in H;
    intuition discriminate.
Defined.

(** ** Numeric input *)

Lemma bind_run {A B} (m : M A) (k : A -> M B) (d d' : LinesDisplay) (a : A) :
  m d = (d', Ok a) -> bind m k d = k a d'.
Proof. intros H. unfold bind. rewrite H. reflexivity. Qed.

Lemma outcome_bind {A B} (m : M A) (k : A -> M B) (d : LinesDisplay) (b : B) :
  outcome (bind m k) d = Ok b ->
  exists d' a, m d = (d', Ok a) /\ outcome (k a) d' = Ok b.
Proof.
  unfold outcome, bind. destruct (m d) as [d' [a|e]]; [eauto|discriminate].
Qed.

Lemma bind_get {A} (K : LinesDisplay -> M A) (d : LinesDisplay) : bind get K d = K d d.
Proof. reflexivity. Qed.

Lemma numeric_input_loop_digits (prompt : str) (keys : list Z) :
  forall (code : str) (d : LinesDisplay) (r : str),
    Forall is_digit code -> len code <= 20 ->
    outcome (numeric_input_loop prompt keys code) d = Ok (Some (Some r)) ->
    Forall is_digit r /\ len r <= 20.
Proof.
  assert (Hspin : forall (r : str) code (d : LinesDisplay),
             outcome (numeric_input_turn prompt code;;; ret None)%method d
             <> Ok (Some (Some r))) by
    (intros r code d H; apply outcome_bind in H as (d1 & [] & _ & H); discriminate H).
  induction keys as [|ch keys IH]; intros code d r Hd Hl; cbn [numeric_input_loop].
  - destruct (len code <? 20).
    + unfold outcome. rewrite bind_get.
      destruct (in_window d _ _); [discriminate|].
      intros H. destruct (Hspin r code d H).
    + unfold outcome, bind, put_footer, ret. cbn [snd]. intros [= <-]. auto.
  - destruct (len code <? 20) eqn:E20.
    2:{ unfold outcome, bind, put_footer, ret. cbn [snd]. intros [= <-]. auto. }
    apply Z.ltb_lt in E20. unfold outcome. rewrite bind_get.
    destruct (in_window d _ _); [|intros H; destruct (Hspin r code d H)].
    assert (Hcont : forall code',
               Forall is_digit code' -> len code' <= 20 ->
               snd ((numeric_input_turn prompt code';;;
                     numeric_input_loop prompt keys code')%method d)
               = Ok (Some (Some r)) ->
               Forall is_digit r /\ len r <= 20).
    { intros code' Hd' Hl' H.
      apply outcome_bind in H as (d1 & [] & _ & H).
      exact (IH code' d1 r Hd' Hl' H). }
    destruct ((48 <=? ch) && (ch <? 58)) eqn:Edig.
    { apply Hcont.
      - apply Forall_app. split; [exact Hd|]. constructor; [|constructor].
        apply andb_true_iff in Edig as [E1 E2]. apply Z.leb_le in E1. apply Z.ltb_lt in E2.
        unfold is_digit. lia.
      - rewrite len_app. change (len [Z.to_N ch]) with 1. lia. }
    destruct ((ch =? 27) || (ch =? 81) || (ch =? 113)); [discriminate|].
    destruct ((ch =? 10) || (ch =? 13)).
    { unfold bind, put_footer, ret. cbn [snd]. intros [= <-]. auto. }
    destruct ((ch =? 8) || (ch =? 127)).
    { destruct code as [|c code]; [discriminate|]. apply Hcont.
      - apply List.Forall_forall. intros x Hx.
        rewrite List.Forall_forall in Hd. apply Hd.
        destruct (exists_last (l:=c :: code) ltac:(discriminate)) as (l' & z & E).
        rewrite E in *. rewrite removelast_last in Hx. apply in_or_app. left. exact Hx.
      - destruct (exists_last (l:=c :: code) ltac:(discriminate)) as (l' & z & E).
        rewrite E in *. rewrite removelast_last. rewrite len_app in Hl.
        pose proof (len_nonneg [z]). lia. }
    apply Hcont; assumption.
Qed.

(** X28. What [get_numeric_input] returns, whatever the keys and the
    viewer: when it returns a string, the string holds decimal digits only
    and at most twenty of them. *)
Theorem get_numeric_input_digits (prompt : str) (keys : list Z) (d : LinesDisplay)
    (r : str) :
  outcome (get_numeric_input prompt keys) d = Ok (Some (Some r)) ->
  Forall is_digit r /\ len r <= 20.
Proof.
  unfold get_numeric_input. intros H.
  apply outcome_bind in H as (d1 & [] & _ & H).
  apply outcome_bind in H as (d2 & [] & _ & H).
  apply (numeric_input_loop_digits prompt keys [] d2 r);
    [exact (List.Forall_nil _)|unfold len; cbn; lia|exact H].
Qed.

Lemma get_numeric_input_digits_witness :
  Forall is_digit (py "42") /\ len (py "42") <= 20.
Proof.
  apply (get_numeric_input_digits (py "id:") [52; 50; 10] started_display (py "42")).
  reflexivity.
Defined.

(** A prompt as wide as the window: the position given to [getch] is
    outside it, no key is read and the method does not return. *)
Lemma get_numeric_input_wide_prompt :
  outcome (get_numeric_input (repeat 32%N 80) [52; 10]) started_display = Ok None.
Proof. reflexivity. Qed.

(** The redraw leaves the size of the window alone. *)
Lemma draw_geometry (d : LinesDisplay) :
  scr_height (exec draw d) = scr_height d /\ scr_width (exec draw d) = scr_width d.
Proof.
  unfold exec at 1 2. rewrite draw_ensure_started.
  change (fst (draw ?x)) with (exec draw x).
  rewrite draw_exec by apply ensure_started_started.
  assert (E : scr_height (exec ensure_started d) = scr_height d
              /\ scr_width (exec ensure_started d) = scr_width d).
  { unfold exec, ensure_started, bind, get, ret, start. destruct (started d); auto. }
  destruct (draw_scan _ _ _ _ _ _) as [[[[idx lines] crow] space]|e]; exact E.
Qed.


Lemma in_window_last_row (d : LinesDisplay) (x : Z) :
  0 < scr_height d -> 0 <= x < scr_width d -> in_window d (scr_height d - 1) x = true.
Proof.
  intros Hh Hx. unfold in_window.
  rewrite !andb_true_iff, !Z.leb_le, !Z.ltb_lt. lia.
Qed.




(** X30. A backspace with nothing typed: where the window has a row and
    the column behind the prompt lies inside it, and the redraw that shows
    the prompt returns, [get_numeric_input] whose first key is a backspace
    (8 or 127) raises [IndexError], from [code_chars.pop()] on the empty
    list. *)
Theorem get_numeric_input_backspace_on_empty (prompt : str) (ch : Z) (keys : list Z)
    (d : LinesDisplay) :
  0 < scr_height d -> len prompt + 1 < scr_width d -> ch = 8 \/ ch = 127 ->
  outcome draw (exec (set_footer prompt) d) = Ok tt ->
  outcome (get_numeric_input prompt (ch :: keys)) d = Raise IndexError.
Proof.
  intros Hh Hw Hch Hdraw. unfold get_numeric_input.
  set (K := numeric_input_loop prompt (ch :: keys) []).
  set (d1 := exec (set_footer prompt) d) in *.
  change (outcome (set_footer prompt;;; draw;;; K)%method d)
    with (snd ((draw;;; K)%method d1)).
  destruct (draw_geometry d1) as [Hh1 Hw1]. unfold exec in Hh1, Hw1.
  unfold outcome in Hdraw.
  destruct (draw d1) as [d2 [[]|e]] eqn:Ed; cbn [fst snd] in Hh1, Hw1, Hdraw;
    [|discriminate Hdraw].
  rewrite (bind_run _ _ d1 d2 tt Ed). unfold K. cbn [numeric_input_loop].
  change (len (@nil char) <? 20) with true. cbv iota.
  pose proof (len_nonneg prompt).
  rewrite bind_get, in_window_last_row.
  - destruct Hch as [-> | ->]; reflexivity.
  - rewrite Hh1. exact Hh.
  - rewrite Hw1. change (len (@nil char)) with 0.
    change (scr_width d1) with (scr_width d). lia.
Qed.

Lemma get_numeric_input_backspace_on_empty_witness :
  outcome (get_numeric_input (py "id:") [127; 52; 10]) started_display = Raise IndexError.
Proof.
  apply (get_numeric_input_backspace_on_empty (py "id:") 127 [52; 10] started_display).
  - reflexivity.
  - reflexivity.
  - right. reflexivity.
  - reflexivity.
Defined.
